(** * NumberPicker: clamp, step, round and the press-and-hold repeater

    A shallow embedding of [packages/react-widgets/src/NumberPicker.js].

    JavaScript numbers are IEEE-754 binary64 values; they are modelled by
    the Standard Library's [spec_float] at precision 53 and maximal exponent
    1024.  The language operations the source relies on (ToString and
    ToNumber of ECMA-262, [Math.min], [Math.max], [Math.round],
    [Number.prototype.toFixed], [String.prototype.split], [||], [==],
    [===] and [+]) are written out first, then the functions of the
    source file, then the host's timers, then the component's handlers. *)

From Stdlib Require Import ZArith List Bool String Ascii Lia.
From Stdlib Require Import SpecFloat Decimal DecimalString DecimalPos DecimalN.
Import ListNotations.

Local Open Scope string_scope.
Local Open Scope Z_scope.

(** ** Binary64 numbers *)

Module Num.

Definition prec : Z := 53.
Definition emax : Z := 1024.

Definition NaN : spec_float := S754_nan.
Definition Infinity : spec_float := S754_infinity false.
Definition NegInfinity : spec_float := S754_infinity true.
Definition zero : spec_float := S754_zero false.

Definition valid (x : spec_float) : bool := valid_binary prec emax x.

Definition is_finite (x : spec_float) : bool :=
  match x with
  | S754_zero _ | S754_finite _ _ _ => true
  | _ => false
  end.

(** The Number value for the rational [±n/d] ([0 <= n], [0 < d]): the
    quotient is computed with enough bits and rounded to nearest, ties to
    even, as the division of the Standard Library's specification does. *)
Definition of_ratio (s : bool) (n d : Z) : spec_float :=
  match n with
  | Z0 => S754_zero s
  | _ =>
      let '(q, e, l) := SFdiv_core_binary prec emax n 0 d 0 in
      binary_round_aux prec emax s q e l
  end.

(** The Number value for [±n * 10^e]. *)
Definition of_decimal (s : bool) (n e : Z) : spec_float :=
  if 0 <=? e then of_ratio s (n * 10 ^ e) 1 else of_ratio s n (10 ^ (- e)).

Definition of_Z (z : Z) : spec_float :=
  of_ratio (z <? 0) (Z.abs z) 1.

(** The magnitude of a finite number as an exact fraction. *)
Definition ratio_of (m : positive) (e : Z) : Z * Z :=
  if 0 <=? e then (Zpos m * 2 ^ e, 1) else (Zpos m, 2 ^ (- e)).

Definition add (x y : spec_float) : spec_float := SFadd prec emax x y.
Definition neg (x : spec_float) : spec_float := SFopp x.

(** [x < y] and [x == y] on numbers; both are false when an operand is NaN. *)
Definition ltb (x y : spec_float) : bool := SFltb x y.
Definition eqb (x y : spec_float) : bool := SFeqb x y.

Definition is_nan (x : spec_float) : bool :=
  match x with S754_nan => true | _ => false end.

Definition is_neg_zero (x : spec_float) : bool :=
  match x with S754_zero true => true | _ => false end.

Definition is_pos_zero (x : spec_float) : bool :=
  match x with S754_zero false => true | _ => false end.

End Num.

(** ** Decimal digit strings *)

Module Digits.

Definition digit_char (d : Z) : ascii := ascii_of_nat (48 + Z.to_nat d).

Definition is_digit (c : ascii) : bool :=
  let n := nat_of_ascii c in (48 <=? n)%nat && (n <=? 57)%nat.

Definition digit_val (c : ascii) : Z := Z.of_nat (nat_of_ascii c) - 48.

(** The decimal digits of [n] (most significant first) in front of [acc]. *)
Fixpoint render_fuel (fuel : nat) (n : Z) (acc : string) : string :=
  let acc' := String (digit_char (n mod 10)) acc in
  match fuel with
  | O => acc'
  | S f => if n <? 10 then acc' else render_fuel f (n / 10) acc'
  end.

Definition render (n : Z) : string :=
  render_fuel (Z.to_nat (Z.log2 n)) n "".

Definition count (n : Z) : Z := Z.of_nat (String.length (render n)).

(** The value of a string of decimal digits, read from the left. *)
Fixpoint value_acc (s : string) (acc : Z) : Z :=
  match s with
  | EmptyString => acc
  | String c r => value_acc r (10 * acc + digit_val c)
  end.

Definition value (s : string) : Z := value_acc s 0.

Fixpoint zeros (n : nat) : string :=
  match n with
  | O => ""
  | S k => String "0" (zeros k)
  end.

(** The longest prefix of decimal digits, and what follows it. *)
Fixpoint take (s : string) : string * string :=
  match s with
  | EmptyString => ("", "")
  | String c r =>
      if is_digit c then let '(d, t) := take r in (String c d, t)
      else ("", s)
  end.

Definition prefix_len (n : nat) (s : string) : string := substring 0 n s.
Definition drop_len (n : nat) (s : string) : string :=
  substring n (String.length s - n) s.

End Digits.

(** ** JavaScript values and the language operations used by the source *)

Module JS.

Inductive Value : Type :=
| VUndefined
| VNull
| VNumber (x : spec_float)
| VString (s : string).

(** *** Number::toString (radix 10) *)

(** [n] with [10^(n-1) <= N/D < 10^n], for [0 < N] and [0 < D]. *)
Definition decimal_exponent (N D : Z) : Z :=
  if D <=? N then Digits.count (N / D)
  else
    let c := Digits.count (D / N) in
    if D <=? N * 10 ^ (c - 1) then 2 - c else 1 - c.

(** [N/D / 10^E] as a fraction. *)
Definition scale (N D E : Z) : Z * Z :=
  if 0 <=? E then (N, D * 10 ^ E) else (N * 10 ^ (- E), D).

(** The two integers around [N/D / 10^E], the nearer one first (the even one
    on a tie). *)
Definition candidates (N D E : Z) : Z * Z :=
  let '(num, den) := scale N D E in
  let lo := num / den in
  let r := num mod den in
  match 2 * r ?= den with
  | Lt => (lo, lo + 1)
  | Gt => (lo + 1, lo)
  | Eq => if Z.even lo then (lo, lo + 1) else (lo + 1, lo)
  end.

Definition same_number (x y : spec_float) : bool :=
  match x, y with
  | S754_finite sx mx ex, S754_finite sy my ey =>
      Bool.eqb sx sy && Pos.eqb mx my && Z.eqb ex ey
  | S754_zero sx, S754_zero sy => Bool.eqb sx sy
  | S754_infinity sx, S754_infinity sy => Bool.eqb sx sy
  | S754_nan, S754_nan => true
  | _, _ => false
  end.

(** Whether the Number value for [s * 10^E] is the positive number [x]. *)
Definition denotes (x : spec_float) (s E : Z) : bool :=
  same_number (Num.of_decimal false s E) x.

(** The search for the integers [s] and [k] of Number::toString: [k], the
    number of digits of [s], is as small as possible, starting from [k];
    with [k = 17] the nearest decimal is taken.  [n] is the decimal exponent
    of [x = N/D]. *)
Fixpoint shortest (fuel : nat) (k : Z) (x : spec_float) (N D n : Z) : Z * Z :=
  let '(c1, c2) := candidates N D (n - k) in
  match fuel with
  | O => (c1, k)
  | S f =>
      if denotes x c1 (n - k) then (c1, k)
      else if denotes x c2 (n - k) then (c2, k)
      else shortest f (k + 1) x N D n
  end.

(** The digits of [s] and the exponent [n] such that the positive finite
    number with mantissa [m] and exponent [e] prints as [0.s * 10^n]. *)
Definition shortest_decimal (m : positive) (e : Z) : string * Z :=
  let '(N, D) := Num.ratio_of m e in
  let n := decimal_exponent N D in
  let '(s, k) := shortest 16 1 (S754_finite false m e) N D n in
  if s =? 10 ^ k then ("1", n + 1) else (Digits.render s, n).

Definition exponent_suffix (n : Z) : string :=
  "e" ++ (if 0 <? n - 1 then "+" else "-") ++ Digits.render (Z.abs (n - 1)).

(** The text of a positive finite number from its digits and exponent. *)
Definition render_decimal (ds : string) (n : Z) : string :=
  let k := Z.of_nat (String.length ds) in
  if (k <=? n) && (n <=? 21) then
    ds ++ Digits.zeros (Z.to_nat (n - k))
  else if (0 <? n) && (n <=? 21) then
    Digits.prefix_len (Z.to_nat n) ds ++ "." ++ Digits.drop_len (Z.to_nat n) ds
  else if (-6 <? n) && (n <=? 0) then
    "0." ++ Digits.zeros (Z.to_nat (- n)) ++ ds
  else if k =? 1 then
    ds ++ exponent_suffix n
  else
    Digits.prefix_len 1 ds ++ "." ++ Digits.drop_len 1 ds ++ exponent_suffix n.

Definition number_to_string (x : spec_float) : string :=
  match x with
  | S754_nan => "NaN"
  | S754_zero _ => "0"
  | S754_infinity s => if s then "-Infinity" else "Infinity"
  | S754_finite s m e =>
      let '(ds, n) := shortest_decimal m e in
      (if s then "-" else "") ++ render_decimal ds n
  end.

(** *** StringToNumber

    The StringNumericLiteral grammar over ASCII text: optional white space
    around an optionally signed decimal literal ([Infinity], digits with an
    optional fraction and exponent) or an unsigned binary, octal or
    hexadecimal integer.  Text outside the grammar converts to NaN, empty
    text to [+0]. *)

Definition is_space (c : ascii) : bool :=
  let n := nat_of_ascii c in
  ((9 <=? n)%nat && (n <=? 13)%nat) || (n =? 32)%nat.

Fixpoint trim_left (s : string) : string :=
  match s with
  | String c r => if is_space c then trim_left r else s
  | EmptyString => s
  end.

Fixpoint trim_right (s : string) : string :=
  match s with
  | EmptyString => EmptyString
  | String c r =>
      match trim_right r with
      | EmptyString => if is_space c then EmptyString else String c EmptyString
      | r' => String c r'
      end
  end.

Definition trim (s : string) : string := trim_right (trim_left s).

(** An optional sign in front: whether it is [-], and what follows. *)
Definition strip_sign (s : string) : bool * string :=
  match s with
  | String c t =>
      if Ascii.eqb c "-" then (true, t)
      else if Ascii.eqb c "+" then (false, t)
      else (false, s)
  | EmptyString => (false, s)
  end.

(** The exponent part: nothing, or [e] or [E], an optional sign and at
    least one digit, up to the end of the text. *)
Definition parse_exponent (s : string) : option Z :=
  match s with
  | EmptyString => Some 0
  | String c r =>
      if Ascii.eqb c "e" || Ascii.eqb c "E" then
        let '(neg, r) := strip_sign r in
        match Digits.take r with
        | (EmptyString, _) => None
        | (ds, EmptyString) =>
            Some (if neg then - Digits.value ds else Digits.value ds)
        | _ => None
        end
      else None
  end.

(** An unsigned decimal literal as a mantissa and a power of ten. *)
Definition parse_unsigned_decimal (s : string) : option (Z * Z) :=
  let '(ip, r1) := Digits.take s in
  let '(fp, r2) :=
    match r1 with
    | String c t => if Ascii.eqb c "." then Digits.take t else ("", r1)
    | EmptyString => ("", r1)
    end in
  match ip ++ fp with
  | EmptyString => None
  | ds =>
      match parse_exponent r2 with
      | Some e => Some (Digits.value ds, e - Z.of_nat (String.length fp))
      | None => None
      end
  end.

Definition radix_digit (radix : Z) (c : ascii) : option Z :=
  let n := Z.of_nat (nat_of_ascii c) in
  let d :=
    if (48 <=? n) && (n <=? 57) then n - 48
    else if (97 <=? n) && (n <=? 102) then n - 87
    else if (65 <=? n) && (n <=? 70) then n - 55
    else 99 in
  if d <? radix then Some d else None.

Fixpoint radix_value (radix : Z) (s : string) (acc : Z) : option Z :=
  match s with
  | EmptyString => Some acc
  | String c r =>
      match radix_digit radix c with
      | Some d => radix_value radix r (radix * acc + d)
      | None => None
      end
  end.

Definition parse_non_decimal (s : string) : option Z :=
  match s with
  | String z (String c (String d r)) =>
      let body := String d r in
      if negb (Ascii.eqb z "0") then None
      else if Ascii.eqb c "x" || Ascii.eqb c "X" then radix_value 16 body 0
      else if Ascii.eqb c "o" || Ascii.eqb c "O" then radix_value 8 body 0
      else if Ascii.eqb c "b" || Ascii.eqb c "B" then radix_value 2 body 0
      else None
  | _ => None
  end.

Definition string_to_number (text : string) : spec_float :=
  let s := trim text in
  match s with
  | EmptyString => Num.zero
  | _ =>
      match parse_non_decimal s with
      | Some n => Num.of_Z n
      | None =>
          let '(neg, u) := strip_sign s in
          if String.eqb u "Infinity" then S754_infinity neg
          else
            match parse_unsigned_decimal u with
            | Some (m, e) => Num.of_decimal neg m e
            | None => Num.NaN
            end
      end
  end.

(** *** ToNumber, ToString, ToBoolean *)

Definition to_number (v : Value) : spec_float :=
  match v with
  | VUndefined => Num.NaN
  | VNull => Num.zero
  | VNumber x => x
  | VString s => string_to_number s
  end.

Definition to_string (v : Value) : string :=
  match v with
  | VUndefined => "undefined"
  | VNull => "null"
  | VNumber x => number_to_string x
  | VString s => s
  end.

Definition truthy (v : Value) : bool :=
  match v with
  | VUndefined | VNull => false
  | VNumber (S754_zero _) | VNumber S754_nan => false
  | VNumber _ => true
  | VString EmptyString => false
  | VString _ => true
  end.

(** [a || b] *)
Definition or_else (a b : Value) : Value := if truthy a then a else b.

(** [v == null] *)
Definition is_nullish (v : Value) : bool :=
  match v with
  | VUndefined | VNull => true
  | _ => false
  end.

(** [a === b] *)
Definition strict_equal (a b : Value) : bool :=
  match a, b with
  | VUndefined, VUndefined => true
  | VNull, VNull => true
  | VNumber x, VNumber y => Num.eqb x y
  | VString s, VString t => String.eqb s t
  | _, _ => false
  end.

(** [a == b] *)
Definition loose_equal (a b : Value) : bool :=
  match a, b with
  | (VUndefined | VNull), (VUndefined | VNull) => true
  | VNumber x, VString t => Num.eqb x (string_to_number t)
  | VString s, VNumber y => Num.eqb (string_to_number s) y
  | _, _ => strict_equal a b
  end.

(** [a + b]: concatenation when an operand is a string, else addition. *)
Definition plus (a b : Value) : Value :=
  match a, b with
  | VString _, _ | _, VString _ => VString (to_string a ++ to_string b)
  | _, _ => VNumber (Num.add (to_number a) (to_number b))
  end.

(** [- a] *)
Definition negate (a : Value) : Value := VNumber (Num.neg (to_number a)).

(** [a - b] *)
Definition minus (a b : Value) : Value :=
  VNumber (Num.add (to_number a) (Num.neg (to_number b))).

(** *** Exceptions *)

Inductive Error : Type := RangeError.

Inductive Completion (A : Type) : Type :=
| Normal (a : A)
| Throw (e : Error).

Arguments Normal {A} a.
Arguments Throw {A} e.

(** *** Math.min, Math.max, Math.round *)

Definition min_step (lowest number : spec_float) : spec_float :=
  if Num.is_neg_zero number && Num.is_pos_zero lowest then number
  else if Num.ltb number lowest then number
  else lowest.

Definition max_step (highest number : spec_float) : spec_float :=
  if Num.is_pos_zero number && Num.is_neg_zero highest then number
  else if Num.ltb highest number then number
  else highest.

Definition math_min (args : list Value) : spec_float :=
  let coerced := map to_number args in
  if existsb Num.is_nan coerced then Num.NaN
  else fold_left min_step coerced Num.Infinity.

Definition math_max (args : list Value) : spec_float :=
  let coerced := map to_number args in
  if existsb Num.is_nan coerced then Num.NaN
  else fold_left max_step coerced Num.NegInfinity.

(** The integer nearest to [±N/D], the one towards +Infinity on a tie. *)
Definition nearest_integer_up (s : bool) (N D : Z) : Z :=
  if s then (D - 2 * N) / (2 * D) else (2 * N + D) / (2 * D).

Definition math_round (x : spec_float) : spec_float :=
  match x with
  | S754_finite s m e =>
      if 0 <=? e then x
      else
        let '(N, D) := Num.ratio_of m e in
        match nearest_integer_up s N D with
        | Z0 => S754_zero s
        | r => Num.of_Z r
        end
  | _ => x
  end.

(** *** Number.prototype.toFixed *)

(** ToIntegerOrInfinity of a number; [None] stands for an infinity. *)
Definition to_integer_or_infinity (x : spec_float) : option Z :=
  match x with
  | S754_nan | S754_zero _ => Some 0
  | S754_infinity _ => None
  | S754_finite s m e =>
      let '(N, D) := Num.ratio_of m e in
      Some (if s then - (N / D) else N / D)
  end.

(** The digits [m] of an integer with a point before the last [f] of them,
    after zeros in front if there are not more than [f]. *)
Definition point (m : string) (f : Z) : string :=
  if f =? 0 then m
  else
    let k := Z.of_nat (String.length m) in
    let m := if k <=? f then Digits.zeros (Z.to_nat (f + 1 - k)) ++ m else m in
    let k := if k <=? f then f + 1 else k in
    Digits.prefix_len (Z.to_nat (k - f)) m ++ "." ++
    Digits.drop_len (Z.to_nat (k - f)) m.

(** The digits of the integer [n] nearest to [N/D * 10^f] (the larger one on
    a tie), with a point before the last [f] of them. *)
Definition fixed_digits (N D f : Z) : string :=
  point (Digits.render ((2 * N * 10 ^ f + D) / (2 * D))) f.

Definition to_fixed (x : spec_float) (fractionDigits : Value)
  : Completion string :=
  match to_integer_or_infinity (to_number fractionDigits) with
  | None => Throw RangeError
  | Some f =>
      if (f <? 0) || (100 <? f) then Throw RangeError
      else
        match x with
        | S754_finite s m e =>
            let '(N, D) := Num.ratio_of m e in
            Normal
              ((if s then "-" else "") ++
               (if 10 ^ 21 * D <=? N
                then number_to_string (S754_finite false m e)
                else fixed_digits N D f))
        | S754_zero _ => Normal (fixed_digits 0 1 f)
        | _ => Normal (number_to_string x)
        end
  end.

(** *** String.prototype.split with a one-character separator *)

Fixpoint split (sep : ascii) (s : string) : list string :=
  match s with
  | EmptyString => [EmptyString]
  | String c r =>
      let parts := split sep r in
      if Ascii.eqb c sep then EmptyString :: parts
      else
        match parts with
        | p :: ps => String c p :: ps
        | [] => [String c EmptyString]
        end
  end.

(** [parts[i]] *)
Definition index (parts : list string) (i : nat) : Value :=
  match nth_error parts i with
  | Some s => VString s
  | None => VUndefined
  end.

End JS.

Import JS.

(** ** The functions of the source file *)

(** [clamp(value, min, max)] *)
Definition clamp (value min max : Value) : Value :=
  let max := if is_nullish max then VNumber Num.Infinity else max in
  let min := if is_nullish min then VNumber Num.NegInfinity else min in
  if is_nullish value || strict_equal value (VString "") then VNull
  else VNumber (math_max [VNumber (math_min [value; max]); min]).

(** [round(value, precision)] *)
Definition round (value precision : Value) : Completion Value :=
  let precision := or_else precision (VNumber Num.zero) in
  let value := split "e" (to_string (plus (VString "") value)) in
  let value :=
    math_round
      (to_number
         (plus (plus (index value 0) (VString "e"))
               (if truthy (index value 1)
                then plus (VNumber (to_number (index value 1))) precision
                else precision))) in
  let value := split "e" (to_string (plus (VString "") (VNumber value))) in
  let value :=
    to_number
      (plus (plus (index value 0) (VString "e"))
            (if truthy (index value 1)
             then minus (VNumber (to_number (index value 1))) precision
             else negate precision)) in
  match to_fixed value precision with
  | Normal s => Normal (VString s)
  | Throw e => Throw e
  end.

(** ** The host's timers and [createInterval]

    [setTimeout] hands out fresh identifiers and queues the function with
    the time at which it is due; [clearTimeout] removes the queued entry
    with the given identifier, if any.  The only functions the source
    passes to [setTimeout] are the [fn] closures created by
    [createInterval]; the [k]-th call of [createInterval] owns the [k]-th
    [Interval], the variables [id] and [callback] its closures share. *)

Local Open Scope list_scope.

Inductive Result (A : Type) : Type :=
| Returned (a : A)
| Thrown (e : Error).

Arguments Returned {A} a.
Arguments Thrown {A} e.

Record Timer : Type := { tid : Z; due : Z; fn : nat }.

Record Interval (Callback : Type) : Type :=
  { id : Z; callback : Callback }.

Arguments id {Callback} _.
Arguments callback {Callback} _.

Record World (S Callback : Type) : Type :=
  { now : Z;
    next_id : Z;
    queue : list Timer;
    intervals : list (Interval Callback);
    state : S }.

Arguments now {S Callback} _.
Arguments next_id {S Callback} _.
Arguments queue {S Callback} _.
Arguments intervals {S Callback} _.
Arguments state {S Callback} _.
Arguments Build_World {S Callback} _ _ _ _ _.

Section Timers.

Context {S Callback : Type}.

Abbreviation W := (World S Callback).

(** Code that runs on the world, returns or throws, and leaves a world. *)
Definition Action (A : Type) : Type := W -> Result A * W.

Definition ret {A} (a : A) : Action A := fun w => (Returned a, w).

Definition throw {A} (e : Error) : Action A := fun w => (Thrown e, w).

Definition bind {A B} (c : Action A) (k : A -> Action B) : Action B :=
  fun w =>
    match c w with
    | (Returned a, w') => k a w'
    | (Thrown e, w') => (Thrown e, w')
    end.

Definition modify (f : W -> W) : Action unit := fun w => (Returned tt, f w).

Definition get : Action W := fun w => (Returned w, w).

Definition with_queue (q : list Timer) (w : W) : W :=
  Build_World (now w) (next_id w) q (intervals w) (state w).

Definition with_state (s : S) (w : W) : W :=
  Build_World (now w) (next_id w) (queue w) (intervals w) s.

Definition with_now (t : Z) (w : W) : W :=
  Build_World t (next_id w) (queue w) (intervals w) (state w).

(** [setTimeout(fn, delay)], where [fn] belongs to interval [k] *)
Definition setTimeout (k : nat) (delay : Z) (w : W) : Z * W :=
  (next_id w,
   Build_World (now w) (next_id w + 1)
     (queue w ++ [{| tid := next_id w; due := now w + delay; fn := k |}])
     (intervals w) (state w)).

(** [clearTimeout(id)] *)
Definition clearTimeout (i : Z) (w : W) : W :=
  with_queue (filter (fun t => negb (tid t =? i)) (queue w)) w.

Fixpoint set_id (k : nat) (i : Z) (l : list (Interval Callback))
  : list (Interval Callback) :=
  match l, k with
  | [], _ => []
  | iv :: r, O => {| id := i; callback := callback iv |} :: r
  | iv :: r, Datatypes.S k' => iv :: set_id k' i r
  end.

(** The assignment [id = ...] in the closures of interval [k]. *)
Definition assign_id (k : nat) (i : Z) (w : W) : W :=
  Build_World (now w) (next_id w) (queue w) (set_id k i (intervals w))
    (state w).

(** [createInterval(callback)]: the result is the [cancel] closure of the
    new interval, named by the interval's index. *)
Definition createInterval (cb : Callback) (w : W) : nat * W :=
  let k := List.length (intervals w) in
  let '(i, w) := setTimeout k 500 w in
  (k,
   Build_World (now w) (next_id w) (queue w)
     (intervals w ++ [{| id := i; callback := cb |}]) (state w)).

(** Calling the [cancel] closure of interval [k]: [clearTimeout(id)]. *)
Definition cancel (k : nat) (w : W) : W :=
  match nth_error (intervals w) k with
  | Some iv => clearTimeout (id iv) w
  | None => w
  end.

(** How the host runs a callback. *)
Variable run : Callback -> Action unit.

(** The closure [fn] of interval [k]: queue the next call, then call back.
    An exception of the callback is reported by the host and ends this
    call only. *)
Definition tick (k : nat) (w : W) : W :=
  match nth_error (intervals w) k with
  | Some iv =>
      let '(i, w) := setTimeout k 35 w in
      let w := assign_id k i w in
      snd (run (callback iv) w)
  | None => w
  end.

(** The queued timer that is due first; of two due at the same time, the
    one queued first. *)
Fixpoint earliest (q : list Timer) : option Timer :=
  match q with
  | [] => None
  | t :: r =>
      match earliest r with
      | Some u => if due u <? due t then Some u else Some t
      | None => Some t
      end
  end.

(** The host lets time pass until the next timer is due and runs it. *)
Definition fire_next (w : W) : option W :=
  match earliest (queue w) with
  | None => None
  | Some t =>
      Some (tick (fn t)
              (clearTimeout (tid t) (with_now (Z.max (now w) (due t)) w)))
  end.

(** [n] firings in a row. *)
Fixpoint fire_n (n : nat) (w : W) : option W :=
  match n with
  | O => Some w
  | Datatypes.S n' =>
      match fire_next w with
      | Some w' => fire_n n' w'
      | None => None
      end
  end.

(** Time passes until [t]; every timer due by then runs, at most [fuel] of
    them. *)
Fixpoint elapse (fuel : nat) (t : Z) (w : W) : W :=
  match fuel with
  | O => w
  | Datatypes.S f =>
      match earliest (queue w) with
      | Some tm =>
          if due tm <=? t then
            match fire_next w with
            | Some w' => elapse f t w'
            | None => w
            end
          else with_now (Z.max (now w) t) w
      | None => with_now (Z.max (now w) t) w
      end
  end.

End Timers.

(** ** The component *)

Inductive Direction : Type := UP | DOWN.

Definition is_up (d : Direction) : bool :=
  match d with UP => true | DOWN => false end.

(** What the handlers read of an event. *)
Record Event : Type := { key : string; defaultPrevented : bool }.

Module Props.
Record t : Type :=
  { value : Value;
    min : Value;
    max : Value;
    step : Value;
    precision : Value;
    disabled : bool;
    readOnly : bool }.

(** [defaultProps], with the given value. *)
Definition default (v : Value) : t :=
  {| value := v;
     min := VNumber Num.NegInfinity;
     max := VNumber Num.Infinity;
     step := VNumber (Num.of_Z 1);
     precision := VUndefined;
     disabled := false;
     readOnly := false |}.
End Props.

(** A call of [notify]: [notify(onChange, [nextValue, {rawValue, lastValue,
    originalEvent}])] or [notify(onKeyDown, [event])]. *)
Inductive Notice : Type :=
| OnChange (nextValue rawValue lastValue : Value) (originalEvent : option Event)
| OnKeyDown (event : Event).

Record Component : Type :=
  { props : Props.t;
    _cancelRepeater : option nat;
    notified : list Notice }.

Definition NumberPicker : Type := World Component (Direction * option Event).

Section Handlers.

(** [numberLocalizer.precision(format(props))]: the localizer is configured
    outside this file. *)
Variable format_precision : Props.t -> Value.

(** Whether the [widgetEditable] decorator of [util/interaction] lets a
    handler run under the given props. *)
Variable editable : Props.t -> bool.

Abbreviation Act := (@Action Component (Direction * option Event)).

Definition this_props (w : NumberPicker) : Props.t := props (state w).

(** The world after one more call of [notify]. *)
Definition log (n : Notice) (w : NumberPicker) : NumberPicker :=
  with_state
    {| props := this_props w;
       _cancelRepeater := _cancelRepeater (state w);
       notified := notified (state w) ++ [n] |} w.

Definition notify (n : Notice) : Act unit := modify (log n).

Definition set_cancelRepeater (h : option nat) : Act unit :=
  modify (fun w =>
    with_state
      {| props := this_props w;
         _cancelRepeater := h;
         notified := notified (state w) |} w).

Definition widgetEditable (handler : Act unit) : Act unit :=
  fun w => if editable (this_props w) then handler w else ret tt w.

(** [handleChange(rawValue, originalEvent)] *)
Definition handleChange (rawValue : Value) (originalEvent : option Event)
  : Act unit :=
  fun w =>
    let lastValue := Props.value (this_props w) in
    let nextValue :=
      clamp rawValue (Props.min (this_props w)) (Props.max (this_props w)) in
    if negb (strict_equal lastValue nextValue)
    then notify (OnChange nextValue rawValue lastValue originalEvent) w
    else ret tt w.

(** [step(amount, event)] *)
Definition step (amount : Value) (event : option Event) : Act Value :=
  fun w =>
    let value :=
      plus (or_else (Props.value (this_props w)) (VNumber Num.zero)) amount in
    let decimals :=
      if negb (is_nullish (Props.precision (this_props w)))
      then Props.precision (this_props w)
      else format_precision (this_props w) in
    match
      (if negb (is_nullish decimals) then round value decimals
       else Normal value)
    with
    | Throw e => throw e w
    | Normal raw => bind (handleChange raw event) (fun _ => ret value) w
    end.

(** [increment(event)] *)
Definition increment (event : option Event) : Act Value :=
  fun w => step (Props.step (this_props w)) event w.

(** [decrement(event)] *)
Definition decrement (event : option Event) : Act Value :=
  fun w => step (negate (Props.step (this_props w))) event w.

(** [handleMouseUp()] *)
Definition handleMouseUp : Act unit :=
  widgetEditable
    (bind
       (fun w =>
          match _cancelRepeater (state w) with
          | Some k => modify (cancel k) w
          | None => ret tt w
          end)
       (fun _ => set_cancelRepeater None)).

(** [handleMouseDown(direction, event)] *)
Definition handleMouseDown (direction : Direction) (event : option Event)
  : Act unit :=
  widgetEditable
    (fun w =>
       let min := Props.min (this_props w) in
       let max := Props.max (this_props w) in
       let method := if is_up direction then increment else decrement in
       bind (method event)
         (fun value =>
            let atTop := is_up direction && strict_equal value max in
            let atBottom :=
              negb (is_up direction) && strict_equal value min in
            if atTop || atBottom then handleMouseUp
            else
              fun w =>
                match _cancelRepeater (state w) with
                | None =>
                    let '(k, w) := createInterval (direction, event) w in
                    set_cancelRepeater (Some k) w
                | Some _ => ret tt w
                end) w).

(** The global [isFinite]. *)
Definition isFinite (v : Value) : bool := Num.is_finite (to_number v).

(** [handleKeyDown(event)] *)
Definition handleKeyDown (event : Event) : Act unit :=
  widgetEditable
    (fun w =>
       let min := Props.min (this_props w) in
       let max := Props.max (this_props w) in
       bind (notify (OnKeyDown event))
         (fun _ =>
            if defaultPrevented event then ret tt
            else if String.eqb (key event) "End" && isFinite max
            then handleChange max (Some event)
            else if String.eqb (key event) "Home" && isFinite min
            then handleChange min (Some event)
            else if String.eqb (key event) "ArrowDown"
            then bind (decrement (Some event)) (fun _ => ret tt)
            else if String.eqb (key event) "ArrowUp"
            then bind (increment (Some event)) (fun _ => ret tt)
            else ret tt) w).

(** The callback handed to [createInterval] by [handleMouseDown]. *)
Definition repeat (cb : Direction * option Event) : Act unit :=
  handleMouseDown (fst cb) (snd cb).

(** What can happen to a mounted component: the buttons' mouse events, a key
    press, a change reported by the input, new props from the parent, and
    the host running the next timer. *)
Inductive Input : Type :=
| MouseDown (d : Direction) (e : option Event)
| MouseUp
| MouseLeave
| KeyDown (e : Event)
| InputChange (raw : Value)
| Receive (p : Props.t)
| TimerFires.

Definition receive (p : Props.t) (w : NumberPicker) : NumberPicker :=
  with_state
    {| props := p;
       _cancelRepeater := _cancelRepeater (state w);
       notified := notified (state w) |} w.

Definition react (i : Input) (w : NumberPicker) : NumberPicker :=
  match i with
  | MouseDown d e => snd (handleMouseDown d e w)
  | MouseUp | MouseLeave => snd (handleMouseUp w)
  | KeyDown e => snd (handleKeyDown e w)
  | InputChange raw => snd (handleChange raw None w)
  | Receive p => receive p w
  | TimerFires =>
      match fire_next repeat w with
      | Some w' => w'
      | None => w
      end
  end.

Definition mount (p : Props.t) : NumberPicker :=
  {| now := 0;
     next_id := 1;
     queue := [];
     intervals := [];
     state := {| props := p; _cancelRepeater := None; notified := [] |} |}.

End Handlers.

(** ** Notions used in the statements *)

(** The bound [clamp] works with: the given one, or the default when the
    given one is null or undefined. *)
Definition effective (default bound : Value) : Value :=
  if is_nullish bound then default else bound.

Definition absent_or_empty (v : Value) : Prop :=
  v = VNull \/ v = VUndefined \/ v = VString "".

Definition number (z : Z) : Value := VNumber (Num.of_Z z).

(** Props with range [[0, 10]], step [1] and the given value and
    precision. *)
Definition ranged (v precision : Value) : Props.t :=
  {| Props.value := v;
     Props.min := number 0;
     Props.max := number 10;
     Props.step := number 1;
     Props.precision := precision;
     Props.disabled := false;
     Props.readOnly := false |}.

(** The [decimals] of [step]: the [precision] prop, or the precision of
    the format when that prop is null or undefined. *)
Definition decimals (format_precision : Props.t -> Value) (p : Props.t)
  : Value :=
  if negb (is_nullish (Props.precision p)) then Props.precision p
  else format_precision p.

(** The text of the integer [r] divided by [10^p], with exactly [p]
    fractional digits. *)
Definition decimal_text (r p : Z) : string :=
  (if r <? 0 then "-" else "") ++ point (Digits.render (Z.abs r)) p.

(** The decimal a finite number prints as, shifted by [p] places, as a
    fraction: the magnitude of [0.ds * 10^(n + p)]. *)
Definition shifted_decimal (m : positive) (e p : Z) : Z * Z :=
  let '(ds, n) := shortest_decimal m e in
  scale (Digits.value ds) 1 (Z.of_nat (String.length ds) - n - p).

(** Rounding to [p] fractional digits, half away from zero, as the
    specification words it: the nearest multiple of [10^-p] to the decimal
    the value prints as, the one of larger magnitude on a tie. *)
Definition round_half_away_from_zero (x : spec_float) (p : Z) : string :=
  match x with
  | S754_finite s m e =>
      let '(num, den) := shifted_decimal m e p in
      (if s then "-" else "") ++
      point (Digits.render ((2 * num + den) / (2 * den))) p
  | S754_zero _ => point "0" p
  | _ => number_to_string x
  end.

(** Rounding to [p] fractional digits, half up: the nearest multiple of
    [10^-p] to the decimal the value prints as, the one towards +Infinity on a
    tie. *)
Definition round_half_up (x : spec_float) (p : Z) : string :=
  match x with
  | S754_finite s m e =>
      let '(num, den) := shifted_decimal m e p in
      decimal_text (nearest_integer_up s num den) p
  | S754_zero _ => point "0" p
  | _ => number_to_string x
  end.

(** Props without bounds, with the given value, step and precision. *)
Definition stepping (v step precision : Value) : Props.t :=
  {| Props.value := v;
     Props.min := VNumber Num.NegInfinity;
     Props.max := VNumber Num.Infinity;
     Props.step := step;
     Props.precision := precision;
     Props.disabled := false;
     Props.readOnly := false |}.

(** A decimal literal as a number. *)
Definition literal (text : string) : Value := VNumber (string_to_number text).

(** A precision [toFixed] accepts: an integer part from 0 to 100. *)
Definition accepted_digits (d : Value) : Prop :=
  exists f,
    to_integer_or_infinity (to_number (or_else d (VNumber Num.zero)))
    = Some f /\ 0 <= f <= 100.

Definition is_string (v : Value) : bool :=
  match v with VString _ => true | _ => false end.

Section TimerNotions.

Context {S Callback : Type}.

(** Interval [k] is armed for time [t]: the one queued timer is its [fn],
    due at [t], and its [id] holds that timer's identifier. *)
Definition armed (k : nat) (cb : Callback) (t : Z) (w : World S Callback)
  : Prop :=
  exists i,
    queue w = [{| tid := i; due := t; fn := k |}]
    /\ nth_error (intervals w) k = Some {| id := i; callback := cb |}
    /\ now w <= t.

(** The world in which the callback of interval [k] runs when its timer
    due at [t] fires: the clock shows [t] and the next call of [fn] is
    queued for [t + 35] under a fresh identifier, which [id] now holds. *)
Definition rearmed (k : nat) (t : Z) (w : World S Callback)
  : World S Callback :=
  {| now := t;
     next_id := next_id w + 1;
     queue := [{| tid := next_id w; due := t + 35; fn := k |}];
     intervals := set_id k (next_id w) (intervals w);
     state := state w |}.

(** An action that leaves the clock, the timers and the intervals alone. *)
Definition leaves_timers (c : @Action S Callback unit) : Prop :=
  forall w,
    now (snd (c w)) = now w
    /\ next_id (snd (c w)) = next_id w
    /\ queue (snd (c w)) = queue w
    /\ intervals (snd (c w)) = intervals w.

End TimerNotions.

(** A callback that counts its calls, on a host with nothing queued. *)
Definition counting : unit -> @Action nat unit unit :=
  fun _ w => (Returned tt, with_state (Datatypes.S (state w)) w).

Definition idle_host : World nat unit :=
  {| now := 0; next_id := 1; queue := []; intervals := []; state := O |}.

(** The decorator as [util/interaction] has it: a handler runs unless the
    widget is disabled or read-only. *)
Definition enabled (p : Props.t) : bool :=
  negb (Props.disabled p || Props.readOnly p).

(** A localizer whose format carries no precision. *)
Definition no_precision (p : Props.t) : Value := VNull.

(** The bound in the direction of the gesture. *)
Definition bound (d : Direction) (p : Props.t) : Value :=
  if is_up d then Props.max p else Props.min p.

(** Two worlds of the component that differ at most in the notices. *)
Definition same_timers (w w' : NumberPicker) : Prop :=
  now w' = now w
  /\ next_id w' = next_id w
  /\ queue w' = queue w
  /\ intervals w' = intervals w
  /\ _cancelRepeater (state w') = _cancelRepeater (state w)
  /\ props (state w') = props (state w).

(** At most one timer is queued, and it is the one the stored handle
    cancels. *)
Definition one_timer (w : NumberPicker) : Prop :=
  queue w = []
  \/ exists i t k cb,
       queue w = [{| tid := i; due := t; fn := k |}]
       /\ _cancelRepeater (state w) = Some k
       /\ nth_error (intervals w) k = Some {| id := i; callback := cb |}.

(** What [handleMouseDown] does once the decorator has let it run and the
    method has returned [value] in world [w']. *)
Definition after_method (editable : Props.t -> bool) (d : Direction) (event : option Event)
  (min max value : Value)
  : @Action Component (Direction * option Event) unit :=
  if (is_up d && strict_equal value max)
     || (negb (is_up d) && strict_equal value min)
  then handleMouseUp editable
  else
    fun w =>
      match _cancelRepeater (state w) with
      | None =>
          let '(k, w) := createInterval (d, event) w in
          set_cancelRepeater (Some k) w
      | Some _ => ret tt w
      end.

(** Position of a remainder [r] of a division by [u] relative to [u/2]. *)
Definition loc_ok (l : location) (r u : Z) : Prop :=
  match l with
  | loc_Exact => r = 0
  | loc_Inexact Lt => 0 < r /\ 2 * r < u
  | loc_Inexact Eq => 0 < r /\ 2 * r = u
  | loc_Inexact Gt => 0 < r /\ u < 2 * r
  end.

(** The binary64 number [m * 2^-a] is the rounding of [n/d]: within half a
    unit in the last place, in the binade of [n/d], or the power of two
    just above it. *)
Definition rounds_to (n d : Z) (m : positive) (a : Z) : Prop :=
  0 <= a
  /\ 2 ^ 52 <= Zpos m < 2 ^ 53
  /\ Z.abs (2 * (Zpos m * d - n * 2 ^ a)) <= d
  /\ (2 ^ 52 * d <= n * 2 ^ a
      \/ (Zpos m = 2 ^ 52 /\ 4 * (2 ^ 52 * d - n * 2 ^ a) <= d)).

(** Texts made of decimal digits. *)
Fixpoint all_digits (s : string) : bool :=
  match s with
  | EmptyString => true
  | String c r => Digits.is_digit c && all_digits r
  end.

(** A text that does not go on with a digit. *)
Definition starts_plain (s : string) : Prop :=
  match s with
  | EmptyString => True
  | String c _ => Digits.is_digit c = false
  end.

Definition len (s : string) : Z := Z.of_nat (String.length s).

(** What [render_fuel] puts in front of [acc]. *)
Definition digits_of (n : Z) (ds : string) : Prop :=
  all_digits ds = true
  /\ (forall v, Digits.value_acc ds v = v * 10 ^ len ds + n)
  /\ 1 <= len ds
  /\ n < 10 ^ len ds
  /\ (0 < n -> 10 ^ (len ds - 1) <= n)
  /\ (0 < n -> exists c r, ds = String c r /\ c <> "0"%char).

(** The characters of decimal literals. *)
Definition numeric_char (c : ascii) : bool :=
  Digits.is_digit c || Ascii.eqb c "." || Ascii.eqb c "e" || Ascii.eqb c "-"
  || Ascii.eqb c "+".

Fixpoint numeric (s : string) : bool :=
  match s with
  | EmptyString => true
  | String c r => numeric_char c && numeric r
  end.

(** Texts without the letter e. *)
Fixpoint no_e (s : string) : bool :=
  match s with
  | EmptyString => true
  | String c r => negb (Ascii.eqb c "e") && no_e r
  end.

(** A text that begins with a digit. *)
Definition starts_digit (u : string) : Prop :=
  match u with
  | String c _ => Digits.is_digit c = true
  | EmptyString => False
  end.

(** The number nearest to the decimal a finite number prints as, with the
    point moved [p] places to the right. *)
Definition shifted (x : spec_float) (p : Z) : spec_float :=
  match x with
  | S754_finite s m e =>
      let '(ds, n) := shortest_decimal m e in
      Num.of_decimal s (Digits.value ds) (n - len ds + p)
  | _ => x
  end.

(** The integer nearest to a finite number, the larger one on a tie. *)
Definition integer_nearest (y : spec_float) : Z :=
  match y with
  | S754_finite s m e =>
      let '(N, D) := Num.ratio_of m e in nearest_integer_up s N D
  | _ => 0
  end.

(** The values [round] is characterised on: the number prints without an
    exponent, [toFixed] accepts the precision, and the shifted number is
    below [2^52] and rounds to an integer below [2^51] in magnitude. *)
Definition roundable (x : spec_float) (p : Z) : bool :=
  match x with
  | S754_finite s m e =>
      let n := snd (shortest_decimal m e) in
      (-6 <? n) && (n <=? 21) && (0 <=? p) && (p <=? 100)
      && match shifted x p with
         | S754_finite _ _ ey =>
             (ey <? 0) && (Z.abs (integer_nearest (shifted x p)) <? 2 ^ 51)
         | _ => false
         end
  | _ => false
  end.

(** The second half of [round]: from the rounded integer back to text. *)
Definition back (r : spec_float) (precision : Value) : Completion Value :=
  let value := split "e" (to_string (plus (VString "") (VNumber r))) in
  let value :=
    to_number
      (plus (plus (index value 0) (VString "e"))
            (if truthy (index value 1)
             then minus (VNumber (to_number (index value 1))) precision
             else negate precision)) in
  match to_fixed value precision with
  | Normal s => Normal (VString s)
  | Throw e => Throw e
  end.

(** ** Notions used in the further properties *)

(** [x <= y] on numbers: false when an operand is NaN. *)
Definition num_le (x y : spec_float) : bool :=
  negb (Num.is_nan x) && negb (Num.is_nan y) && negb (Num.ltb y x).

(** The order [Math.min] and [Math.max] work with: [<], and [-0] before
    [+0]. *)
Definition before (x y : spec_float) : bool :=
  (Num.is_neg_zero x && Num.is_pos_zero y) || Num.ltb x y.

(** The place of a number in that order: its class, from [-Infinity] to
    [Infinity], then its exponent and its mantissa, negated for negative
    numbers. *)
Definition class_of (x : spec_float) : Z :=
  match x with
  | S754_infinity true => -3
  | S754_finite true _ _ => -2
  | S754_zero true => -1
  | S754_nan => 0
  | S754_zero false => 1
  | S754_finite false _ _ => 2
  | S754_infinity false => 3
  end.

Definition exponent_of (x : spec_float) : Z :=
  match x with
  | S754_finite s _ e => if s then - e else e
  | _ => 0
  end.

Definition mantissa_of (x : spec_float) : Z :=
  match x with
  | S754_finite s m _ => if s then - Zpos m else Zpos m
  | _ => 0
  end.

Definition placed_before (x y : spec_float) : Prop :=
  class_of x < class_of y
  \/ (class_of x = class_of y
      /\ (exponent_of x < exponent_of y
          \/ (exponent_of x = exponent_of y /\ mantissa_of x < mantissa_of y))).

(** The decimal text of the integer [r] followed, for [0 < p], by a point
    and [p] zeros. *)
Definition integer_text_with_zeros (r p : Z) : string :=
  (if r <? 0 then "-" else "") ++ Digits.render (Z.abs r)
  ++ (if p =? 0 then "" else String "." (Digits.zeros (Z.to_nat p))).

(** A notice as [handleChange] adds it under props [p]: the value is the
    clamped raw value and is not [===] to the [value] prop. *)
Definition sound (p : Props.t) (n : Notice) : Prop :=
  match n with
  | OnChange nextValue rawValue lastValue _ =>
      nextValue = clamp rawValue (Props.min p) (Props.max p)
      /\ lastValue = Props.value p
      /\ strict_equal lastValue nextValue = false
  | OnKeyDown _ => True
  end.

(** From [w] to [w'] the props stay and the notices [l] are added. *)
Definition reports (w w' : NumberPicker) (l : list Notice) : Prop :=
  props (state w') = props (state w)
  /\ notified (state w') = (notified (state w) ++ l)%list.

(** The props with another [value]. *)
Definition with_value (v : Value) (p : Props.t) : Props.t :=
  {| Props.value := v;
     Props.min := Props.min p;
     Props.max := Props.max p;
     Props.step := Props.step p;
     Props.precision := Props.precision p;
     Props.disabled := Props.disabled p;
     Props.readOnly := Props.readOnly p |}.

(** What [render] computes in this file for its children: the value the
    input shows and the [disabled] prop of the two buttons.  The other
    props are handed on unchanged, and the labels come from the messages
    configured outside this file. *)
Record View : Type :=
  { input_value : Value;
    increment_disabled : bool;
    decrement_disabled : bool }.

(** [render()] *)
Definition render (w : NumberPicker) : View :=
  let disabled := Props.disabled (this_props w) in
  let min := Props.min (this_props w) in
  let max := Props.max (this_props w) in
  let value := clamp (Props.value (this_props w)) min max in
  {| input_value := value;
     increment_disabled := strict_equal value max || disabled;
     decrement_disabled := strict_equal value min || disabled |}.

(** The identifiers in use are below the next one [setTimeout] hands out. *)
Definition fresh {S Callback : Type} (w : World S Callback) : Prop :=
  (forall t, In t (queue w) -> tid t < next_id w)
  /\ (forall iv, In iv (intervals w) -> id iv < next_id w).

(** How many calls of [fn] are due by time [T] for an interval whose first
    call is due at [t]: one at [t] and one every 35ms after it. *)
Definition calls_due (t T : Z) : nat :=
  Z.to_nat (if T <? t then 0 else (T - t) / 35 + 1).

(** The value of the latest [onChange] notice. *)
Fixpoint last_change (l : list Notice) : option Value :=
  match l with
  | [] => None
  | n :: r =>
      match last_change r with
      | Some v => Some v
      | None =>
          match n with
          | OnChange v _ _ _ => Some v
          | OnKeyDown _ => None
          end
      end
  end.

(** The parent of an uncontrolled widget hands the latest reported value
    back as the [value] prop. *)
Definition echo (w : NumberPicker) : NumberPicker :=
  match last_change (notified (state w)) with
  | Some v => receive (with_value v (this_props w)) w
  | None => w
  end.

Section Scenarios.

Variable format_precision : Props.t -> Value.
Variable editable : Props.t -> bool.

(** The button for direction [d] is pressed and held while the timer fires
    [n] times; the parent answers each event. *)
Fixpoint held (d : Direction) (e : option Event) (n : nat) (w : NumberPicker)
  : NumberPicker :=
  match n with
  | O => echo (react format_precision editable (MouseDown d e) w)
  | Datatypes.S n' =>
      echo (react format_precision editable TimerFires (held d e n' w))
  end.

End Scenarios.

(** The notices of [n] steps of [s] up from [v] towards [hi]: a step
    reports as long as the value is below [hi]. *)
Fixpoint counted (v s hi : Z) (e : option Event) (n : nat) : list Notice :=
  match n with
  | O => []
  | Datatypes.S n' =>
      counted v s hi e n' ++
      (if v + Z.of_nat n' * s <? hi
       then [OnChange (number (Z.min (v + Z.of_nat n * s) hi))
               (number (v + Z.of_nat n * s))
               (number (v + Z.of_nat n' * s)) e]
       else [])
  end.

(** Whether one of the first [n] sums is [hi] itself. *)
Fixpoint landed (v s hi : Z) (n : nat) : bool :=
  match n with
  | O => false
  | Datatypes.S n' => landed v s hi n' || (v + Z.of_nat n * s =? hi)
  end.

(** The component while the up button is held, after [k] firings. *)
Definition holding (p : Props.t) (e : option Event) (k : nat) (x : Z)
  (L : list Notice) : NumberPicker :=
  {| now := if (k =? 0)%nat then 0 else 500 + 35 * (Z.of_nat k - 1);
     next_id := Z.of_nat k + 2;
     queue :=
       [{| tid := Z.of_nat k + 1; due := 500 + 35 * Z.of_nat k; fn := O |}];
     intervals := [{| id := Z.of_nat k + 1; callback := (UP, e) |}];
     state :=
       {| props := with_value (number x) p;
          _cancelRepeater := Some O;
          notified := L |} |}.

(** The component once the repeater has been stopped. *)
Definition released (p : Props.t) (x : Z) (L : list Notice)
  (w : NumberPicker) : Prop :=
  queue w = []
  /\ state w =
     {| props := with_value (number x) p;
        _cancelRepeater := None;
        notified := L |}.

(** The mantissa and the exponent of a binary64 number are in range. *)
Definition in_range (x : spec_float) : Prop :=
  match x with
  | S754_finite _ m e => Zpos m < 2 ^ 53 /\ -1074 <= e <= 971
  | _ => True
  end.

(** The decimal a finite number prints as, as StringToNumber reads the
    printed text: an integer and a power of ten.  A text of digits followed
    by zeros is read as one integer, any other text as the digits of
    Number::toString and the power of ten that places the point. *)
Definition printed_decimal (ds : string) (n : Z) : Z * Z :=
  if (len ds <=? n) && (n <=? 21)
  then (Digits.value ds * 10 ^ (n - len ds), 0)
  else (Digits.value ds, n - len ds).

(** The number nearest to the decimal a number prints as, with the point
    moved [q] places (to the right for [0 < q]): a zero loses its sign, and
    the texts of NaN and of the infinities do not take an exponent. *)
Definition moved (x : spec_float) (q : Z) : spec_float :=
  match x with
  | S754_finite s m e =>
      let '(ds, n) := shortest_decimal m e in
      let '(M, E) := printed_decimal ds n in
      Num.of_decimal s M (E + q)
  | S754_zero _ => S754_zero false
  | _ => S754_nan
  end.

(** * Properties *)

(** ** Rounding to binary64 *)

Lemma digits2_pos_bounds (p : positive) :
  2 ^ (Zpos (digits2_pos p) - 1) <= Zpos p < 2 ^ Zpos (digits2_pos p).
Proof.
  induction p as [p IH|p IH|]; cbn [digits2_pos].
  - rewrite Pos2Z.inj_succ.
    replace (Z.succ (Zpos (digits2_pos p)) - 1)
      with (Z.succ (Zpos (digits2_pos p) - 1)) by lia.
    rewrite !Z.pow_succ_r by lia. lia.
  - rewrite Pos2Z.inj_succ.
    replace (Z.succ (Zpos (digits2_pos p)) - 1)
      with (Z.succ (Zpos (digits2_pos p) - 1)) by lia.
    rewrite !Z.pow_succ_r by lia. lia.
  - cbn. lia.
Qed.

Lemma Zdigits2_bounds (n : Z) :
  0 < n -> 2 ^ (Zdigits2 n - 1) <= n < 2 ^ Zdigits2 n.
Proof.
  destruct n as [|p|p]; try lia. intros _. apply digits2_pos_bounds.
Qed.

Lemma Zdigits2_unique (n d : Z) :
  2 ^ (d - 1) <= n < 2 ^ d -> 0 < n -> Zdigits2 n = d.
Proof.
  intros [Hl Hu] Hn. pose proof (Zdigits2_bounds n Hn) as [Hl' Hu'].
  assert (Hd : 0 < Zdigits2 n) by (destruct n; cbn; lia).
  assert (0 < d).
  { destruct (Z_lt_le_dec 0 d) as [|Hd0]; [assumption|].
    exfalso. destruct (Z.eq_dec d 0) as [->|Hne].
    - cbn in Hu. lia.
    - rewrite (Z.pow_neg_r 2 d) in Hu by lia. lia. }
  destruct (Z.lt_trichotomy (Zdigits2 n) d) as [Hlt|[Heq|Hgt]];
    [|exact Heq|]; exfalso.
  - assert (2 ^ Zdigits2 n <= 2 ^ (d - 1))
      by (apply Z.pow_le_mono_r; lia). lia.
  - assert (2 ^ d <= 2 ^ (Zdigits2 n - 1))
      by (apply Z.pow_le_mono_r; lia). lia.
Qed.

Lemma new_location_ok (u r : Z) :
  0 <= r < u -> loc_ok (new_location u r) r u.
Proof.
  intros H. unfold new_location.
  destruct (Z.even u) eqn:Hu.
  - unfold new_location_even. destruct (Z.eqb_spec r 0) as [->|Hr];
      [reflexivity|].
    destruct (Z.compare_spec (2 * r) u); unfold loc_ok; lia.
  - unfold new_location_odd. destruct (Z.eqb_spec r 0) as [->|Hr];
      [reflexivity|].
    assert (Ho : Z.odd u = true) by (rewrite <- Z.negb_even, Hu; reflexivity).
    apply Z.odd_spec in Ho. destruct Ho as [k Hk].
    destruct (Z.compare_spec (2 * r + 1) u); unfold loc_ok; lia.
Qed.

Lemma loc_of_shr_record_of_loc (m : Z) (l : location) :
  loc_of_shr_record (shr_record_of_loc m l) = l.
Proof. destruct l as [|[| |]]; reflexivity. Qed.

Lemma shr_record_of_loc_of_shr_record (mrs : shr_record) :
  shr_record_of_loc (shr_m mrs) (loc_of_shr_record mrs) = mrs.
Proof. destruct mrs as [m [|] [|]]; reflexivity. Qed.

Lemma shr_m_of_loc (m : Z) (l : location) :
  shr_m (shr_record_of_loc m l) = m.
Proof. destruct l as [|[| |]]; reflexivity. Qed.

Lemma fexp_normal (e : Z) :
  -1021 <= e -> fexp Num.prec Num.emax e = e - 53.
Proof. intros H. unfold fexp, emin, Num.prec, Num.emax. lia. Qed.

Lemma round_nearest_even_range (m : Z) (l : location) :
  m <= round_nearest_even m l <= m + 1.
Proof.
  destruct l as [|[| |]]; cbn; try lia. destruct (Z.even m); lia.
Qed.

Lemma binary_round_aux_53 (s : bool) (q e : Z) (l : location) :
  2 ^ 52 <= q < 2 ^ 53 -> -1074 <= e <= 970 ->
  binary_round_aux Num.prec Num.emax s q e l =
  if round_nearest_even q l <? 2 ^ 53
  then S754_finite s (Z.to_pos (round_nearest_even q l)) e
  else S754_finite s (Z.to_pos (2 ^ 52)) (e + 1).
Proof.
  intros Hq He. unfold binary_round_aux, shr_fexp.
  assert (Hd : Zdigits2 q = 53) by (apply Zdigits2_unique; lia).
  rewrite Hd, fexp_normal by lia.
  replace (53 + e - 53 - e) with 0 by lia. cbn [shr].
  rewrite loc_of_shr_record_of_loc, shr_m_of_loc.
  pose proof (round_nearest_even_range q l) as Hr.
  destruct (Z.ltb_spec (round_nearest_even q l) (2 ^ 53)) as [Hlt|Hge].
  - assert (Hd1 : Zdigits2 (round_nearest_even q l) = 53)
      by (apply Zdigits2_unique; lia).
    rewrite Hd1, fexp_normal by lia.
    replace (53 + e - 53 - e) with 0 by lia. cbn [shr shr_record_of_loc shr_m].
    destruct (round_nearest_even q l) as [|m1|m1] eqn:E; try lia.
    replace (e <=? Num.emax - Num.prec) with true
      by (symmetry; apply Z.leb_le; unfold Num.emax, Num.prec; lia).
    reflexivity.
  - assert (E : round_nearest_even q l = 2 ^ 53) by lia.
    rewrite E.
    replace (Zdigits2 (2 ^ 53)) with 54 by reflexivity.
    rewrite fexp_normal by lia.
    replace (54 + e - 53 - e) with 1 by lia.
    cbn -[Z.leb Z.add]. 
    replace (e + 1 <=? Num.emax - Num.prec) with true
      by (symmetry; apply Z.leb_le; unfold Num.emax, Num.prec; lia).
    reflexivity.
Qed.

Lemma binary_round_aux_54 (s : bool) (q e : Z) (l : location) :
  2 ^ 53 <= q < 2 ^ 54 -> -1075 <= e <= 969 ->
  binary_round_aux Num.prec Num.emax s q e l =
  binary_round_aux Num.prec Num.emax s (q / 2) (e + 1)
    (loc_of_shr_record (shr_1 (shr_record_of_loc q l))).
Proof.
  intros Hq He.
  assert (Hm : shr_m (shr_1 (shr_record_of_loc q l)) = q / 2).
  { rewrite <- Z.div2_div.
    destruct q as [|[p|p|]|p]; try lia;
      destruct l as [|[| |]]; reflexivity. }
  assert (Hq2 : 2 ^ 52 <= q / 2 < 2 ^ 53).
  { split; [apply Z.div_le_lower_bound|apply Z.div_lt_upper_bound]; lia. }
  unfold binary_round_aux at 1 2. unfold shr_fexp at 1 3.
  assert (Hd : Zdigits2 q = 54) by (apply Zdigits2_unique; lia).
  assert (Hd2 : Zdigits2 (q / 2) = 53) by (apply Zdigits2_unique; lia).
  rewrite Hd, Hd2, !fexp_normal by lia.
  replace (54 + e - 53 - e) with 1 by lia.
  replace (53 + (e + 1) - 53 - (e + 1)) with 0 by lia.
  cbn [shr iter_pos].
  rewrite <- Hm. rewrite !shr_record_of_loc_of_shr_record.
  reflexivity.
Qed.

Lemma rne_step (M0 R0 U : Z) (l : location) :
  0 <= R0 < U -> loc_ok l R0 U ->
  (round_nearest_even M0 l = M0 /\ 2 * R0 <= U)
  \/ (round_nearest_even M0 l = M0 + 1 /\ U <= 2 * R0).
Proof.
  intros HR Hl.
  destruct l as [|[| |]]; unfold loc_ok in Hl; cbn [round_nearest_even];
    try lia.
  destruct (Z.even M0); lia.
Qed.

Lemma loc_ok_shr_1 (q d r : Z) (l : location) :
  0 < q -> 0 <= r < d -> loc_ok l r d ->
  loc_ok (loc_of_shr_record (shr_1 (shr_record_of_loc q l)))
    (q mod 2 * d + r) (2 * d).
Proof.
  intros Hq Hr Hl.
  destruct q as [|[p|p|]|p]; try lia.
  - replace (Zpos p~1 mod 2) with 1
      by (rewrite Pos2Z.inj_xI; apply (Z.mod_unique _ 2 (Zpos p)); lia).
    destruct l as [|[| |]]; unfold loc_ok in Hl |- *;
      cbn [shr_record_of_loc shr_1 loc_of_shr_record orb]; lia.
  - replace (Zpos p~0 mod 2) with 0
      by (rewrite Pos2Z.inj_xO; apply (Z.mod_unique _ 2 (Zpos p)); lia).
    destruct l as [|[| |]]; unfold loc_ok in Hl |- *;
      cbn [shr_record_of_loc shr_1 loc_of_shr_record orb]; lia.
  - change (1 mod 2) with 1.
    destruct l as [|[| |]]; unfold loc_ok in Hl |- *;
      cbn [shr_record_of_loc shr_1 loc_of_shr_record orb]; lia.
Qed.

Lemma round_53_spec (s : bool) (n d q r a : Z) (l : location) :
  0 < d -> 1 <= a <= 1074 ->
  n * 2 ^ a = d * q + r -> 0 <= r < d -> loc_ok l r d ->
  2 ^ 52 <= q < 2 ^ 53 ->
  exists m a',
    binary_round_aux Num.prec Num.emax s q (- a) l = S754_finite s m (- a')
    /\ rounds_to n d m a'.
Proof.
  intros Hd Ha Hdiv Hr Hl Hq.
  rewrite binary_round_aux_53 by lia.
  destruct (rne_step q r d l Hr Hl) as [[E H]|[E H]]; rewrite E.
  - replace (q <? 2 ^ 53) with true by (symmetry; apply Z.ltb_lt; lia).
    exists (Z.to_pos q), a. split; [reflexivity|].
    unfold rounds_to. rewrite Z2Pos.id by lia.
    split; [lia|]. split; [lia|]. split; [|left]; nia.
  - destruct (Z.ltb_spec (q + 1) (2 ^ 53)) as [Hlt|Hge].
    + exists (Z.to_pos (q + 1)), a. split; [reflexivity|].
      unfold rounds_to. rewrite Z2Pos.id by lia.
      split; [lia|]. split; [lia|]. split; [|left]; nia.
    + exists (Z.to_pos (2 ^ 52)), (a - 1).
      split; [f_equal; lia|].
      unfold rounds_to. rewrite Z2Pos.id by lia.
      assert (Hp : 2 ^ a = 2 * 2 ^ (a - 1)).
      { rewrite <- Z.pow_succ_r by lia. f_equal. lia. }
      assert (Eq : q = 2 ^ 53 - 1) by lia.
      split; [lia|]. split; [lia|].
      split; [|right; split; [reflexivity|]]; nia.
Qed.

Lemma rounds_to_halve (n d : Z) (m : positive) (a : Z) :
  rounds_to (2 * n) (2 * d) m a -> rounds_to n d m a.
Proof.
  unfold rounds_to. intros (H1 & H2 & H3 & H4).
  split; [exact H1|]. split; [exact H2|]. split; [lia|].
  destruct H4 as [H4|[H4 H5]]; [left|right; split; [exact H4|]]; lia.
Qed.

Lemma round_54_spec (s : bool) (n d q r a : Z) (l : location) :
  0 < d -> 2 <= a <= 1075 ->
  n * 2 ^ a = d * q + r -> 0 <= r < d -> loc_ok l r d ->
  2 ^ 53 <= q < 2 ^ 54 ->
  exists m a',
    binary_round_aux Num.prec Num.emax s q (- a) l = S754_finite s m (- a')
    /\ rounds_to n d m a'.
Proof.
  intros Hd Ha Hdiv Hr Hl Hq.
  rewrite binary_round_aux_54 by lia.
  replace (- a + 1) with (- (a - 1)) by lia.
  pose proof (Z.div_mod q 2 ltac:(lia)) as Hq2.
  pose proof (Z.mod_pos_bound q 2 ltac:(lia)) as Hb.
  assert (Hp : 2 ^ a = 2 * 2 ^ (a - 1)).
  { rewrite <- Z.pow_succ_r by lia. f_equal. lia. }
  destruct (round_53_spec s (2 * n) (2 * d) (q / 2) (q mod 2 * d + r) (a - 1)
              (loc_of_shr_record (shr_1 (shr_record_of_loc q l))))
    as (m & a' & E & H).
  - lia.
  - lia.
  - nia.
  - nia.
  - apply loc_ok_shr_1; [lia|exact Hr|exact Hl].
  - split; [apply Z.div_le_lower_bound|apply Z.div_lt_upper_bound]; lia.
  - exists m, a'. split; [exact E|apply rounds_to_halve; exact H].
Qed.

Lemma of_ratio_spec (s : bool) (n d : Z) :
  0 < n -> 0 < d -> n < d * 2 ^ 52 -> d <= n * 2 ^ 1000 ->
  exists m a,
    Num.of_ratio s n d = S754_finite s m (- a) /\ rounds_to n d m a.
Proof.
  intros Hn Hd Hu Hl.
  pose proof (Zdigits2_bounds n Hn) as Bn.
  pose proof (Zdigits2_bounds d Hd) as Bd.
  set (dn := Zdigits2 n) in *. set (dd := Zdigits2 d) in *.
  assert (Hdn : 0 < dn) by (subst dn; destruct n; cbn; lia).
  assert (Hdd : 0 < dd) by (subst dd; destruct d; cbn; lia).
  assert (Hg1 : dn - dd <= 52).
  { destruct (Z_lt_le_dec 52 (dn - dd)) as [Hc|]; [exfalso|lia].
    assert (2 ^ (dd + 52) <= 2 ^ (dn - 1)) by (apply Z.pow_le_mono_r; lia).
    rewrite Z.pow_add_r in H by lia. nia. }
  assert (Hg2 : -1001 <= dn - dd).
  { destruct (Z_lt_le_dec (dn - dd) (-1001)) as [Hc|]; [exfalso|lia].
    assert (2 ^ (dn + 1000) <= 2 ^ (dd - 1)) by (apply Z.pow_le_mono_r; lia).
    rewrite Z.pow_add_r in H by lia. nia. }
  set (a := 53 - (dn - dd)).
  assert (Ha : 1 <= a <= 1054) by (subst a; lia).
  assert (Hcore : SFdiv_core_binary Num.prec Num.emax n 0 d 0
                  = (n * 2 ^ a / d, - a, new_location d (n * 2 ^ a mod d))).
  { unfold SFdiv_core_binary. fold dn dd.
    replace (dn + 0 - (dd + 0)) with (dn - dd) by lia.
    rewrite fexp_normal by lia.
    replace (Z.min (dn - dd - 53) (0 - 0)) with (- a) by (subst a; lia).
    replace (0 - 0 - - a) with a by lia.
    destruct a as [|pa|pa] eqn:Ea; try lia.
    rewrite Z.shiftl_mul_pow2 by lia.
    unfold Z.div, Z.modulo.
    destruct (Z.div_eucl (n * 2 ^ Z.pos pa) d) as [q r]. reflexivity. }
  unfold Num.of_ratio. destruct n as [|pn|pn]; try lia.
  rewrite Hcore.
  set (X := Zpos pn * 2 ^ a) in *.
  pose proof (Z.div_mod X d ltac:(lia)) as Hdiv.
  pose proof (Z.mod_pos_bound X d Hd) as Hr.
  pose proof (new_location_ok d (X mod d) Hr) as Hloc.
  assert (Hq : 2 ^ 52 <= X / d < 2 ^ 54).
  { assert (E1 : 2 ^ (dn - 1) * 2 ^ a = 2 ^ 52 * 2 ^ dd).
    { rewrite <- !Z.pow_add_r by lia. f_equal. subst a. lia. }
    assert (E2 : 2 ^ dn * 2 ^ a = 2 ^ 54 * 2 ^ (dd - 1)).
    { rewrite <- !Z.pow_add_r by lia. f_equal. subst a. lia. }
    assert (P : 0 < 2 ^ a) by (apply Z.pow_pos_nonneg; lia).
    split.
    - apply Z.div_le_lower_bound; [lia|]. subst X. nia.
    - apply Z.div_lt_upper_bound; [lia|]. subst X. nia. }
  destruct (Z_lt_le_dec (X / d) (2 ^ 53)) as [H53|H54].
  - apply (round_53_spec s (Zpos pn) d (X / d) (X mod d) a);
      try assumption; try lia.
  - assert (Ha2 : 2 <= a).
    { destruct (Z.eq_dec a 1) as [E|]; [exfalso|lia].
      subst X. rewrite E in *. change (2 ^ 1) with 2 in *. nia. }
    apply (round_54_spec s (Zpos pn) d (X / d) (X mod d) a);
      try assumption; try lia.
Qed.

(** ** Digit strings *)

Local Open Scope string_scope.
Local Open Scope Z_scope.

Lemma digit_cases (d : Z) :
  0 <= d <= 9 ->
  d = 0 \/ d = 1 \/ d = 2 \/ d = 3 \/ d = 4 \/ d = 5 \/ d = 6 \/ d = 7
  \/ d = 8 \/ d = 9.
Proof. lia. Qed.

Lemma digit_char_facts (d : Z) :
  0 <= d <= 9 ->
  Digits.is_digit (Digits.digit_char d) = true
  /\ Digits.digit_val (Digits.digit_char d) = d
  /\ (0 < d -> Digits.digit_char d <> "0"%char).
Proof.
  intros H. destruct (digit_cases d H) as [E|[E|[E|[E|[E|[E|[E|[E|[E|E]]]]]]]]];
    subst d; (split; [reflexivity|split; [reflexivity|]]);
    intros H0; try lia; discriminate.
Qed.

Lemma append_nil_r (s : string) : s ++ "" = s.
Proof. induction s as [|c s IH]; cbn; [reflexivity|rewrite IH; reflexivity]. Qed.

Lemma append_assoc (a b c : string) : (a ++ b) ++ c = a ++ (b ++ c).
Proof. induction a as [|x a IH]; cbn; [reflexivity|rewrite IH; reflexivity]. Qed.

Lemma len_append (a b : string) : len (a ++ b) = len a + len b.
Proof.
  unfold len. induction a as [|x a IH]; cbn [String.append String.length].
  - lia.
  - rewrite !Nat2Z.inj_succ. lia.
Qed.

Lemma len_nonneg (s : string) : 0 <= len s.
Proof. unfold len. lia. Qed.

Lemma all_digits_app (a b : string) :
  all_digits (a ++ b) = all_digits a && all_digits b.
Proof.
  induction a as [|x a IH]; cbn; [reflexivity|].
  rewrite IH, andb_assoc. reflexivity.
Qed.

Lemma take_app (ds rest : string) :
  all_digits ds = true -> starts_plain rest ->
  Digits.take (ds ++ rest) = (ds, rest).
Proof.
  intros Hd Hr. induction ds as [|c ds IH]; cbn [String.append].
  - destruct rest as [|c r]; [reflexivity|]. cbn in Hr |- *.
    rewrite Hr. reflexivity.
  - cbn in Hd. apply andb_true_iff in Hd as [Hc Hd].
    cbn [Digits.take]. rewrite Hc, (IH Hd). reflexivity.
Qed.

Lemma value_acc_app (a b : string) (v : Z) :
  Digits.value_acc (a ++ b) v = Digits.value_acc b (Digits.value_acc a v).
Proof.
  revert v. induction a as [|x a IH]; intros v; cbn; [reflexivity|].
  apply IH.
Qed.

Lemma value_acc_zeros (k : nat) (v : Z) :
  Digits.value_acc (Digits.zeros k) v = v * 10 ^ Z.of_nat k.
Proof.
  revert v. induction k as [|k IH]; intros v.
  - cbn. lia.
  - cbn [Digits.zeros Digits.value_acc]. rewrite IH.
    change (Digits.digit_val "0") with 0.
    rewrite Nat2Z.inj_succ, Z.pow_succ_r by lia. lia.
Qed.

Lemma all_digits_zeros (k : nat) : all_digits (Digits.zeros k) = true.
Proof. induction k as [|k IH]; [reflexivity|exact IH]. Qed.

Lemma len_zeros (k : nat) : len (Digits.zeros k) = Z.of_nat k.
Proof.
  unfold len. induction k as [|k IH]; [reflexivity|].
  cbn [Digits.zeros String.length]. rewrite !Nat2Z.inj_succ. lia.
Qed.

Lemma render_fuel_spec (fuel : nat) :
  forall n acc,
    0 <= n < 10 ^ (Z.of_nat fuel + 1) ->
    exists ds, Digits.render_fuel fuel n acc = ds ++ acc /\ digits_of n ds.
Proof.
  assert (Hone : forall n acc, 0 <= n < 10 ->
            exists ds,
              String (Digits.digit_char (n mod 10)) acc = ds ++ acc
              /\ digits_of n ds).
  { intros n acc Hn. exists (String (Digits.digit_char n) "").
    rewrite Z.mod_small by lia. split; [reflexivity|].
    destruct (digit_char_facts n ltac:(lia)) as (F1 & F2 & F3).
    unfold digits_of, len. cbn [all_digits String.length Digits.value_acc].
    rewrite F1, F2. change (Z.of_nat 1) with 1. cbn [Z.sub Z.pow].
    repeat split; try lia.
    intros H. exists (Digits.digit_char n), "". split; [reflexivity|].
    apply F3. exact H. }
  induction fuel as [|fuel IH]; intros n acc Hn.
  - cbn [Digits.render_fuel]. apply Hone. cbn in Hn. lia.
  - cbn [Digits.render_fuel].
    destruct (Z.ltb_spec n 10) as [Hlt|Hge]; [apply Hone; lia|].
    assert (Hq : 0 <= n / 10 < 10 ^ (Z.of_nat fuel + 1)).
    { split; [apply Z.div_pos; lia|].
      apply Z.div_lt_upper_bound; [lia|].
      rewrite <- Z.pow_succ_r by lia.
      replace (Z.succ (Z.of_nat fuel + 1))
        with (Z.of_nat (Datatypes.S fuel) + 1) by lia.
      lia. }
    destruct (IH (n / 10) (String (Digits.digit_char (n mod 10)) acc) Hq)
      as (ds & E & Hall & Hval & Hlen & Hub & Hlb & Hfst).
    exists (ds ++ String (Digits.digit_char (n mod 10)) "").
    rewrite E, append_assoc. split; [reflexivity|].
    pose proof (Z.mod_pos_bound n 10 ltac:(lia)) as Hm.
    pose proof (Z.div_mod n 10 ltac:(lia)) as Hdm.
    destruct (digit_char_facts (n mod 10) ltac:(lia)) as (F1 & F2 & _).
    assert (Hl : len (ds ++ String (Digits.digit_char (n mod 10)) "")
                 = len ds + 1).
    { rewrite len_append. reflexivity. }
    assert (Hpow : 10 ^ (len ds + 1) = 10 * 10 ^ len ds).
    { rewrite <- Z.pow_succ_r by lia. reflexivity. }
    unfold digits_of. rewrite Hl, Hpow.
    split; [rewrite all_digits_app, Hall; cbn [all_digits]; rewrite F1;
            reflexivity|].
    split.
    { intros v. rewrite value_acc_app, Hval.
      cbn [Digits.value_acc]. rewrite F2. lia. }
    split; [lia|]. split; [lia|]. split.
    { intros _. replace (len ds + 1 - 1) with (Z.succ (len ds - 1)) by lia.
      rewrite Z.pow_succ_r by lia.
      assert (0 < n / 10) by (apply Z.div_str_pos; lia).
      specialize (Hlb H). lia. }
    intros _.
    assert (H : 0 < n / 10) by (apply Z.div_str_pos; lia).
    destruct (Hfst H) as (c & r & -> & Hc).
    exists c, (r ++ String (Digits.digit_char (n mod 10)) "").
    split; [reflexivity|exact Hc].
Qed.

Lemma render_spec (n : Z) : 0 <= n -> digits_of n (Digits.render n).
Proof.
  intros Hn. unfold Digits.render.
  destruct (render_fuel_spec (Z.to_nat (Z.log2 n)) n "") as (ds & E & H).
  - split; [exact Hn|].
    destruct (Z.eq_dec n 0) as [->|Hne]; [cbn; lia|].
    pose proof (Z.log2_spec n ltac:(lia)) as [_ Hu].
    pose proof (Z.log2_nonneg n) as Hl.
    rewrite Z2Nat.id by exact Hl.
    assert (2 ^ (Z.log2 n + 1) <= 10 ^ (Z.log2 n + 1))
      by (apply Z.pow_le_mono_l; lia).
    replace (Z.succ (Z.log2 n)) with (Z.log2 n + 1) in Hu by lia. lia.
  - rewrite E, append_nil_r. exact H.
Qed.


Local Open Scope list_scope.
Local Open Scope Z_scope.

(** ** clamp *)

Lemma min_step_infinity_l (x : spec_float) :
  Num.is_nan x = false -> min_step Num.Infinity x = x.
Proof.
  destruct x as [[|]|[|]| |[|] m e]; intros H; try discriminate; reflexivity.
Qed.

Lemma min_step_infinity_r (x : spec_float) :
  Num.is_nan x = false -> min_step x Num.Infinity = x.
Proof.
  destruct x as [[|]|[|]| |[|] m e]; intros H; try discriminate; reflexivity.
Qed.

Lemma max_step_neg_infinity_l (x : spec_float) :
  Num.is_nan x = false -> max_step Num.NegInfinity x = x.
Proof.
  destruct x as [[|]|[|]| |[|] m e]; intros H; try discriminate; reflexivity.
Qed.

Lemma max_step_neg_infinity_r (x : spec_float) :
  Num.is_nan x = false -> max_step x Num.NegInfinity = x.
Proof.
  destruct x as [[|]|[|]| |[|] m e]; intros H; try discriminate; reflexivity.
Qed.

Lemma math_min_infinity (x : spec_float) :
  math_min [VNumber x; VNumber Num.Infinity] = x.
Proof.
  unfold math_min. cbn [map to_number existsb fold_left].
  destruct (Num.is_nan x) eqn:Hx.
  - destruct x; try discriminate; reflexivity.
  - cbn [Num.is_nan Num.Infinity orb].
    rewrite (min_step_infinity_l x Hx). apply (min_step_infinity_r x Hx).
Qed.

Lemma math_max_neg_infinity (x : spec_float) :
  math_max [VNumber x; VNumber Num.NegInfinity] = x.
Proof.
  unfold math_max. cbn [map to_number existsb fold_left].
  destruct (Num.is_nan x) eqn:Hx.
  - destruct x; try discriminate; reflexivity.
  - cbn [Num.is_nan Num.NegInfinity orb].
    rewrite (max_step_neg_infinity_l x Hx).
    apply (max_step_neg_infinity_r x Hx).
Qed.

Lemma math_min_nan (v : Value) : math_min [VNumber Num.NaN; v] = Num.NaN.
Proof. reflexivity. Qed.

Lemma math_max_nan (v : Value) : math_max [VNumber Num.NaN; v] = Num.NaN.
Proof. reflexivity. Qed.

Lemma clamp_absent (value min max : Value) :
  absent_or_empty value -> clamp value min max = VNull.
Proof.
  intros [-> | [-> | ->]]; reflexivity.
Qed.

Lemma clamp_number (x : spec_float) (min max : Value) :
  clamp (VNumber x) min max =
  VNumber
    (math_max
       [VNumber (math_min [VNumber x; effective (VNumber Num.Infinity) max]);
        effective (VNumber Num.NegInfinity) min]).
Proof. reflexivity. Qed.

(** C1. For a number [x], [clamp(x, min, max)] is
    [Math.max(Math.min(x, max'), min')], where [max'] is [max], or
    [Infinity] when [max] is null or undefined, and [min'] is [min], or
    [-Infinity] when [min] is null or undefined.  For a null, undefined or
    empty-string value and any [min] and [max], the result is [null], which
    is neither [===] nor [==] to zero. *)
Theorem clamp_contract (value min max : Value) :
  (forall x, value = VNumber x ->
     clamp value min max =
     VNumber
       (math_max
          [VNumber
             (math_min [VNumber x; effective (VNumber Num.Infinity) max]);
           effective (VNumber Num.NegInfinity) min]))
  /\ (absent_or_empty value ->
      clamp value min max = VNull
      /\ forall s,
           strict_equal (clamp value min max) (VNumber (S754_zero s)) = false
           /\ loose_equal (clamp value min max) (VNumber (S754_zero s))
              = false).
Proof.
  split.
  - intros x ->. apply clamp_number.
  - intros H. rewrite (clamp_absent _ _ _ H). split; [reflexivity|].
    intros s. split; reflexivity.
Qed.

Lemma clamp_contract_witness :
  clamp (number 11) (number 0) (number 10) = number 10
  /\ clamp (number (-3)) (number 0) VUndefined = number 0
  /\ clamp (VString "") (number 0) (number 10) = VNull.
Proof.
  split; [|split].
  - rewrite (proj1 (clamp_contract (number 11) (number 0) (number 10))
               (Num.of_Z 11) eq_refl).
    vm_compute. reflexivity.
  - rewrite (proj1 (clamp_contract (number (-3)) (number 0) VUndefined)
               (Num.of_Z (-3)) eq_refl).
    vm_compute. reflexivity.
  - apply (proj2 (clamp_contract (VString "") (number 0) (number 10))).
    right; right; reflexivity.
Defined.

(** C8, as stated, fails: with both bounds infinite the empty string is
    turned into [null], and [null == ''] is false. *)
Lemma clamp_unbounded_empty_string :
  clamp (VString "") (VNumber Num.NegInfinity) (VNumber Num.Infinity) = VNull
  /\ loose_equal
       (clamp (VString "") (VNumber Num.NegInfinity) (VNumber Num.Infinity))
       (VString "") = false.
Proof. split; reflexivity. Qed.

(** C8, amended. With both bounds infinite (or null, or undefined), [clamp]
    returns every number unchanged, NaN, the zeros and the infinities
    included; it returns [null] for [null], [undefined] and the empty
    string. *)
Theorem clamp_unbounded (x : spec_float) :
  clamp (VNumber x) (VNumber Num.NegInfinity) (VNumber Num.Infinity)
  = VNumber x
  /\ clamp (VNumber x) VNull VNull = VNumber x
  /\ clamp (VNumber x) VUndefined VUndefined = VNumber x
  /\ clamp VNull (VNumber Num.NegInfinity) (VNumber Num.Infinity) = VNull
  /\ clamp VUndefined (VNumber Num.NegInfinity) (VNumber Num.Infinity)
     = VNull
  /\ clamp (VString "") (VNumber Num.NegInfinity) (VNumber Num.Infinity)
     = VNull.
Proof.
  assert (H : VNumber
                (math_max
                   [VNumber (math_min [VNumber x; VNumber Num.Infinity]);
                    VNumber Num.NegInfinity]) = VNumber x).
  { rewrite math_min_infinity, math_max_neg_infinity. reflexivity. }
  repeat split; try reflexivity; rewrite clamp_number; exact H.
Qed.

(** ** The handlers *)

Section HandlerFacts.

Variable format_precision : Props.t -> Value.
Variable editable : Props.t -> bool.

(** C9. [handleChange] calls [notify(onChange, ...)] exactly when the
    clamped value is not [===] to the [value] prop: if it is, nothing
    happens; if it is not, exactly one notice is added, carrying the
    clamped value (with the raw value, the last value and the event). *)
Theorem handleChange_notifies
  (rawValue : Value) (originalEvent : option Event) (w : NumberPicker) :
  let lastValue := Props.value (this_props w) in
  let nextValue :=
    clamp rawValue (Props.min (this_props w)) (Props.max (this_props w)) in
  (strict_equal lastValue nextValue = true ->
   handleChange rawValue originalEvent w = (Returned tt, w))
  /\ (strict_equal lastValue nextValue = false ->
      handleChange rawValue originalEvent w =
      (Returned tt,
       log (OnChange nextValue rawValue lastValue originalEvent) w)
      /\ notified
           (state
              (log (OnChange nextValue rawValue lastValue originalEvent) w))
         = notified (state w)
           ++ [OnChange nextValue rawValue lastValue originalEvent]).
Proof.
  cbv zeta. unfold handleChange. split; intros H; rewrite H; cbn [negb].
  - reflexivity.
  - split; reflexivity.
Qed.

Lemma handleChange_notifies_witness :
  notified
    (state
       (snd (handleChange (number 11) None (mount (ranged (number 9) VUndefined)))))
  = [OnChange (number 10) (number 11) (number 9) None]
  /\ snd (handleChange (number 11) None (mount (ranged (number 10) VUndefined)))
     = mount (ranged (number 10) VUndefined).
Proof.
  split.
  - destruct (handleChange_notifies (number 11) None
                (mount (ranged (number 9) VUndefined))) as [_ H].
    destruct H as [H _]; [vm_compute; reflexivity|].
    rewrite H. vm_compute. reflexivity.
  - destruct (handleChange_notifies (number 11) None
                (mount (ranged (number 10) VUndefined))) as [H _].
    rewrite H; [reflexivity | vm_compute; reflexivity].
Defined.

End HandlerFacts.

(** ** step, increment, decrement *)

Section StepFacts.

Variable format_precision : Props.t -> Value.

(** The precision [step] works with. *)
Lemma step_without_precision
  (amount : Value) (event : option Event) (w : NumberPicker) :
  is_nullish (Props.precision (this_props w)) = true ->
  is_nullish (format_precision (this_props w)) = true ->
  step format_precision amount event w =
  bind
    (handleChange
       (plus (or_else (Props.value (this_props w)) (VNumber Num.zero)) amount)
       event)
    (fun _ =>
       ret (plus (or_else (Props.value (this_props w)) (VNumber Num.zero))
              amount)) w.
Proof.
  intros Hp Hf. unfold step. rewrite Hp. cbn [negb]. rewrite Hf.
  reflexivity.
Qed.

Lemma handleChange_returns
  (rawValue : Value) (event : option Event) (w : NumberPicker) :
  fst (handleChange rawValue event w) = Returned tt.
Proof.
  unfold handleChange.
  destruct (negb (strict_equal _ _)); reflexivity.
Qed.

Lemma step_returns_sum
  (amount : Value) (event : option Event) (w : NumberPicker) (v : Value) :
  fst (step format_precision amount event w) = Returned v ->
  v = plus (or_else (Props.value (this_props w)) (VNumber Num.zero)) amount.
Proof.
  unfold step.
  destruct (if negb (is_nullish _) then round _ _ else Normal _)
    as [raw|e]; [|discriminate].
  unfold bind.
  pose proof (handleChange_returns
                raw event w) as H.
  destruct (handleChange raw event w) as [[[]|e] w']; cbn in H |- *;
    [|discriminate].
  intros Hv. injection Hv as <-. reflexivity.
Qed.

End StepFacts.

(** ** NaN and exceptions *)

Lemma string_to_number_N (r : string) :
  string_to_number (String "N" r) = Num.NaN.
Proof.
  unfold string_to_number, trim.
  change (trim_left (String "N" r)) with (String "N" r).
  assert (H : exists r', trim_right (String "N" r) = String "N" r').
  { cbn [trim_right]. destruct (trim_right r); eexists; reflexivity. }
  destruct H as [r' ->]. destruct r' as [|c [|d r']]; reflexivity.
Qed.

Lemma to_fixed_accepted (x : spec_float) (d : Value) (f : Z) :
  to_integer_or_infinity (to_number d) = Some f -> 0 <= f <= 100 ->
  exists s, to_fixed x d = Normal s.
Proof.
  intros Hf Hr. unfold to_fixed. rewrite Hf.
  replace ((f <? 0) || (100 <? f)) with false
    by (symmetry; apply orb_false_iff; split;
        [apply Z.ltb_ge | apply Z.ltb_ge]; lia).
  destruct x as [s|s| |s m e]; try (eexists; reflexivity).
  destruct (Num.ratio_of m e) as [N D]. eexists; reflexivity.
Qed.

Lemma to_fixed_rejected (x : spec_float) (d : Value) (f : Z) :
  to_integer_or_infinity (to_number d) = Some f -> f < 0 \/ 100 < f ->
  to_fixed x d = Throw RangeError.
Proof.
  intros Hf Hr. unfold to_fixed. rewrite Hf.
  replace ((f <? 0) || (100 <? f)) with true; [reflexivity|].
  symmetry. apply orb_true_iff.
  destruct Hr; [left|right]; apply Z.ltb_lt; assumption.
Qed.

Lemma round_accepted (value precision : Value) :
  accepted_digits precision ->
  exists s, round value precision = Normal (VString s).
Proof.
  intros (f & Hf & Hr). unfold round.
  match goal with
  | |- context [to_fixed ?x ?d] =>
      destruct (to_fixed_accepted x d f Hf Hr) as [s ->]
  end.
  eexists; reflexivity.
Qed.

Lemma round_nan (precision : Value) :
  accepted_digits precision ->
  round (VNumber Num.NaN) precision = Normal (VString "NaN").
Proof.
  intros (f & Hf & Hr). unfold round.
  change (split "e" (to_string (plus (VString "") (VNumber Num.NaN))))
    with ["NaN"%string].
  cbn [index nth_error truthy].
  set (p := or_else precision (VNumber Num.zero)) in *.
  assert (H1 : to_number (plus (plus (VString "NaN") (VString "e")) p)
               = Num.NaN).
  { change (plus (VString "NaN") (VString "e")) with (VString "NaNe").
    cbn [plus to_number]. apply string_to_number_N. }
  rewrite H1. cbn [math_round Num.NaN].
  change (split "e" (to_string (plus (VString "") (VNumber Num.NaN))))
    with ["NaN"%string].
  cbn [index nth_error truthy].
  assert (H2 : to_number
                 (plus (plus (VString "NaN") (VString "e")) (negate p))
               = Num.NaN).
  { change (plus (VString "NaN") (VString "e")) with (VString "NaNe").
    cbn [plus to_number]. apply string_to_number_N. }
  rewrite H2. unfold to_fixed. rewrite Hf.
  replace ((f <? 0) || (100 <? f)) with false
    by (symmetry; apply orb_false_iff; split;
        [apply Z.ltb_ge | apply Z.ltb_ge]; lia).
  reflexivity.
Qed.

Lemma clamp_nan_text (min max : Value) :
  clamp (VString "NaN") min max = VNumber Num.NaN.
Proof. reflexivity. Qed.

Lemma clamp_nan (min max : Value) :
  clamp (VNumber Num.NaN) min max = VNumber Num.NaN.
Proof. reflexivity. Qed.

Lemma strict_equal_nan_r (v : Value) :
  strict_equal v (VNumber Num.NaN) = false.
Proof. destruct v as [| |x|s]; try reflexivity. destruct x; reflexivity. Qed.

Lemma plus_nan (v : Value) :
  is_string v = false ->
  plus v (VNumber Num.NaN) = VNumber Num.NaN.
Proof.
  destruct v as [| |x|s]; intros H; try discriminate; try reflexivity.
  cbn. unfold Num.add. destruct x; reflexivity.
Qed.

Section NaNFacts.

Variable format_precision : Props.t -> Value.

Lemma step_unfold
  (amount : Value) (event : option Event) (w : NumberPicker) :
  step format_precision amount event w =
  match
    (if negb (is_nullish (decimals format_precision (this_props w)))
     then
       round
         (plus (or_else (Props.value (this_props w)) (VNumber Num.zero))
            amount)
         (decimals format_precision (this_props w))
     else
       Normal
         (plus (or_else (Props.value (this_props w)) (VNumber Num.zero))
            amount))
  with
  | Throw e => throw e w
  | Normal raw =>
      bind (handleChange raw event)
        (fun _ =>
           ret (plus (or_else (Props.value (this_props w))
                        (VNumber Num.zero)) amount)) w
  end.
Proof. reflexivity. Qed.

Lemma handleChange_nan
  (raw : Value) (event : option Event) (w : NumberPicker) :
  clamp raw (Props.min (this_props w)) (Props.max (this_props w))
  = VNumber Num.NaN ->
  handleChange raw event w =
  (Returned tt,
   log (OnChange (VNumber Num.NaN) raw (Props.value (this_props w)) event)
     w).
Proof.
  intros H. unfold handleChange. rewrite H, strict_equal_nan_r.
  reflexivity.
Qed.

Lemma step_returns
  (amount : Value) (event : option Event) (w : NumberPicker) :
  is_nullish (decimals format_precision (this_props w)) = true
  \/ accepted_digits (decimals format_precision (this_props w)) ->
  exists v, fst (step format_precision amount event w) = Returned v.
Proof.
  intros H. rewrite step_unfold.
  destruct (is_nullish (decimals format_precision (this_props w))) eqn:Hd;
    cbn [negb].
  - unfold bind.
    match goal with
    | |- context [handleChange ?r event w] =>
        pose proof (handleChange_returns r event w) as Hc;
        destruct (handleChange r event w) as [[[]|e] w']
    end; [eexists; reflexivity|discriminate].
  - destruct H as [H|H]; [discriminate|].
    match goal with
    | |- context [round ?v ?d] =>
        destruct (round_accepted v d H) as [s ->]
    end.
    unfold bind.
    pose proof (handleChange_returns (VString s) event w) as Hc.
    destruct (handleChange (VString s) event w) as [[[]|e] w'];
      [eexists; reflexivity|discriminate].
Qed.

(** C7, as stated, fails twice: [step] replaces a NaN [value] prop by [0]
    (with step [1] it returns and reports [1]), and with a precision that
    [toFixed] rejects, such as [101], it throws a [RangeError]. *)
Lemma step_replaces_nan_and_may_throw :
  increment (fun _ => VNull) None (mount (Props.default (VNumber Num.NaN)))
  = (Returned (number 1),
     log (OnChange (number 1) (number 1) (VNumber Num.NaN) None)
       (mount (Props.default (VNumber Num.NaN))))
  /\ increment (fun _ => VNull) None
       (mount (ranged (number 5) (number 101)))
     = (Thrown RangeError, mount (ranged (number 5) (number 101))).
Proof. split; vm_compute; reflexivity. Qed.

(** C7, amended. [clamp] never throws and maps a NaN value to NaN whatever
    the bounds.  [step] returns without an exception when no precision is
    in effect or the one in effect is accepted by [toFixed] (integer part
    from 0 to 100).  A NaN amount then propagates: [step] returns NaN and
    reports NaN through [onChange], provided the [value] prop is not a
    string.  A NaN [value] prop does not propagate: it is replaced by [0]
    before the amount is added. *)
Theorem nan_and_exceptions (event : option Event) (w : NumberPicker) :
  (forall min max, clamp (VNumber Num.NaN) min max = VNumber Num.NaN)
  /\ (forall amount,
        is_nullish (decimals format_precision (this_props w)) = true
        \/ accepted_digits (decimals format_precision (this_props w)) ->
        exists v, fst (step format_precision amount event w) = Returned v)
  /\ (is_string (Props.value (this_props w)) = false ->
      is_nullish (decimals format_precision (this_props w)) = true
      \/ accepted_digits (decimals format_precision (this_props w)) ->
      exists raw,
        step format_precision (VNumber Num.NaN) event w =
        (Returned (VNumber Num.NaN),
         log (OnChange (VNumber Num.NaN) raw (Props.value (this_props w))
                event) w))
  /\ (Props.value (this_props w) = VNumber Num.NaN ->
      forall amount v,
        fst (step format_precision amount event w) = Returned v ->
        v = plus (VNumber Num.zero) amount).
Proof.
  split; [exact clamp_nan|]. split; [intros amount; apply step_returns|].
  split.
  - intros Hs H. rewrite step_unfold.
    assert (Hsum : plus (or_else (Props.value (this_props w))
                           (VNumber Num.zero)) (VNumber Num.NaN)
                   = VNumber Num.NaN).
    { apply plus_nan. unfold or_else.
      destruct (truthy (Props.value (this_props w)));
        [exact Hs|reflexivity]. }
    rewrite Hsum.
    destruct (is_nullish (decimals format_precision (this_props w)))
      eqn:Hd; cbn [negb].
    + exists (VNumber Num.NaN). unfold bind.
      rewrite (handleChange_nan _ _ _ (clamp_nan _ _)). reflexivity.
    + destruct H as [H|H]; [discriminate|].
      rewrite (round_nan _ H). exists (VString "NaN"). unfold bind.
      rewrite (handleChange_nan _ _ _ (clamp_nan_text _ _)). reflexivity.
  - intros Hv amount v Hr. apply step_returns_sum in Hr.
    rewrite Hv in Hr. exact Hr.
Qed.

End NaNFacts.

Lemma nan_and_exceptions_witness :
  (exists v,
     fst (step (fun _ => VNull) (number 1) None
            (mount (ranged (number 5) (number 2)))) = Returned v)
  /\ (exists raw,
        step (fun _ => VNull) (VNumber Num.NaN) None
          (mount (ranged (number 5) (number 2)))
        = (Returned (VNumber Num.NaN),
           log (OnChange (VNumber Num.NaN) raw (number 5) None)
             (mount (ranged (number 5) (number 2)))))
  /\ (forall v,
        fst (step (fun _ => VNull) (number 1) None
               (mount (ranged (VNumber Num.NaN) VUndefined))) = Returned v ->
        v = plus (VNumber Num.zero) (number 1)).
Proof.
  assert (Ha : accepted_digits
                 (decimals (fun _ => VNull)
                    (this_props (mount (ranged (number 5) (number 2)))))).
  { exists 2. split; [vm_compute; reflexivity|lia]. }
  split; [|split].
  - apply (proj1 (proj2 (nan_and_exceptions (fun _ => VNull) None
                           (mount (ranged (number 5) (number 2)))))).
    right. exact Ha.
  - apply (proj1 (proj2 (proj2 (nan_and_exceptions (fun _ => VNull) None
                           (mount (ranged (number 5) (number 2))))))).
    + reflexivity.
    + right. exact Ha.
  - intros v.
    apply (proj2 (proj2 (proj2 (nan_and_exceptions (fun _ => VNull) None
                           (mount (ranged (VNumber Num.NaN) VUndefined)))))).
    reflexivity.
Defined.

(** ** Timers *)

Section TimerFacts.

Context {S Callback : Type}.
Variable run : Callback -> @Action S Callback unit.

Lemma nth_error_set_id (k : nat) (i : Z) (l : list (Interval Callback))
  (iv : Interval Callback) :
  nth_error l k = Some iv ->
  nth_error (set_id k i l) k = Some {| id := i; callback := callback iv |}.
Proof.
  revert k. induction l as [|a l IH]; intros [|k] H; try discriminate.
  - injection H as ->. reflexivity.
  - cbn in H |- *. apply IH. exact H.
Qed.

Lemma with_queue_same (w : World S Callback) : with_queue (queue w) w = w.
Proof. destruct w; reflexivity. Qed.



Lemma cancel_idle (k : nat) (w : World S Callback) :
  queue w = [] -> cancel k w = w.
Proof.
  intros H. unfold cancel. destruct (nth_error (intervals w) k); [|reflexivity].
  unfold clearTimeout. rewrite H. cbn. rewrite <- H. apply with_queue_same.
Qed.

Lemma cancel_single (k k' : nat) (i t : Z) (cb : Callback)
  (w : World S Callback) :
  queue w = [{| tid := i; due := t; fn := k' |}] ->
  nth_error (intervals w) k = Some {| id := i; callback := cb |} ->
  queue (cancel k w) = [].
Proof.
  intros Hq Hi. unfold cancel. rewrite Hi. cbn.
  rewrite Hq. cbn. rewrite Z.eqb_refl. reflexivity.
Qed.

Lemma cancel_armed (k : nat) (cb : Callback) (t : Z) (w : World S Callback) :
  armed k cb t w -> queue (cancel k w) = [].
Proof.
  intros (i & Hq & Hi & _). apply (cancel_single k k i t cb w Hq Hi).
Qed.

Lemma cancel_frame (k : nat) (w : World S Callback) :
  state (cancel k w) = state w /\ intervals (cancel k w) = intervals w
  /\ now (cancel k w) = now w /\ next_id (cancel k w) = next_id w.
Proof.
  unfold cancel. destruct (nth_error (intervals w) k); repeat split.
Qed.

Lemma fire_next_idle (w : World S Callback) :
  queue w = [] -> fire_next run w = None.
Proof. intros H. unfold fire_next. rewrite H. reflexivity. Qed.


Lemma createInterval_armed (cb : Callback) (w : World S Callback) :
  queue w = [] ->
  fst (createInterval cb w) = List.length (intervals w)
  /\ armed (List.length (intervals w)) cb (now w + 500)
       (snd (createInterval cb w))
  /\ state (snd (createInterval cb w)) = state w
  /\ now (snd (createInterval cb w)) = now w.
Proof.
  intros H. unfold createInterval. cbn. rewrite H. cbn.
  repeat split. exists (next_id w). cbn. repeat split.
  - rewrite nth_error_app2 by lia. rewrite Nat.sub_diag. reflexivity.
  - lia.
Qed.

Lemma fire_single (k : nat) (cb : Callback) (i t : Z)
  (w : World S Callback) :
  queue w = [{| tid := i; due := t; fn := k |}] ->
  nth_error (intervals w) k = Some {| id := i; callback := cb |} ->
  fire_next run w = Some (snd (run cb (rearmed k (Z.max (now w) t) w))).
Proof.
  intros Hq Hi. unfold fire_next. rewrite Hq. cbn [earliest tid due fn].
  unfold tick. cbn. rewrite Hq, Hi. cbn. rewrite Z.eqb_refl. reflexivity.
Qed.

Lemma fire_armed (k : nat) (cb : Callback) (t : Z) (w : World S Callback) :
  armed k cb t w ->
  fire_next run w = Some (snd (run cb (rearmed k t w)))
  /\ armed k cb (t + 35) (rearmed k t w).
Proof.
  intros (i & Hq & Hi & Hn). split.
  - rewrite (fire_single k cb i t w Hq Hi). rewrite Z.max_r by exact Hn.
    reflexivity.
  - exists (next_id w). cbn. repeat split.
    + apply (nth_error_set_id k (next_id w) _ _ Hi).
    + lia.
Qed.

Lemma armed_transport (k : nat) (cb : Callback) (t : Z)
  (w w' : World S Callback) :
  armed k cb t w -> queue w' = queue w -> intervals w' = intervals w ->
  now w' = now w -> armed k cb t w'.
Proof.
  intros (i & Hq & Hi & Hn) E1 E2 E3. exists i.
  rewrite E1, E2, E3. repeat split; assumption.
Qed.

Lemma fire_n_armed (k : nat) (cb : Callback) :
  leaves_timers (run cb) ->
  forall n t (w : World S Callback),
    armed k cb t w ->
    exists w',
      fire_n run n w = Some w'
      /\ armed k cb (t + 35 * Z.of_nat n) w'
      /\ (n <> O -> now w' = t + 35 * (Z.of_nat n - 1)).
Proof.
  intros Hrun. induction n as [|n IH]; intros t w Ha.
  - exists w. split; [reflexivity|]. split; [|congruence].
    replace (t + 35 * Z.of_nat 0) with t by lia. exact Ha.
  - destruct (fire_armed k cb t w Ha) as [Hf Ha'].
    destruct (Hrun (rearmed k t w)) as (E1 & E2 & E3 & E4).
    assert (Ha'' : armed k cb (t + 35) (snd (run cb (rearmed k t w)))).
    { apply (armed_transport _ _ _ _ _ Ha'); assumption. }
    destruct (IH (t + 35) _ Ha'') as (w' & Hw' & Hw'a & Hw'n).
    exists w'. split; [|split].
    + cbn [fire_n]. rewrite Hf. exact Hw'.
    + replace (t + 35 * Z.of_nat (Datatypes.S n))
        with (t + 35 + 35 * Z.of_nat n) by lia. exact Hw'a.
    + intros _. destruct n as [|n].
      * cbn in Hw'. injection Hw' as <-. rewrite E1. cbn. lia.
      * rewrite Hw'n by congruence. lia.
Qed.

End TimerFacts.

Section CancelFacts.

Context {S Callback : Type}.
Variable run : Callback -> @Action S Callback unit.



End CancelFacts.

(** C3. On a host with no other timer queued, [createInterval(callback)]
    queues one call, due 500ms later.  When the timer of an armed interval
    fires at its due time [t], the callback runs once, in a world where the
    next call is already queued for [t + 35].  If the callback leaves the
    timers alone, the firings go on for ever: for every [n] the host can
    run [n] of them, the [n]-th at 500 + 35 (n - 1) ms after the start, and
    the next one is queued 35ms later.  If the callback calls the cancel
    handle, that call removes the tick queued just before it ran, and
    nothing fires again. *)
Theorem createInterval_schedule {S Callback : Type}
  (run : Callback -> @Action S Callback unit) (cb : Callback)
  (w : World S Callback) :
  queue w = [] ->
  let k := fst (createInterval cb w) in
  let w1 := snd (createInterval cb w) in
  queue w1 = [{| tid := next_id w; due := now w + 500; fn := k |}]
  /\ (forall t w',
        armed k cb t w' ->
        fire_next run w' = Some (snd (run cb (rearmed k t w')))
        /\ now (rearmed k t w') = t
        /\ queue (rearmed k t w')
           = [{| tid := next_id w'; due := t + 35; fn := k |}])
  /\ (leaves_timers (run cb) ->
      forall n,
        exists wn,
          fire_n run n w1 = Some wn
          /\ armed k cb (now w + 500 + 35 * Z.of_nat n) wn
          /\ (n <> O -> now wn = now w + 500 + 35 * (Z.of_nat n - 1)))
  /\ ((forall w', run cb w' = (Returned tt, cancel k w')) ->
      exists w2,
        fire_next run w1 = Some w2
        /\ now w2 = now w + 500
        /\ queue w2 = []
        /\ fire_next run w2 = None).
Proof.
  intros Hq. cbv zeta.
  destruct (createInterval_armed cb w Hq) as (Hk & Ha & Hs & Hn).
  rewrite Hk. split; [|split; [|split]].
  - unfold createInterval. cbn. rewrite Hq. reflexivity.
  - intros t w' Ha'. destruct (fire_armed run _ cb t w' Ha') as [Hf _].
    split; [exact Hf|]. split; reflexivity.
  - intros Hrun n. apply (fire_n_armed run _ cb Hrun n _ _ Ha).
  - intros Hrun.
    destruct (fire_armed run _ cb _ _ Ha) as [Hf Ha'].
    exists (snd (run cb (rearmed (List.length (intervals w)) (now w + 500)
                           (snd (createInterval cb w))))).
    split; [exact Hf|]. rewrite Hrun. cbn [snd].
    split; [apply cancel_frame|].
    pose proof (cancel_armed _ cb _ _ Ha') as Hc.
    split; [exact Hc|]. apply fire_next_idle. exact Hc.
Qed.

Lemma createInterval_schedule_witness :
  queue (snd (createInterval tt idle_host))
  = [{| tid := 1; due := 500; fn := O |}]
  /\ exists wn,
       fire_n counting 3 (snd (createInterval tt idle_host)) = Some wn
       /\ now wn = 570.
Proof.
  destruct (createInterval_schedule counting tt idle_host eq_refl)
    as (H1 & _ & H3 & _).
  split; [exact H1|].
  destruct (H3 ltac:(intros w; repeat split) 3%nat) as (wn & Hf & _ & Hn).
  exists wn. split; [exact Hf|]. rewrite Hn by discriminate. reflexivity.
Defined.

(** ** The repeater of the component *)

Section RepeaterFacts.

Variable format_precision : Props.t -> Value.
Variable editable : Props.t -> bool.

Lemma same_timers_refl (w : NumberPicker) : same_timers w w.
Proof. repeat split. Qed.

Lemma same_timers_log (n : Notice) (w : NumberPicker) :
  same_timers w (log n w).
Proof. repeat split. Qed.

Lemma same_timers_trans (w1 w2 w3 : NumberPicker) :
  same_timers w1 w2 -> same_timers w2 w3 -> same_timers w1 w3.
Proof.
  intros (A1 & A2 & A3 & A4 & A5 & A6) (B1 & B2 & B3 & B4 & B5 & B6).
  repeat split; congruence.
Qed.

Lemma one_timer_transport (w w' : NumberPicker) :
  same_timers w w' -> one_timer w -> one_timer w'.
Proof.
  intros (_ & _ & E3 & E4 & E5 & _) [H|(i & t & k & cb & Hq & Hc & Hi)].
  - left. congruence.
  - right. exists i, t, k, cb. rewrite E3, E4, E5. repeat split; assumption.
Qed.

Lemma handleChange_same_timers
  (raw : Value) (event : option Event) (w : NumberPicker) :
  same_timers w (snd (handleChange raw event w)).
Proof.
  unfold handleChange. destruct (negb (strict_equal _ _)).
  - apply same_timers_log.
  - apply same_timers_refl.
Qed.

Lemma step_same_timers
  (amount : Value) (event : option Event) (w : NumberPicker) :
  same_timers w (snd (step format_precision amount event w)).
Proof.
  unfold step.
  destruct (if negb (is_nullish _) then round _ _ else Normal _)
    as [raw|e].
  - unfold bind.
    pose proof (handleChange_same_timers raw event w) as H.
    destruct (handleChange raw event w) as [[[]|e] w']; exact H.
  - apply same_timers_refl.
Qed.

Lemma handleMouseUp_editable (w : NumberPicker) :
  editable (this_props w) = true ->
  handleMouseUp editable w =
  (Returned tt,
   with_state
     {| props := this_props w;
        _cancelRepeater := None;
        notified := notified (state w) |}
     (match _cancelRepeater (state w) with
      | Some k => cancel k w
      | None => w
      end)).
Proof.
  intros H. unfold handleMouseUp, widgetEditable. rewrite H.
  unfold bind. destruct (_cancelRepeater (state w)) as [k|]; cbn.
  - unfold set_cancelRepeater, modify, this_props.
    destruct (cancel_frame k w) as (-> & _). reflexivity.
  - reflexivity.
Qed.

Lemma handleMouseUp_blocked (w : NumberPicker) :
  editable (this_props w) = false ->
  handleMouseUp editable w = (Returned tt, w).
Proof.
  intros H. unfold handleMouseUp, widgetEditable. rewrite H. reflexivity.
Qed.

Lemma handleMouseUp_clears (w : NumberPicker) :
  one_timer w -> editable (this_props w) = true ->
  queue (snd (handleMouseUp editable w)) = []
  /\ _cancelRepeater (state (snd (handleMouseUp editable w))) = None
  /\ intervals (snd (handleMouseUp editable w)) = intervals w.
Proof.
  intros Hi He. rewrite (handleMouseUp_editable w He). cbn.
  destruct Hi as [Hq|(i & t & k & cb & Hq & Hc & Hn)].
  - destruct (_cancelRepeater (state w)) as [k|].
    + rewrite (cancel_idle k w Hq). repeat split. exact Hq.
    + repeat split. exact Hq.
  - rewrite Hc. split; [|split; [reflexivity|apply cancel_frame]].
    apply (cancel_single k k i t cb w Hq Hn).
Qed.

Lemma handleMouseUp_one_timer (w : NumberPicker) :
  one_timer w -> one_timer (snd (handleMouseUp editable w)).
Proof.
  intros Hi. destruct (editable (this_props w)) eqn:He.
  - left. apply (handleMouseUp_clears w Hi He).
  - rewrite (handleMouseUp_blocked w He). exact Hi.
Qed.

Lemma method_same_timers (d : Direction) (event : option Event)
  (w : NumberPicker) :
  same_timers w
    (snd ((if is_up d then increment format_precision
           else decrement format_precision) event w)).
Proof.
  destruct (is_up d); [unfold increment|unfold decrement];
    apply step_same_timers.
Qed.

Lemma handleMouseDown_unfold (d : Direction) (event : option Event)
  (w : NumberPicker) :
  handleMouseDown format_precision editable d event w =
  if editable (this_props w) then
    match
      (if is_up d then increment format_precision
       else decrement format_precision) event w
    with
    | (Returned value, w') =>
        after_method editable d event (Props.min (this_props w))
          (Props.max (this_props w)) value w'
    | (Thrown e, w') => (Thrown e, w')
    end
  else (Returned tt, w).
Proof. reflexivity. Qed.

Lemma after_method_one_timer (d : Direction) (event : option Event)
  (min max value : Value) (w : NumberPicker) :
  one_timer w -> one_timer (snd (after_method editable d event min max value w)).
Proof.
  intros Hi. unfold after_method.
  destruct ((is_up d && strict_equal value max)
            || (negb (is_up d) && strict_equal value min)).
  - apply handleMouseUp_one_timer. exact Hi.
  - destruct (_cancelRepeater (state w)) as [k|] eqn:Hc; [exact Hi|].
    destruct Hi as [Hq|(i & t & k & cb & Hq & Hc' & Hn)]; [|congruence].
    right. exists (next_id w), (now w + 500), (List.length (intervals w)),
      (d, event).
    unfold createInterval. cbn. rewrite Hq. cbn. repeat split.
    rewrite nth_error_app2 by lia. rewrite Nat.sub_diag. reflexivity.
Qed.

Lemma handleMouseDown_one_timer (d : Direction) (event : option Event)
  (w : NumberPicker) :
  one_timer w ->
  one_timer (snd (handleMouseDown format_precision editable d event w)).
Proof.
  intros Hi. rewrite handleMouseDown_unfold.
  destruct (editable (this_props w)); [|exact Hi].
  pose proof (method_same_timers d event w) as Hs.
  destruct ((if is_up d then increment format_precision
             else decrement format_precision) event w) as [[value|e] w'];
    cbn [snd] in Hs.
  - apply after_method_one_timer. apply (one_timer_transport w w' Hs Hi).
  - apply (one_timer_transport w w' Hs Hi).
Qed.

Lemma handleKeyDown_same_timers (event : Event) (w : NumberPicker) :
  same_timers w (snd (handleKeyDown format_precision editable event w)).
Proof.
  unfold handleKeyDown, widgetEditable.
  destruct (editable (this_props w)); [|apply same_timers_refl].
  unfold bind at 1. cbn [notify modify].
  apply (same_timers_trans w (log (OnKeyDown event) w));
    [apply same_timers_log|].
  set (w1 := log (OnKeyDown event) w).
  destruct (defaultPrevented event); [apply same_timers_refl|].
  destruct (String.eqb (key event) "End" && isFinite (Props.max (this_props w)));
    [apply handleChange_same_timers|].
  destruct (String.eqb (key event) "Home" && isFinite (Props.min (this_props w)));
    [apply handleChange_same_timers|].
  destruct (String.eqb (key event) "ArrowDown").
  { unfold bind, decrement.
    pose proof (step_same_timers (negate (Props.step (this_props w1)))
                  (Some event) w1) as H.
    destruct (step format_precision _ (Some event) w1) as [[v|e] w'];
      exact H. }
  destruct (String.eqb (key event) "ArrowUp").
  { unfold bind, increment.
    pose proof (step_same_timers (Props.step (this_props w1))
                  (Some event) w1) as H.
    destruct (step format_precision _ (Some event) w1) as [[v|e] w'];
      exact H. }
  apply same_timers_refl.
Qed.

Lemma fire_one_timer (w : NumberPicker) :
  one_timer w ->
  match fire_next (repeat format_precision editable) w with
  | Some w' => one_timer w'
  | None => True
  end.
Proof.
  intros [Hq|(i & t & k & cb & Hq & Hc & Hn)].
  - rewrite (fire_next_idle _ w Hq). exact I.
  - rewrite (fire_single _ k cb i t w Hq Hn).
    unfold repeat. apply handleMouseDown_one_timer.
    right. exists (next_id w), (Z.max (now w) t + 35), k, cb. cbn.
    repeat split; [exact Hc|].
    apply (nth_error_set_id k (next_id w) _ _ Hn).
Qed.

Lemma react_one_timer (i : Input) (w : NumberPicker) :
  one_timer w -> one_timer (react format_precision editable i w).
Proof.
  intros Hi. destruct i as [d e| | |e|raw|p|]; cbn [react].
  - apply handleMouseDown_one_timer; exact Hi.
  - apply handleMouseUp_one_timer; exact Hi.
  - apply handleMouseUp_one_timer; exact Hi.
  - apply (one_timer_transport w _ (handleKeyDown_same_timers e w) Hi).
  - apply (one_timer_transport w _ (handleChange_same_timers raw None w) Hi).
  - exact Hi.
  - pose proof (fire_one_timer w Hi) as H.
    destruct (fire_next _ w); [exact H|exact Hi].
Qed.

Lemma reachable_one_timer (inputs : list Input) (w : NumberPicker) :
  one_timer w ->
  one_timer
    (fold_left (fun w i => react format_precision editable i w) inputs w).
Proof.
  revert w. induction inputs as [|i inputs IH]; intros w Hi; [exact Hi|].
  cbn [fold_left]. apply IH. apply react_one_timer. exact Hi.
Qed.

Lemma handleMouseDown_holding (d : Direction) (event : option Event)
  (w : NumberPicker) :
  one_timer w -> _cancelRepeater (state w) <> None ->
  intervals (snd (handleMouseDown format_precision editable d event w))
  = intervals w
  /\ incl (queue (snd (handleMouseDown format_precision editable d event w)))
       (queue w).
Proof.
  intros Hi Hc. rewrite handleMouseDown_unfold.
  destruct (editable (this_props w)) eqn:He;
    [|split; [reflexivity|apply incl_refl]].
  pose proof (method_same_timers d event w) as Hs.
  destruct ((if is_up d then increment format_precision
             else decrement format_precision) event w) as [[value|e] w'];
    cbn [snd] in Hs |- *.
  - pose proof (one_timer_transport w w' Hs Hi) as Hi'.
    destruct Hs as (_ & _ & E3 & E4 & E5 & E6).
    unfold after_method.
    destruct ((is_up d && strict_equal value _)
              || (negb (is_up d) && strict_equal value _)).
    + assert (He' : editable (this_props w') = true).
      { unfold this_props in *. rewrite E6. exact He. }
      destruct (handleMouseUp_clears w' Hi' He') as (Hq & _ & Hn).
      rewrite Hq, Hn, E4. split; [reflexivity|]. intros x [].
    + rewrite E5. destruct (_cancelRepeater (state w)); [|congruence].
      cbn. rewrite E3, E4. split; [reflexivity|apply incl_refl].
  - destruct Hs as (_ & _ & E3 & E4 & _). rewrite E3, E4.
    split; [reflexivity|apply incl_refl].
Qed.

(** C10. In every state the component reaches from mounting, whatever the
    sequence of mouse, key and input events, new props and timer firings,
    at most one timer is queued, and it is the one the stored handle
    cancels.  While a handle is stored, [handleMouseDown] creates no
    interval and queues nothing, so an interval is created only when the
    handle is null; [handleMouseUp], when the decorator lets it run,
    leaves no timer queued and the handle null. *)
Theorem one_repeat_timer (p : Props.t) (inputs : list Input) :
  let w :=
    fold_left (fun w i => react format_precision editable i w) inputs
      (mount p) in
  one_timer w
  /\ (List.length (queue w) <= 1)%nat
  /\ (forall d e,
        _cancelRepeater (state w) <> None ->
        intervals (snd (handleMouseDown format_precision editable d e w))
        = intervals w
        /\ incl
             (queue (snd (handleMouseDown format_precision editable d e w)))
             (queue w))
  /\ (forall d e,
        intervals (snd (handleMouseDown format_precision editable d e w))
        <> intervals w ->
        _cancelRepeater (state w) = None)
  /\ (editable (this_props w) = true ->
      queue (snd (handleMouseUp editable w)) = []
      /\ _cancelRepeater (state (snd (handleMouseUp editable w))) = None).
Proof.
  cbv zeta.
  pose proof (reachable_one_timer inputs (mount p) (or_introl eq_refl)) as Hi.
  set (w := fold_left _ inputs (mount p)) in *.
  split; [exact Hi|]. split; [|split; [|split]].
  - destruct Hi as [->|(i & t & k & cb & -> & _)]; cbn; lia.
  - intros d e Hc. apply handleMouseDown_holding; assumption.
  - intros d e Hn. destruct (_cancelRepeater (state w)) eqn:Hc;
      [|reflexivity].
    exfalso. apply Hn.
    apply (handleMouseDown_holding d e w Hi). congruence.
  - intros He. destruct (handleMouseUp_clears w Hi He) as (H1 & H2 & _).
    split; assumption.
Qed.

End RepeaterFacts.

Lemma one_repeat_timer_witness :
  let w :=
    fold_left (fun w i => react no_precision enabled i w)
      [MouseDown UP None; TimerFires; MouseDown UP None]
      (mount (ranged (number 7) VUndefined)) in
  (List.length (queue w) <= 1)%nat
  /\ intervals (snd (handleMouseDown no_precision enabled UP None w))
     = intervals w
  /\ queue (snd (handleMouseUp enabled w)) = [].
Proof.
  destruct (one_repeat_timer no_precision enabled
              (ranged (number 7) VUndefined)
              [MouseDown UP None; TimerFires; MouseDown UP None])
    as (_ & H2 & H3 & _ & H5).
  cbv zeta in *. split; [exact H2|]. split.
  - refine (proj1 (H3 UP None _)). vm_compute. discriminate.
  - refine (proj1 (H5 _)). vm_compute. reflexivity.
Defined.

(** ** The cancel handle *)





(** ** Stepping against a bound *)

Section BoundFacts.

Variable format_precision : Props.t -> Value.
Variable editable : Props.t -> bool.





End BoundFacts.


Section AtTheBound.

Variable format_precision : Props.t -> Value.
Variable editable : Props.t -> bool.


End AtTheBound.


(** * The rounding routine *)

Local Open Scope string_scope.
Local Open Scope Z_scope.

(** ** Integers as binary64 numbers *)

Lemma of_ratio_integer (s : bool) (R : Z) :
  0 < R < 2 ^ 52 ->
  exists m a,
    Num.of_ratio s R 1 = S754_finite s m (- a)
    /\ 1 <= a /\ Zpos m = R * 2 ^ a /\ 2 ^ 52 <= Zpos m < 2 ^ 53.
Proof.
  intros HR.
  destruct (of_ratio_spec s R 1) as (m & a & E & Ha & Hm & Herr & _);
    try lia.
  exists m, a. split; [exact E|].
  assert (Em : Zpos m = R * 2 ^ a) by lia.
  split; [|split; [exact Em|exact Hm]].
  destruct (Z.eq_dec a 0) as [->|]; [|lia].
  change (2 ^ 0) with 1 in Em. lia.
Qed.

Lemma pow2_inj (a b : Z) : 0 <= a -> 0 <= b -> 2 ^ a = 2 ^ b -> a = b.
Proof.
  intros Ha Hb H. apply (Z.pow_inj_r 2); lia.
Qed.

Lemma integer_form_unique (R1 R2 a1 a2 m : Z) :
  0 < R1 -> 0 < R2 -> 0 <= a1 -> 0 <= a2 ->
  m = R1 * 2 ^ a1 -> m = R2 * 2 ^ a2 -> a1 = a2 -> R1 = R2.
Proof.
  intros H1 H2 Ha1 Ha2 E1 E2 ->.
  assert (0 < 2 ^ a2) by (apply Z.pow_pos_nonneg; lia). nia.
Qed.

Lemma of_ratio_integer_inj (s : bool) (R1 R2 : Z) :
  0 < R1 < 2 ^ 52 -> 0 < R2 < 2 ^ 52 ->
  Num.of_ratio s R1 1 = Num.of_ratio s R2 1 -> R1 = R2.
Proof.
  intros H1 H2 E.
  destruct (of_ratio_integer s R1 H1) as (m1 & a1 & E1 & Ha1 & Em1 & _).
  destruct (of_ratio_integer s R2 H2) as (m2 & a2 & E2 & Ha2 & Em2 & _).
  rewrite E1, E2 in E. injection E as Em Ea.
  apply (integer_form_unique R1 R2 a1 a2 (Zpos m1)); try lia.
Qed.

Lemma same_number_eq (x y : spec_float) :
  same_number x y = true <-> x = y.
Proof.
  split.
  - destruct x as [sx|sx| |sx mx ex], y as [sy|sy| |sy my ey]; cbn;
      try discriminate; try reflexivity.
    + intros H. apply Bool.eqb_prop in H. congruence.
    + intros H. apply Bool.eqb_prop in H. congruence.
    + intros H. apply andb_true_iff in H as [H H3].
      apply andb_true_iff in H as [H1 H2].
      apply Bool.eqb_prop in H1. apply Pos.eqb_eq in H2.
      apply Z.eqb_eq in H3. congruence.
  - intros <-. destruct x as [sx|sx| |sx mx ex]; cbn;
      rewrite ?Bool.eqb_reflx, ?Pos.eqb_refl, ?Z.eqb_refl; reflexivity.
Qed.

(** Whether [c * 10^E] is the integer [R], for the number [x] of [R]. *)
Lemma denotes_integer (R c E : Z) :
  0 < R < 2 ^ 52 -> 0 <= E -> 0 < c * 10 ^ E < 2 ^ 52 ->
  denotes (Num.of_ratio false R 1) c E = true <-> c * 10 ^ E = R.
Proof.
  intros HR HE Hc. unfold denotes, Num.of_decimal.
  replace (0 <=? E) with true by (symmetry; apply Z.leb_le; exact HE).
  rewrite same_number_eq. split.
  - apply of_ratio_integer_inj; assumption.
  - intros ->. reflexivity.
Qed.

Lemma count_spec (n : Z) :
  0 < n ->
  1 <= Digits.count n /\ 10 ^ (Digits.count n - 1) <= n < 10 ^ Digits.count n.
Proof.
  intros Hn. destruct (render_spec n ltac:(lia)) as (_ & _ & H1 & H2 & H3 & _).
  unfold Digits.count. fold (len (Digits.render n)).
  split; [exact H1|]. split; [apply H3; exact Hn|exact H2].
Qed.

Lemma pow10_unique (n k c : Z) :
  1 <= k -> 1 <= c -> 10 ^ (k - 1) <= n < 10 ^ k ->
  10 ^ (c - 1) <= n < 10 ^ c -> c = k.
Proof.
  intros Hk Hc [L1 U1] [L2 U2].
  destruct (Z.lt_trichotomy c k) as [H|[H|H]]; [exfalso|exact H|exfalso].
  - assert (10 ^ c <= 10 ^ (k - 1)) by (apply Z.pow_le_mono_r; lia). lia.
  - assert (10 ^ k <= 10 ^ (c - 1)) by (apply Z.pow_le_mono_r; lia). lia.
Qed.

Lemma count_unique (n k : Z) :
  1 <= k -> 10 ^ (k - 1) <= n < 10 ^ k -> Digits.count n = k.
Proof.
  intros Hk H.
  assert (Hn : 0 < n).
  { assert (0 < 10 ^ (k - 1)) by (apply Z.pow_pos_nonneg; lia). lia. }
  destruct (count_spec n Hn) as [Hc Hb].
  apply (pow10_unique n k (Digits.count n)); assumption.
Qed.

Lemma value_render (n : Z) : 0 <= n -> Digits.value (Digits.render n) = n.
Proof.
  intros Hn. destruct (render_spec n Hn) as (_ & H & _).
  unfold Digits.value. rewrite H. lia.
Qed.

Lemma candidates_integer (R D E : Z) :
  0 < R -> 0 < D -> 0 <= E ->
  (candidates (R * D) D E = (R / 10 ^ E, R / 10 ^ E + 1)
   \/ candidates (R * D) D E = (R / 10 ^ E + 1, R / 10 ^ E))
  /\ (R mod 10 ^ E = 0 ->
      candidates (R * D) D E = (R / 10 ^ E, R / 10 ^ E + 1)).
Proof.
  intros HR HD HE.
  assert (HP : 0 < 10 ^ E) by (apply Z.pow_pos_nonneg; lia).
  unfold candidates, scale.
  replace (0 <=? E) with true by (symmetry; apply Z.leb_le; exact HE).
  rewrite (Z.mul_comm R D).
  rewrite Z.div_mul_cancel_l by lia.
  rewrite Zmult_mod_distr_l.
  split.
  - destruct (2 * (D * (R mod 10 ^ E)) ?= D * 10 ^ E);
      [destruct (Z.even (R / 10 ^ E))| |]; auto.
  - intros ->. rewrite Z.mul_0_r. cbn [Z.mul].
    replace (0 ?= D * 10 ^ E) with Lt; [reflexivity|].
    symmetry. apply Z.compare_lt_iff. nia.
Qed.

Section ShortestInteger.

Variable R : Z.
Variable m : positive.
Variable a : Z.
Hypothesis HR : 0 < R < 2 ^ 51.
Hypothesis Ha : 1 <= a.
Hypothesis Hm : Zpos m = R * 2 ^ a.
Hypothesis Hx : Num.of_ratio false R 1 = S754_finite false m (- a).

Let c := Digits.count R.

Lemma shortest_integer (fuel : nat) :
  forall k,
    1 <= k <= c -> c - k <= Z.of_nat fuel ->
    exists s k',
      shortest fuel k (S754_finite false m (- a)) (Zpos m) (2 ^ a) c = (s, k')
      /\ k <= k' <= c /\ s * 10 ^ (c - k') = R.
Proof.
  destruct (count_spec R ltac:(lia)) as [Hc1 Hc]. fold c in Hc1, Hc.
  assert (HD : 0 < 2 ^ a) by (apply Z.pow_pos_nonneg; lia).
  assert (Hcand : forall k, 1 <= k <= c ->
            forall c1 c2, candidates (R * 2 ^ a) (2 ^ a) (c - k) = (c1, c2) ->
            0 < c1 * 10 ^ (c - k) < 2 ^ 52 /\ 0 < c2 * 10 ^ (c - k) < 2 ^ 52).
  { intros k Hk c1 c2 E.
    assert (HP : 0 < 10 ^ (c - k)) by (apply Z.pow_pos_nonneg; lia).
    assert (HPle : 10 ^ (c - k) <= 10 ^ (c - 1))
      by (apply Z.pow_le_mono_r; lia).
    pose proof (Z.div_mod R (10 ^ (c - k)) ltac:(lia)) as Hdm.
    pose proof (Z.mod_pos_bound R (10 ^ (c - k)) HP) as Hmb.
    assert (Hlo : 1 <= R / 10 ^ (c - k)).
    { apply Z.div_le_lower_bound; lia. }
    destruct (candidates_integer R (2 ^ a) (c - k)) as [[E'|E'] _];
      try lia; rewrite E' in E; injection E as <- <-; nia. }
  induction fuel as [|fuel IH]; intros k Hk Hf.
  - assert (k = c) by lia. subst k.
    cbn [shortest]. rewrite Hm.
    destruct (candidates_integer R (2 ^ a) (c - c)) as [_ E]; try lia.
    rewrite E.
    + exists (R / 10 ^ (c - c)), c. split; [reflexivity|].
      split; [lia|]. replace (c - c) with 0 by lia.
      change (10 ^ 0) with 1. rewrite Z.div_1_r. lia.
    + replace (c - c) with 0 by lia. change (10 ^ 0) with 1.
      apply Z.mod_1_r.
  - cbn [shortest]. rewrite Hm.
    destruct (candidates (R * 2 ^ a) (2 ^ a) (c - k)) as [c1 c2] eqn:E.
    destruct (Hcand k Hk c1 c2 E) as [B1 B2].
    rewrite <- Hx.
    destruct (denotes (Num.of_ratio false R 1) c1 (c - k)) eqn:D1.
    { exists c1, k. split; [reflexivity|]. split; [lia|].
      apply (denotes_integer R c1 (c - k)); try lia. exact D1. }
    destruct (denotes (Num.of_ratio false R 1) c2 (c - k)) eqn:D2.
    { exists c2, k. split; [reflexivity|]. split; [lia|].
      apply (denotes_integer R c2 (c - k)); try lia. exact D2. }
    assert (Hlt : k < c).
    { destruct (Z.eq_dec k c) as [->|]; [exfalso|lia].
      destruct (candidates_integer R (2 ^ a) (c - c)) as [_ E'];
        try lia.
      rewrite E' in E.
      2:{ replace (c - c) with 0 by lia. change (10 ^ 0) with 1.
          apply Z.mod_1_r. }
      injection E as <- <-.
      assert (T : denotes (Num.of_ratio false R 1) (R / 10 ^ (c - c)) (c - c)
                  = true).
      { apply denotes_integer; try lia.
        replace (c - c) with 0 by lia. change (10 ^ 0) with 1.
        rewrite Z.div_1_r. lia. }
      congruence. }
    rewrite Hx, <- Hm.
    destruct (IH (k + 1)) as (s & k' & Es & Hk' & Hs); try lia.
    exists s, k'. split; [exact Es|]. split; [lia|exact Hs].
Qed.

End ShortestInteger.

Lemma binade_unique (R a a' : Z) :
  0 < R -> 0 <= a -> 0 <= a' ->
  2 ^ 52 <= R * 2 ^ a < 2 ^ 53 -> 2 ^ 52 <= R * 2 ^ a' < 2 ^ 53 -> a = a'.
Proof.
  assert (H : forall a a', 0 <= a -> a < a' -> 0 < R ->
            2 ^ 52 <= R * 2 ^ a -> R * 2 ^ a' < 2 ^ 53 -> False).
  { intros b b' Hb Hlt HR H1 H2.
    assert (2 ^ (b + 1) <= 2 ^ b') by (apply Z.pow_le_mono_r; lia).
    rewrite Z.pow_add_r in H by lia. change (2 ^ 1) with 2 in H. nia. }
  intros HR Ha Ha' B B'.
  destruct (Z.lt_trichotomy a a') as [L|[E|L]]; [exfalso|exact E|exfalso].
  - apply (H a a'); lia.
  - apply (H a' a); lia.
Qed.

Lemma pow10_split (c k : Z) :
  0 <= k <= c -> 10 ^ c = 10 ^ k * 10 ^ (c - k).
Proof.
  intros H. rewrite <- Z.pow_add_r by lia. f_equal. lia.
Qed.

Lemma integer_text (sg : bool) (R : Z) :
  0 < R < 2 ^ 51 ->
  exists T,
    number_to_string (Num.of_ratio sg R 1)
    = (if sg then "-" else "") ++ T
    /\ all_digits T = true /\ Digits.value T = R /\ 1 <= len T.
Proof.
  intros HR.
  destruct (of_ratio_integer sg R ltac:(lia)) as (m & a & E & Ha & Em & Bm).
  destruct (of_ratio_integer false R ltac:(lia))
    as (m' & a' & E' & Ha' & Em' & Bm').
  assert (a' = a) by (apply (binade_unique R a' a); lia). subst a'.
  assert (m' = m) by lia. subst m'.
  rewrite E. cbn [number_to_string].
  destruct (count_spec R ltac:(lia)) as [Hc1 Hc].
  set (c := Digits.count R) in *.
  assert (Hc16 : c <= 16).
  { destruct (Z_lt_le_dec 16 c) as [H|]; [exfalso|lia].
    assert (10 ^ 16 <= 10 ^ (c - 1)) by (apply Z.pow_le_mono_r; lia).
    lia. }
  assert (HD : 0 < 2 ^ a) by (apply Z.pow_pos_nonneg; lia).
  destruct (shortest_integer R m a ltac:(lia) Ha Em E' 16 1)
    as (s & k & Es & Hk & Hs); fold c; try lia.
  fold c in Es, Hk, Hs.
  assert (HP : 0 < 10 ^ (c - k)) by (apply Z.pow_pos_nonneg; lia).
  assert (HPk : 0 < 10 ^ (k - 1)) by (apply Z.pow_pos_nonneg; lia).
  assert (Hsk : 10 ^ (k - 1) <= s < 10 ^ k).
  { pose proof (pow10_split c k ltac:(lia)) as P1.
    pose proof (pow10_split (c - 1) (k - 1) ltac:(lia)) as P2.
    replace (c - 1 - (k - 1)) with (c - k) in P2 by lia.
    split.
    - apply (Z.mul_le_mono_pos_r _ _ (10 ^ (c - k)) HP). lia.
    - apply (Z.mul_lt_mono_pos_r (10 ^ (c - k)) _ _ HP). lia. }
  unfold shortest_decimal, Num.ratio_of.
  replace (0 <=? - a) with false by (symmetry; apply Z.leb_gt; lia).
  rewrite Z.opp_involutive.
  assert (En : decimal_exponent (Zpos m) (2 ^ a) = c).
  { unfold decimal_exponent.
    replace (2 ^ a <=? Zpos m) with true by (symmetry; apply Z.leb_le; nia).
    rewrite Em, Z.div_mul by lia. reflexivity. }
  rewrite En, Es.
  replace (s =? 10 ^ k) with false by (symmetry; apply Z.eqb_neq; lia).
  assert (Hlen : Z.of_nat (String.length (Digits.render s)) = k).
  { apply (count_unique s k); lia. }
  unfold render_decimal. rewrite Hlen.
  replace ((k <=? c) && (c <=? 21)) with true
    by (symmetry; apply andb_true_iff; split; apply Z.leb_le; lia).
  exists (Digits.render s ++ Digits.zeros (Z.to_nat (c - k))).
  destruct (render_spec s ltac:(lia)) as (A1 & A2 & A3 & _).
  split; [reflexivity|]. split; [|split].
  - rewrite all_digits_app, A1, all_digits_zeros. reflexivity.
  - unfold Digits.value. rewrite value_acc_app, value_acc_zeros.
    rewrite A2, Z2Nat.id by lia. lia.
  - rewrite len_append. pose proof (len_nonneg (Digits.zeros (Z.to_nat (c - k)))).
    lia.
Qed.

(** ** Reading decimal texts *)

Lemma numeric_char_facts (c : ascii) :
  numeric_char c = true ->
  is_space c = false
  /\ Ascii.eqb c "x" || Ascii.eqb c "X" = false
  /\ Ascii.eqb c "o" || Ascii.eqb c "O" = false
  /\ Ascii.eqb c "b" || Ascii.eqb c "B" = false.
Proof.
  destruct c as [[] [] [] [] [] [] [] []]; intros H;
    try discriminate H; repeat split.
Qed.

Lemma digit_char_kind (c : ascii) :
  Digits.is_digit c = true ->
  numeric_char c = true
  /\ Ascii.eqb c "-" = false /\ Ascii.eqb c "+" = false
  /\ Ascii.eqb c "." = false /\ Ascii.eqb c "e" = false
  /\ Ascii.eqb c "E" = false /\ Ascii.eqb c "I" = false.
Proof.
  intros H. split; [unfold numeric_char; rewrite H; reflexivity|].
  repeat split;
    match goal with
    | |- Ascii.eqb c ?x = false =>
        destruct (Ascii.eqb_spec c x) as [->|]; [discriminate H|reflexivity]
    end.
Qed.

Lemma numeric_app (a b : string) :
  numeric (a ++ b) = numeric a && numeric b.
Proof.
  induction a as [|x a IH]; cbn; [reflexivity|].
  rewrite IH, andb_assoc. reflexivity.
Qed.

Lemma numeric_digits (s : string) : all_digits s = true -> numeric s = true.
Proof.
  induction s as [|c s IH]; cbn; [reflexivity|].
  intros H. apply andb_true_iff in H as [Hc Hs].
  destruct (digit_char_kind c Hc) as [-> _]. apply IH. exact Hs.
Qed.

Lemma trim_left_numeric (s : string) : numeric s = true -> trim_left s = s.
Proof.
  destruct s as [|c s]; [reflexivity|]. cbn. intros H.
  apply andb_true_iff in H as [Hc _].
  destruct (numeric_char_facts c Hc) as [-> _]. reflexivity.
Qed.

Lemma trim_right_numeric (s : string) : numeric s = true -> trim_right s = s.
Proof.
  induction s as [|c s IH]; [reflexivity|]. cbn. intros H.
  apply andb_true_iff in H as [Hc Hs].
  rewrite (IH Hs). destruct (numeric_char_facts c Hc) as [-> _].
  destruct s; reflexivity.
Qed.

Lemma trim_numeric (s : string) : numeric s = true -> trim s = s.
Proof.
  intros H. unfold trim. rewrite (trim_left_numeric s H).
  apply trim_right_numeric. exact H.
Qed.

Lemma parse_non_decimal_numeric (s : string) :
  numeric s = true -> parse_non_decimal s = None.
Proof.
  destruct s as [|z [|c [|d r]]]; try reflexivity.
  intros H. cbn in H. apply andb_true_iff in H as [_ H].
  apply andb_true_iff in H as [Hc _].
  destruct (numeric_char_facts c Hc) as (_ & H1 & H2 & H3).
  unfold parse_non_decimal. rewrite H1, H2, H3.
  destruct (negb (Ascii.eqb z "0")); reflexivity.
Qed.

Lemma strip_sign_digit (c : ascii) (r : string) :
  Digits.is_digit c = true -> strip_sign (String c r) = (false, String c r).
Proof.
  intros H. destruct (digit_char_kind c H) as (_ & H1 & H2 & _).
  unfold strip_sign. rewrite H1, H2. reflexivity.
Qed.

(** A text that starts with a digit, with an optional minus sign in
    front. *)
Lemma string_to_number_signed (neg : bool) (c : ascii) (r : string) :
  Digits.is_digit c = true -> numeric r = true ->
  string_to_number ((if neg then "-" else "") ++ String c r) =
  match parse_unsigned_decimal (String c r) with
  | Some (m, e) => Num.of_decimal neg m e
  | None => Num.NaN
  end.
Proof.
  intros Hc Hr.
  destruct (digit_char_kind c Hc) as (Hn & _ & _ & _ & _ & _ & HI).
  assert (Hu : numeric (String c r) = true)
    by (cbn; rewrite Hn, Hr; reflexivity).
  assert (Hs : numeric ((if neg then "-" else "") ++ String c r) = true).
  { rewrite numeric_app, Hu. destruct neg; reflexivity. }
  unfold string_to_number.
  rewrite (trim_numeric _ Hs), (parse_non_decimal_numeric _ Hs).
  destruct neg; cbn [String.append].
  - cbn [strip_sign]. change (Ascii.eqb "-" "-") with true. cbn iota.
    cbn [String.eqb]. rewrite HI. reflexivity.
  - rewrite (strip_sign_digit c r Hc). cbn [String.eqb]. rewrite HI.
    reflexivity.
Qed.

Lemma parse_exponent_digits (T : string) :
  all_digits T = true -> 1 <= len T ->
  parse_exponent (String "e" T) = Some (Digits.value T)
  /\ parse_exponent (String "e" (String "-" T)) = Some (- Digits.value T).
Proof.
  intros Hd Hl. destruct T as [|c t]; [cbn in Hl; lia|].
  assert (Hc : Digits.is_digit c = true)
    by (cbn in Hd; apply andb_true_iff in Hd as [H _]; exact H).
  pose proof (take_app (String c t) "" Hd I) as Ht.
  rewrite append_nil_r in Ht.
  unfold parse_exponent.
  change (Ascii.eqb "e" "e" || Ascii.eqb "e" "E") with true. cbn iota.
  split.
  - rewrite (strip_sign_digit c t Hc), Ht. reflexivity.
  - cbn [strip_sign]. change (Ascii.eqb "-" "-") with true. cbn iota.
    rewrite Ht. reflexivity.
Qed.

Lemma parse_plain (ip X : string) (ev : Z) :
  all_digits ip = true -> 1 <= len ip ->
  parse_exponent (String "e" X) = Some ev ->
  parse_unsigned_decimal (ip ++ String "e" X) = Some (Digits.value ip, ev).
Proof.
  intros Hd Hl He. unfold parse_unsigned_decimal.
  rewrite (take_app ip (String "e" X) Hd eq_refl).
  change (Ascii.eqb "e" ".") with false. cbn iota.
  rewrite append_nil_r, He.
  destruct ip as [|c t]; [cbn in Hl; lia|].
  cbn [String.length]. f_equal. f_equal. lia.
Qed.

Lemma parse_pointed (ip fp X : string) (ev : Z) :
  all_digits ip = true -> 1 <= len ip -> all_digits fp = true ->
  parse_exponent (String "e" X) = Some ev ->
  parse_unsigned_decimal (ip ++ String "." (fp ++ String "e" X))
  = Some (Digits.value (ip ++ fp), ev - len fp).
Proof.
  intros Hd Hl Hf He. unfold parse_unsigned_decimal.
  rewrite (take_app ip (String "." (fp ++ String "e" X)) Hd eq_refl).
  change (Ascii.eqb "." ".") with true. cbn iota.
  rewrite (take_app fp (String "e" X) Hf eq_refl), He.
  destruct ip as [|c t]; [cbn in Hl; lia|]. reflexivity.
Qed.

(** ** Cutting a text in two *)

Lemma substring_whole (s : string) : substring 0 (String.length s) s = s.
Proof.
  induction s as [|c s IH]; [reflexivity|]. cbn. rewrite IH. reflexivity.
Qed.

Lemma prefix_drop (s : string) :
  forall n, (n <= String.length s)%nat ->
    Digits.prefix_len n s ++ Digits.drop_len n s = s
    /\ len (Digits.prefix_len n s) = Z.of_nat n
    /\ len (Digits.drop_len n s) = len s - Z.of_nat n.
Proof.
  unfold Digits.prefix_len, Digits.drop_len, len.
  induction s as [|c s IH]; intros [|n] Hn; cbn in Hn; try lia.
  - cbn. repeat split.
  - rewrite Nat.sub_0_r, substring_whole. cbn [substring String.append].
    repeat split; cbn [String.length]; lia.
  - destruct (IH n ltac:(lia)) as (E1 & E2 & E3).
    cbn [substring String.length Nat.sub String.append].
    rewrite E1. repeat split.
    + cbn [String.length]. rewrite !Nat2Z.inj_succ. lia.
    + rewrite E3, !Nat2Z.inj_succ. lia.
Qed.

Lemma all_digits_split (a b : string) :
  all_digits (a ++ b) = true -> all_digits a = true /\ all_digits b = true.
Proof.
  rewrite all_digits_app. intros H. apply andb_true_iff in H. exact H.
Qed.

Lemma split_no_e (s : string) : no_e s = true -> split "e" s = [s].
Proof.
  induction s as [|c s IH]; [reflexivity|]. cbn [no_e split]. intros H.
  apply andb_true_iff in H as [Hc Hs]. rewrite (IH Hs).
  destruct (Ascii.eqb c "e"); [discriminate|reflexivity].
Qed.

Lemma no_e_app (a b : string) : no_e (a ++ b) = no_e a && no_e b.
Proof.
  induction a as [|x a IH]; cbn; [reflexivity|].
  rewrite IH, andb_assoc. reflexivity.
Qed.

Lemma no_e_digits (s : string) : all_digits s = true -> no_e s = true.
Proof.
  induction s as [|c s IH]; cbn; [reflexivity|].
  intros H. apply andb_true_iff in H as [Hc Hs].
  destruct (digit_char_kind c Hc) as (_ & _ & _ & _ & -> & _).
  apply IH. exact Hs.
Qed.

Lemma value_leading_zeros (k : nat) (ds : string) :
  Digits.value (String "0" (Digits.zeros k ++ ds)) = Digits.value ds.
Proof.
  unfold Digits.value. cbn [Digits.value_acc].
  change (10 * 0 + Digits.digit_val "0") with 0.
  rewrite value_acc_app, value_acc_zeros. reflexivity.
Qed.

(** ** The digits of a number *)

Lemma candidates_nonneg (N D E c1 c2 : Z) :
  0 <= N -> 0 < D -> candidates N D E = (c1, c2) -> 0 <= c1 /\ 0 <= c2.
Proof.
  intros HN HD. unfold candidates, scale.
  assert (HP : forall z, 0 < 10 ^ z \/ 10 ^ z = 0).
  { intros z. destruct (Z_le_gt_dec 0 z).
    - left. apply Z.pow_pos_nonneg; lia.
    - right. apply Z.pow_neg_r. lia. }
  destruct (Z.leb_spec 0 E) as [HE|HE].
  - assert (0 < 10 ^ E) by (apply Z.pow_pos_nonneg; lia).
    assert (Hlo : 0 <= N / (D * 10 ^ E)) by (apply Z.div_pos; nia).
    destruct (2 * (N mod (D * 10 ^ E)) ?= D * 10 ^ E);
      [destruct (Z.even (N / (D * 10 ^ E)))| |];
      intros Hc; injection Hc as <- <-; lia.
  - assert (0 < 10 ^ (- E)) by (apply Z.pow_pos_nonneg; lia).
    assert (Hlo : 0 <= N * 10 ^ (- E) / D) by (apply Z.div_pos; nia).
    destruct (2 * (N * 10 ^ (- E) mod D) ?= D);
      [destruct (Z.even (N * 10 ^ (- E) / D))| |];
      intros Hc; injection Hc as <- <-; lia.
Qed.

Lemma shortest_nonneg (x : spec_float) (N D n : Z) (fuel : nat) :
  0 <= N -> 0 < D ->
  forall k, 0 <= fst (shortest fuel k x N D n).
Proof.
  intros HN HD. induction fuel as [|fuel IH]; intros k; cbn [shortest];
    destruct (candidates N D (n - k)) as [c1 c2] eqn:E;
    destruct (candidates_nonneg N D (n - k) c1 c2 HN HD E) as [H1 H2].
  - exact H1.
  - destruct (denotes x c1 (n - k)); [exact H1|].
    destruct (denotes x c2 (n - k)); [exact H2|]. apply IH.
Qed.

Lemma ratio_of_pos (m : positive) (e : Z) :
  0 < fst (Num.ratio_of m e) /\ 0 < snd (Num.ratio_of m e).
Proof.
  unfold Num.ratio_of. destruct (Z.leb_spec 0 e); cbn [fst snd].
  - assert (0 < 2 ^ e) by (apply Z.pow_pos_nonneg; lia). split; nia.
  - assert (0 < 2 ^ (- e)) by (apply Z.pow_pos_nonneg; lia). split; lia.
Qed.

Lemma shortest_decimal_digits (m : positive) (e : Z) :
  all_digits (fst (shortest_decimal m e)) = true
  /\ 1 <= len (fst (shortest_decimal m e)).
Proof.
  unfold shortest_decimal.
  pose proof (ratio_of_pos m e) as [HN HD].
  destruct (Num.ratio_of m e) as [N D]. cbn [fst snd] in HN, HD.
  pose proof (shortest_nonneg (S754_finite false m e) N D
                (decimal_exponent N D) 16 ltac:(lia) HD 1) as Hs.
  destruct (shortest 16 1 (S754_finite false m e) N D (decimal_exponent N D))
    as [s k]. cbn [fst] in Hs.
  destruct (s =? 10 ^ k); cbn [fst].
  - split; [reflexivity|]. cbn. lia.
  - destruct (render_spec s Hs) as (H1 & _ & H2 & _). split; assumption.
Qed.

(** ** The texts of a precision *)

Lemma exponent_texts (p : Z) :
  0 <= p < 2 ^ 51 ->
  or_else (number p) (VNumber Num.zero) = number p
  /\ to_integer_or_infinity (to_number (number p)) = Some p
  /\ (exists X, to_string (number p) = X /\ numeric X = true
                /\ parse_exponent (String "e" X) = Some p)
  /\ (exists X, to_string (negate (number p)) = X /\ numeric X = true
                /\ parse_exponent (String "e" X) = Some (- p)).
Proof.
  intros Hp. destruct (Z.eq_dec p 0) as [->|Hne].
  { split; [reflexivity|]. split; [reflexivity|].
    split; exists "0"; repeat split. }
  unfold number, Num.of_Z.
  replace (p <? 0) with false by (symmetry; apply Z.ltb_ge; lia).
  rewrite Z.abs_eq by lia.
  destruct (of_ratio_integer false p ltac:(lia)) as (m & a & E & Ha & Em & Bm).
  destruct (integer_text false p ltac:(lia)) as (T & ET & HT & VT & LT).
  destruct (parse_exponent_digits T HT LT) as [P1 P2].
  assert (HD : 0 < 2 ^ a) by (apply Z.pow_pos_nonneg; lia).
  split; [rewrite E; reflexivity|]. split; [|split].
  - rewrite E. cbn [to_number to_integer_or_infinity]. unfold Num.ratio_of.
    replace (0 <=? - a) with false by (symmetry; apply Z.leb_gt; lia).
    rewrite Z.opp_involutive, Em, Z.div_mul by lia. reflexivity.
  - exists T. cbn [to_string]. rewrite ET. cbn [String.append].
    split; [reflexivity|]. split; [apply numeric_digits; exact HT|].
    rewrite P1, VT. reflexivity.
  - exists (String "-" T). cbn [to_string negate to_number].
    rewrite E in ET |- *. cbn [Num.neg SFopp negb number_to_string] in ET |- *.
    destruct (shortest_decimal m (- a)) as [ds n].
    cbn [String.append] in ET. rewrite ET.
    split; [reflexivity|].
    split; [cbn; apply numeric_digits; exact HT|].
    rewrite P2, VT. reflexivity.
Qed.

Lemma string_to_number_body (neg : bool) (u : string) :
  starts_digit u -> numeric u = true ->
  string_to_number ((if neg then "-" else "") ++ u) =
  match parse_unsigned_decimal u with
  | Some (m, e) => Num.of_decimal neg m e
  | None => Num.NaN
  end.
Proof.
  destruct u as [|c r]; [intros []|]. cbn [starts_digit]. intros Hc Hn.
  apply string_to_number_signed; [exact Hc|].
  cbn in Hn. apply andb_true_iff in Hn as [_ Hn]. exact Hn.
Qed.

Lemma starts_digit_app (a b : string) :
  all_digits a = true -> 1 <= len a -> starts_digit (a ++ b).
Proof.
  destruct a as [|c t]; [cbn; lia|]. cbn. intros H _.
  apply andb_true_iff in H as [H _]. exact H.
Qed.

(** The number read from digits, an optional fraction and an exponent. *)
Lemma read_plain (neg : bool) (ip X : string) (ev : Z) :
  all_digits ip = true -> 1 <= len ip -> numeric X = true ->
  parse_exponent (String "e" X) = Some ev ->
  string_to_number ((if neg then "-" else "") ++ ip ++ String "e" X)
  = Num.of_decimal neg (Digits.value ip) ev.
Proof.
  intros Hd Hl HX He.
  rewrite string_to_number_body.
  - rewrite (parse_plain ip X ev Hd Hl He). reflexivity.
  - apply starts_digit_app; assumption.
  - rewrite numeric_app, (numeric_digits ip Hd). cbn. exact HX.
Qed.

Lemma read_pointed (neg : bool) (ip fp X : string) (ev : Z) :
  all_digits ip = true -> 1 <= len ip -> all_digits fp = true ->
  numeric X = true -> parse_exponent (String "e" X) = Some ev ->
  string_to_number
    ((if neg then "-" else "") ++ ip ++ String "." (fp ++ String "e" X))
  = Num.of_decimal neg (Digits.value (ip ++ fp)) (ev - len fp).
Proof.
  intros Hd Hl Hf HX He.
  rewrite string_to_number_body.
  - rewrite (parse_pointed ip fp X ev Hd Hl Hf He). reflexivity.
  - apply starts_digit_app; assumption.
  - rewrite numeric_app, (numeric_digits ip Hd). cbn.
    rewrite numeric_app, (numeric_digits fp Hf). cbn. exact HX.
Qed.

Lemma of_decimal_scaled (s : bool) (V z E : Z) :
  0 <= z -> 0 <= E ->
  Num.of_decimal s (V * 10 ^ z) E = Num.of_decimal s V (z + E).
Proof.
  intros Hz HE. unfold Num.of_decimal.
  replace (0 <=? E) with true by (symmetry; apply Z.leb_le; lia).
  replace (0 <=? z + E) with true by (symmetry; apply Z.leb_le; lia).
  rewrite Z.pow_add_r by lia. f_equal. lia.
Qed.

Lemma first_shift (sx : bool) (m : positive) (e p : Z) (X : string) :
  -6 < snd (shortest_decimal m e) <= 21 -> 0 <= p ->
  numeric X = true -> parse_exponent (String "e" X) = Some p ->
  split "e" (number_to_string (S754_finite sx m e))
  = [number_to_string (S754_finite sx m e)]
  /\ string_to_number
       ((number_to_string (S754_finite sx m e) ++ "e") ++ X)
     = shifted (S754_finite sx m e) p.
Proof.
  intros Hn Hp HX He. cbn [number_to_string shifted].
  destruct (shortest_decimal_digits m e) as [Hd Hl].
  destruct (shortest_decimal m e) as [ds n]. cbn [fst snd] in *.
  assert (Hsg : no_e (if sx then "-" else "") = true) by (destruct sx; reflexivity).
  rewrite !append_assoc. change ("e" ++ X) with (String "e" X).
  unfold render_decimal. fold (len ds).
  destruct (Z.leb_spec (len ds) n) as [Hk|Hk];
    [replace (n <=? 21) with true by (symmetry; apply Z.leb_le; lia)|];
    cbn [andb].
  - (* digits followed by zeros *)
    split.
    + apply split_no_e. rewrite no_e_app, Hsg, no_e_app, (no_e_digits ds Hd).
      rewrite (no_e_digits _ (all_digits_zeros _)). reflexivity.
    + rewrite append_assoc.
      rewrite <- (append_assoc ds).
      rewrite read_plain with (ev := p); try assumption.
      * unfold Digits.value. rewrite value_acc_app, value_acc_zeros.
        fold (Digits.value ds). rewrite Z2Nat.id by lia.
        rewrite of_decimal_scaled by lia. reflexivity.
      * rewrite all_digits_app, Hd, all_digits_zeros. reflexivity.
      * rewrite len_append. pose proof (len_nonneg (Digits.zeros (Z.to_nat (n - len ds)))). lia.
  - destruct (Z.ltb_spec 0 n) as [Hpos|Hneg];
      [replace (n <=? 21) with true by (symmetry; apply Z.leb_le; lia)|];
      cbn [andb].
    + (* a point inside the digits *)
      destruct (prefix_drop ds (Z.to_nat n)) as (E1 & E2 & E3).
      { unfold len in Hk. lia. }
      rewrite Z2Nat.id in E2, E3 by lia.
      assert (Hboth : all_digits (Digits.prefix_len (Z.to_nat n) ds) = true
                      /\ all_digits (Digits.drop_len (Z.to_nat n) ds) = true).
      { apply all_digits_split. rewrite E1. exact Hd. }
      destruct Hboth as [Ha Hb].
      split.
      * apply split_no_e. rewrite no_e_app, Hsg, no_e_app.
        rewrite (no_e_digits _ Ha). cbn. apply no_e_digits. exact Hb.
      * rewrite append_assoc. cbn [String.append].
        rewrite (read_pointed sx (Digits.prefix_len (Z.to_nat n) ds)
                   (Digits.drop_len (Z.to_nat n) ds) X p);
          try assumption; try lia.
        rewrite E1, E3. f_equal. lia.
    + (* zeros between the point and the digits *)
      replace ((-6 <? n) && (n <=? 0)) with true
        by (symmetry; apply andb_true_iff; split;
            [apply Z.ltb_lt|apply Z.leb_le]; lia).
      split.
      * apply split_no_e. rewrite no_e_app, Hsg. cbn.
        rewrite no_e_app, (no_e_digits _ (all_digits_zeros _)).
        apply no_e_digits. exact Hd.
      * cbn [String.append]. rewrite append_assoc.
        pose proof (read_pointed sx "0" (Digits.zeros (Z.to_nat (- n)) ++ ds)
                      X p eq_refl) as RP.
        cbn [String.append] in RP. rewrite append_assoc in RP.
        rewrite RP; try assumption.
        -- rewrite value_leading_zeros.
           rewrite len_append, len_zeros, Z2Nat.id by lia. f_equal. lia.
        -- cbn. lia.
        -- rewrite all_digits_app, all_digits_zeros. exact Hd.
Qed.

(** ** Printing the rounded integer back *)

Lemma pow10_le_pow2 (p : Z) : 0 <= p <= 100 -> 10 ^ p <= 2 ^ 1000.
Proof.
  intros H. assert (10 ^ p <= 10 ^ 100) by (apply Z.pow_le_mono_r; lia).
  assert (10 ^ 100 <= 2 ^ 1000) by (apply Z.leb_le; vm_compute; reflexivity).
  lia.
Qed.

Lemma mul_cancel_abs (d u b : Z) :
  0 < d -> Z.abs (d * u) <= d * b -> Z.abs u <= b.
Proof.
  intros Hd H. rewrite Z.abs_mul, (Z.abs_eq d) in H by lia. nia.
Qed.

Lemma fixed_of_rounded (n d R p : Z) (m : positive) (a : Z) :
  0 < n -> 0 < d -> 0 < R < 2 ^ 51 -> 0 <= p ->
  n * 10 ^ p = R * d -> rounds_to n d m a ->
  1 <= a
  /\ Zpos m < 10 ^ 21 * 2 ^ a
  /\ (2 * Zpos m * 10 ^ p + 2 ^ a) / (2 * 2 ^ a) = R.
Proof.
  intros Hn Hd HR Hp Hnd (Ha & Hm & Herr & Hbin).
  assert (HP : 0 < 10 ^ p) by (apply Z.pow_pos_nonneg; lia).
  assert (HD : 0 < 2 ^ a) by (apply Z.pow_pos_nonneg; lia).
  set (P := 10 ^ p) in *. set (Da := 2 ^ a) in *.
  assert (Hn' : n <= R * d) by nia.
  (* the error, scaled by [10^p] *)
  assert (Herr' : Z.abs (2 * (Zpos m * P - R * Da)) <= P).
  { apply (mul_cancel_abs d); [exact Hd|].
    replace (d * (2 * (Zpos m * P - R * Da)))
      with (P * (2 * (Zpos m * d - n * Da))) by nia.
    rewrite Z.abs_mul, (Z.abs_eq P) by lia. nia. }
  assert (HPD : P < Da).
  { destruct Hbin as [Hb|[Hb1 Hb2]].
    - assert (2 ^ 52 * P * d <= R * d * Da) by nia.
      assert (2 ^ 52 * P <= R * Da) by nia. nia.
    - assert (4 * 2 ^ 52 * P * d <= (4 * R * Da + P) * d) by nia.
      assert (4 * 2 ^ 52 * P <= 4 * R * Da + P) by nia. nia. }
  split; [|split].
  - destruct (Z.eq_dec a 0) as [E|]; [|lia].
    subst Da. rewrite E in *. change (2 ^ 0) with 1 in *. lia.
  - lia.
  - symmetry. apply (Z.div_unique _ _ _ (2 * Zpos m * P + Da - 2 * Da * R)).
    + lia.
    + lia.
Qed.

Lemma to_fixed_of_ratio (sg : bool) (n d R p : Z) (P' : Value) :
  0 < n -> 0 < d -> 0 < R < 2 ^ 51 -> 0 <= p <= 100 ->
  n * 10 ^ p = R * d ->
  to_integer_or_infinity (to_number P') = Some p ->
  to_fixed (Num.of_ratio sg n d) P'
  = Normal ((if sg then "-" else "") ++ point (Digits.render R) p).
Proof.
  intros Hn Hd HR Hp Hnd Hi.
  assert (HP : 0 < 10 ^ p) by (apply Z.pow_pos_nonneg; lia).
  pose proof (pow10_le_pow2 p Hp) as HP2.
  destruct (of_ratio_spec sg n d) as (m & a & E & Hr); try lia.
  { nia. }
  { assert (d <= n * 10 ^ p) by nia. nia. }
  destruct (fixed_of_rounded n d R p m a Hn Hd HR ltac:(lia) Hnd Hr)
    as (Ha & Hlt & Hq).
  rewrite E. unfold to_fixed. rewrite Hi.
  replace ((p <? 0) || (100 <? p)) with false
    by (symmetry; apply orb_false_iff; split; apply Z.ltb_ge; lia).
  unfold Num.ratio_of.
  replace (0 <=? - a) with false by (symmetry; apply Z.leb_gt; lia).
  rewrite Z.opp_involutive.
  replace (10 ^ 21 * 2 ^ a <=? Zpos m) with false
    by (symmetry; apply Z.leb_gt; exact Hlt).
  unfold fixed_digits. rewrite Hq. reflexivity.
Qed.

Lemma to_fixed_shifted_back (sg : bool) (R p : Z) (P' : Value) :
  0 < R < 2 ^ 51 -> 0 <= p <= 100 ->
  to_integer_or_infinity (to_number P') = Some p ->
  to_fixed (Num.of_decimal sg R (- p)) P'
  = Normal ((if sg then "-" else "") ++ point (Digits.render R) p).
Proof.
  intros HR Hp Hi. unfold Num.of_decimal.
  destruct (Z.leb_spec 0 (- p)) as [H0|H0].
  - assert (p = 0) by lia. subst p. change (10 ^ (- 0)) with 1.
    apply to_fixed_of_ratio; try assumption; try lia.
  - rewrite Z.opp_involutive.
    assert (0 < 10 ^ p) by (apply Z.pow_pos_nonneg; lia).
    apply to_fixed_of_ratio; try assumption; lia.
Qed.

Lemma of_decimal_zero (s : bool) (e : Z) : Num.of_decimal s 0 e = S754_zero s.
Proof. unfold Num.of_decimal. destruct (0 <=? e); reflexivity. Qed.

Lemma back_zero (s : bool) (p : Z) :
  0 <= p <= 100 ->
  back (S754_zero s) (number p) = Normal (VString (decimal_text 0 p)).
Proof.
  intros Hp.
  destruct (exponent_texts p ltac:(lia)) as (_ & Hi & _ & (X & EX & NX & PX)).
  unfold back.
  change (split "e" (to_string (plus (VString "") (VNumber (S754_zero s)))))
    with ["0"%string].
  cbn [index nth_error truthy].
  change (plus (VString "0") (VString "e")) with (VString "0e").
  cbn [plus to_string to_number]. rewrite EX.
  pose proof (read_plain false "0" X (- p) eq_refl ltac:(cbn; lia) NX PX) as RP.
  cbn [String.append] in RP |- *. rewrite RP.
  change (Digits.value "0") with 0. rewrite of_decimal_zero.
  unfold to_fixed. rewrite Hi.
  replace ((p <? 0) || (100 <? p)) with false
    by (symmetry; apply orb_false_iff; split; apply Z.ltb_ge; lia).
  unfold fixed_digits, decimal_text.
  replace ((2 * 0 * 10 ^ p + 1) / (2 * 1)) with 0 by reflexivity.
  reflexivity.
Qed.

Lemma back_integer (R p : Z) :
  R <> 0 -> Z.abs R < 2 ^ 51 -> 0 <= p <= 100 ->
  back (Num.of_Z R) (number p) = Normal (VString (decimal_text R p)).
Proof.
  intros HR0 HR Hp.
  destruct (exponent_texts p ltac:(lia)) as (_ & Hi & _ & (X & EX & NX & PX)).
  destruct (integer_text (R <? 0) (Z.abs R) ltac:(lia))
    as (T & ET & HT & VT & LT).
  unfold back, Num.of_Z.
  assert (Etext : to_string (plus (VString "")
                    (VNumber (Num.of_ratio (R <? 0) (Z.abs R) 1)))
                  = (if R <? 0 then "-" else "") ++ T).
  { cbn [plus to_string String.append]. exact ET. }
  rewrite Etext.
  assert (Hne : no_e ((if R <? 0 then "-" else "") ++ T) = true).
  { rewrite no_e_app, (no_e_digits T HT). destruct (R <? 0); reflexivity. }
  rewrite (split_no_e _ Hne).
  cbn [index nth_error truthy].
  cbn [plus to_string to_number]. rewrite EX.
  rewrite !append_assoc. change ("e" ++ X) with (String "e" X).
  rewrite (read_plain (R <? 0) T X (- p) HT LT NX PX), VT.
  rewrite (to_fixed_shifted_back (R <? 0) (Z.abs R) p (number p));
    try lia; [|exact Hi].
  reflexivity.
Qed.

Lemma nearest_integer_up_sign (s : bool) (N D : Z) :
  0 < N -> 0 < D ->
  let R := nearest_integer_up s N D in
  (R <> 0 -> (R <? 0) = s) /\ 2 * D * R - D <= (if s then - 2 * N else 2 * N)
  /\ (if s then - 2 * N else 2 * N) < 2 * D * R + D.
Proof.
  intros HN HD. cbv zeta. unfold nearest_integer_up. destruct s.
  - pose proof (Z.div_mod (D - 2 * N) (2 * D) ltac:(lia)) as H.
    pose proof (Z.mod_pos_bound (D - 2 * N) (2 * D) ltac:(lia)) as Hb.
    assert (Hle : (D - 2 * N) / (2 * D) <= 0).
    { apply Z.lt_succ_r. apply Z.div_lt_upper_bound; lia. }
    split; [intros Hne; apply Z.ltb_lt; lia|]. split; lia.
  - pose proof (Z.div_mod (2 * N + D) (2 * D) ltac:(lia)) as H.
    pose proof (Z.mod_pos_bound (2 * N + D) (2 * D) ltac:(lia)) as Hb.
    assert (Hge : 0 <= (2 * N + D) / (2 * D)) by (apply Z.div_pos; lia).
    split; [intros Hne; apply Z.ltb_ge; lia|]. split; lia.
Qed.

Lemma math_round_fraction (s : bool) (m : positive) (e : Z) :
  e < 0 ->
  math_round (S754_finite s m e) =
  if integer_nearest (S754_finite s m e) =? 0 then S754_zero s
  else Num.of_Z (integer_nearest (S754_finite s m e)).
Proof.
  intros He. unfold math_round, integer_nearest.
  replace (0 <=? e) with false by (symmetry; apply Z.leb_gt; lia).
  destruct (Num.ratio_of m e) as [N D].
  destruct (nearest_integer_up s N D); reflexivity.
Qed.

Lemma round_characterised (x : spec_float) (p : Z) :
  roundable x p = true ->
  round (VNumber x) (number p)
  = Normal (VString (decimal_text (integer_nearest (shifted x p)) p)).
Proof.
  destruct x as [| | |sx m e]; try discriminate. unfold roundable.
  intros H. apply andb_true_iff in H as [H Hy].
  apply andb_true_iff in H as [H Hp2]. apply andb_true_iff in H as [H Hp1].
  apply andb_true_iff in H as [Hn1 Hn2].
  apply Z.ltb_lt in Hn1. apply Z.leb_le in Hn2, Hp1, Hp2.
  destruct (exponent_texts p ltac:(lia)) as (Hor & _ & (X & EX & NX & PX) & _).
  destruct (first_shift sx m e p X ltac:(lia) Hp1 NX PX) as [Hsplit Hshift].
  unfold round. rewrite Hor. fold (back
    (math_round
       (to_number
          (plus
             (plus
                (index
                   (split "e"
                      (to_string
                         (plus (VString "") (VNumber (S754_finite sx m e)))))
                   0)
                (VString "e"))
             (if
               truthy
                 (index
                    (split "e"
                       (to_string
                          (plus (VString "") (VNumber (S754_finite sx m e)))))
                    1)
              then
               plus
                 (VNumber
                    (to_number
                       (index
                          (split "e"
                             (to_string
                                (plus (VString "")
                                   (VNumber (S754_finite sx m e)))))
                          1)))
                 (number p)
              else number p)))) (number p)).
  change (to_string (plus (VString "") (VNumber (S754_finite sx m e))))
    with (number_to_string (S754_finite sx m e)).
  rewrite Hsplit. cbn [index nth_error truthy].
  cbn [plus to_string to_number]. rewrite EX, Hshift.
  destruct (shifted (S754_finite sx m e) p) as [| | |sy my ey] eqn:Ey;
    try discriminate.
  apply andb_true_iff in Hy as [Hey HR].
  apply Z.ltb_lt in Hey, HR.
  rewrite (math_round_fraction sy my ey Hey).
  destruct (Z.eqb_spec (integer_nearest (S754_finite sy my ey)) 0) as [E0|E0].
  - rewrite E0. apply back_zero. lia.
  - apply back_integer; [exact E0|exact HR|lia].
Qed.

(** ** Ties *)

Lemma of_ratio_half (s : bool) (n d j : Z) :
  0 < n -> 0 < d -> 0 <= j < 2 ^ 50 -> 2 * n = (2 * j + 1) * d ->
  exists m a,
    Num.of_ratio s n d = S754_finite s m (- a)
    /\ 1 <= a /\ 2 * Zpos m = (2 * j + 1) * 2 ^ a.
Proof.
  intros Hn Hd Hj Hnd.
  destruct (of_ratio_spec s n d) as (m & a & E & Ha & Hm & Herr & _);
    try lia.
  { nia. }
  exists m, a. split; [exact E|].
  assert (HD : 0 < 2 ^ a) by (apply Z.pow_pos_nonneg; lia).
  assert (Herr' : Z.abs (2 * Zpos m - (2 * j + 1) * 2 ^ a) <= 1).
  { apply (mul_cancel_abs d); [exact Hd|].
    replace (d * (2 * Zpos m - (2 * j + 1) * 2 ^ a))
      with (2 * (Zpos m * d - n * 2 ^ a)) by nia.
    lia. }
  destruct (Z.eq_dec a 0) as [E0|E0].
  - exfalso. rewrite E0 in *. change (2 ^ 0) with 1 in *. lia.
  - split; [lia|].
    assert (Hp : 2 ^ a = 2 * 2 ^ (a - 1)).
    { rewrite <- Z.pow_succ_r by lia. f_equal. lia. }
    lia.
Qed.

Lemma integer_nearest_half (s : bool) (m : positive) (a j : Z) :
  1 <= a -> 0 <= j -> 2 * Zpos m = (2 * j + 1) * 2 ^ a ->
  integer_nearest (S754_finite s m (- a)) = if s then - j else j + 1.
Proof.
  intros Ha Hj Hm. unfold integer_nearest, Num.ratio_of.
  replace (0 <=? - a) with false by (symmetry; apply Z.leb_gt; lia).
  rewrite Z.opp_involutive.
  assert (HD : 0 < 2 ^ a) by (apply Z.pow_pos_nonneg; lia).
  unfold nearest_integer_up. destruct s.
  - symmetry. apply (Z.div_unique _ _ _ 0); lia.
  - symmetry. apply (Z.div_unique _ _ _ 0); lia.
Qed.

Lemma shifted_ratio (s : bool) (V E : Z) :
  let '(num, den) := scale V 1 (- E) in
  Num.of_decimal s V E = Num.of_ratio s num den \/ E = 0.
Proof.
  unfold scale, Num.of_decimal.
  destruct (Z.leb_spec 0 (- E)) as [H1|H1];
    destruct (Z.leb_spec 0 E) as [H2|H2]; try lia.
  - left. rewrite Z.mul_1_l. reflexivity.
  - left. rewrite Z.opp_involutive. reflexivity.
Qed.

Lemma round_tie (sx : bool) (m : positive) (e p j : Z) :
  -6 < snd (shortest_decimal m e) <= 21 -> 0 <= p <= 100 ->
  0 <= j < 2 ^ 50 ->
  2 * fst (shifted_decimal m e p) = (2 * j + 1) * snd (shifted_decimal m e p) ->
  0 < snd (shifted_decimal m e p) ->
  round (VNumber (S754_finite sx m e)) (number p)
  = Normal (VString (decimal_text (if sx then - j else j + 1) p)).
Proof.
  intros Hn Hp Hj Htie Hden.
  assert (Hy : exists my a,
             shifted (S754_finite sx m e) p = S754_finite sx my (- a)
             /\ 1 <= a /\ 2 * Zpos my = (2 * j + 1) * 2 ^ a).
  { unfold shifted_decimal in Htie, Hden. cbn [shifted].
    destruct (shortest_decimal m e) as [ds n]. fold (len ds) in Htie, Hden.
    destruct (Z.eq_dec (n - len ds + p) 0) as [E0|E0].
    { exfalso. replace (len ds - n - p) with 0 in Htie by lia.
      unfold scale in Htie. change (0 <=? 0) with true in Htie.
      cbn [fst snd] in Htie. change (10 ^ 0) with 1 in Htie. lia. }
    pose proof (shifted_ratio sx (Digits.value ds) (n - len ds + p)) as HS.
    replace (- (n - len ds + p)) with (len ds - n - p) in HS by lia.
    destruct (scale (Digits.value ds) 1 (len ds - n - p)) as [num den].
    cbn [fst snd] in Htie, Hden.
    destruct HS as [HS|HS]; [|contradiction].
    rewrite HS. apply of_ratio_half; try assumption. nia. }
  destruct Hy as (my & a & Ey & Ha & Em).
  pose proof (integer_nearest_half sx my a j Ha ltac:(lia) Em) as HR.
  rewrite round_characterised.
  - rewrite Ey, HR. reflexivity.
  - unfold roundable. rewrite Ey, HR.
    repeat (apply andb_true_iff; split);
      try (apply Z.ltb_lt; lia); try (apply Z.leb_le; lia).
    apply Z.ltb_lt. destruct sx; lia.
Qed.

(** ** The text of a rounded value *)

Lemma point_shape (m : string) (f : Z) :
  all_digits m = true -> 1 <= len m -> 0 < f ->
  exists a b,
    point m f = a ++ String "." b
    /\ all_digits a = true /\ 1 <= len a
    /\ all_digits b = true /\ len b = f
    /\ Digits.value (a ++ b) = Digits.value m.
Proof.
  intros Hm Hl Hf. unfold point.
  replace (f =? 0) with false by (symmetry; apply Z.eqb_neq; lia).
  fold (len m).
  set (m' := if len m <=? f
             then Digits.zeros (Z.to_nat (f + 1 - len m)) ++ m else m).
  set (k' := if len m <=? f then f + 1 else len m).
  assert (H' : all_digits m' = true /\ len m' = k' /\ f < k'
               /\ Digits.value m' = Digits.value m).
  { subst m' k'. destruct (Z.leb_spec (len m) f) as [H|H].
    - rewrite all_digits_app, all_digits_zeros, Hm, len_append, len_zeros.
      rewrite Z2Nat.id by lia. repeat split; try lia.
      unfold Digits.value. rewrite value_acc_app, value_acc_zeros.
      reflexivity.
    - repeat split; try assumption; lia. }
  destruct H' as (Hd & Hk & Hfk & Hv).
  destruct (prefix_drop m' (Z.to_nat (k' - f))) as (E1 & E2 & E3).
  { unfold len in Hk. lia. }
  rewrite Z2Nat.id in E2, E3 by lia.
  destruct (all_digits_split _ _ (eq_trans (f_equal all_digits E1) Hd))
    as [Ha Hb].
  exists (Digits.prefix_len (Z.to_nat (k' - f)) m'),
    (Digits.drop_len (Z.to_nat (k' - f)) m').
  split; [reflexivity|]. split; [exact Ha|]. split; [lia|].
  split; [exact Hb|]. split; [lia|]. rewrite E1. exact Hv.
Qed.

Lemma decimal_text_shape (r p : Z) :
  0 < p ->
  exists a b,
    decimal_text r p = (if r <? 0 then "-" else "") ++ a ++ String "." b
    /\ all_digits a = true /\ 1 <= len a
    /\ all_digits b = true /\ len b = p
    /\ Digits.value (a ++ b) = Z.abs r.
Proof.
  intros Hp. unfold decimal_text.
  destruct (render_spec (Z.abs r) ltac:(lia)) as (H1 & _ & H2 & _).
  destruct (point_shape (Digits.render (Z.abs r)) p H1 H2 Hp)
    as (a & b & E & Ha & Hla & Hb & Hlb & Hv).
  exists a, b. rewrite E, Hv, value_render by lia.
  repeat split; assumption.
Qed.

(** * Further properties *)

(** ** The order [clamp] keeps *)

Lemma before_spec (x y : spec_float) :
  Num.is_nan x = false -> Num.is_nan y = false ->
  before x y = true <-> placed_before x y.
Proof.
  unfold placed_before.
  destruct x as [[|]|[|]| |[|] m e], y as [[|]|[|]| |[|] m' e'];
    cbn; intros Hx Hy; try discriminate;
    try (split; [intros; lia | reflexivity]);
    try (split; [discriminate | lia]).
  - unfold before, Num.ltb, SFltb, SFcompare. cbn [Num.is_neg_zero andb orb].
    rewrite Pos.compare_cont_spec. cbn [Pos.switch_Eq].
    destruct (Z.compare_spec e e'); destruct (Pos.compare_spec m m');
      cbn; split; try discriminate; try reflexivity; intros; try lia.
  - unfold before, Num.ltb, SFltb, SFcompare. cbn [Num.is_neg_zero andb orb].
    rewrite Pos.compare_cont_spec. cbn [Pos.switch_Eq].
    destruct (Z.compare_spec e e'); destruct (Pos.compare_spec m m');
      cbn; split; try discriminate; try reflexivity; intros; try lia.
Qed.

Lemma num_ltb_spec (x y : spec_float) :
  Num.is_nan x = false -> Num.is_nan y = false ->
  Num.ltb x y = true
  <-> placed_before x y /\ ~ (class_of x = -1 /\ class_of y = 1).
Proof.
  intros Hx Hy. rewrite <- (before_spec x y Hx Hy). unfold before.
  destruct x as [[|]|[|]| |[|] m e], y as [[|]|[|]| |[|] m' e'];
    try discriminate; cbn [Num.is_neg_zero Num.is_pos_zero andb orb class_of];
    try (split; [intros H; split; [exact H|lia] | intros [H _]; exact H]).
  split; [discriminate|]. intros [_ H]. exfalso. apply H. split; reflexivity.
Qed.

Lemma num_eqb_spec (x y : spec_float) :
  Num.is_nan x = false -> Num.is_nan y = false ->
  Num.eqb x y = true
  <-> x = y \/ (Z.abs (class_of x) = 1 /\ Z.abs (class_of y) = 1).
Proof.
  intros Hx Hy.
  destruct x as [[|]|[|]| |[|] m e], y as [[|]|[|]| |[|] m' e'];
    try discriminate; cbn;
    try (split; [intros _; (left; reflexivity) || (right; split; reflexivity)
                | reflexivity]);
    try (split; [discriminate | intros [H|[H1 H2]]; [discriminate H|lia]]).
  - unfold Num.eqb, SFeqb, SFcompare. rewrite Pos.compare_cont_spec.
    cbn [Pos.switch_Eq].
    destruct (Z.compare_spec e e'); destruct (Pos.compare_spec m m');
      cbn; split; try discriminate; try reflexivity;
      try (intros [H'|[H1 H2]]; [injection H' as -> ->; lia | lia]).
    intros _. left. subst. reflexivity.
  - unfold Num.eqb, SFeqb, SFcompare. rewrite Pos.compare_cont_spec.
    cbn [Pos.switch_Eq].
    destruct (Z.compare_spec e e'); destruct (Pos.compare_spec m m');
      cbn; split; try discriminate; try reflexivity;
      try (intros [H'|[H1 H2]]; [injection H' as -> ->; lia | lia]).
    intros _. left. subst. reflexivity.
Qed.

Lemma min_step_before (lowest number : spec_float) :
  min_step lowest number = if before number lowest then number else lowest.
Proof.
  unfold min_step, before.
  destruct (Num.is_neg_zero number && Num.is_pos_zero lowest); reflexivity.
Qed.

Lemma max_step_before (highest number : spec_float) :
  max_step highest number = if before highest number then number else highest.
Proof.
  unfold max_step, before. rewrite andb_comm.
  destruct (Num.is_neg_zero highest && Num.is_pos_zero number); reflexivity.
Qed.

Lemma min_step_not_nan (x y : spec_float) :
  Num.is_nan x = false -> Num.is_nan y = false ->
  Num.is_nan (min_step x y) = false.
Proof.
  intros Hx Hy. rewrite min_step_before. destruct (before y x); assumption.
Qed.

Lemma max_step_not_nan (x y : spec_float) :
  Num.is_nan x = false -> Num.is_nan y = false ->
  Num.is_nan (max_step x y) = false.
Proof.
  intros Hx Hy. rewrite max_step_before. destruct (before x y); assumption.
Qed.

(** [Math.max(Math.min(x, hi), lo)] on numbers. *)
Lemma clamp_numbers (x lo hi : spec_float) :
  Num.is_nan x = false -> Num.is_nan lo = false -> Num.is_nan hi = false ->
  clamp (VNumber x) (VNumber lo) (VNumber hi)
  = VNumber (max_step (min_step x hi) lo).
Proof.
  intros Hx Hl Hh. unfold clamp. cbn [is_nullish strict_equal orb].
  unfold math_min, math_max. cbn [map to_number existsb fold_left].
  rewrite Hx, Hh. cbn [orb]. rewrite (min_step_infinity_l x Hx).
  rewrite (min_step_not_nan x hi Hx Hh), Hl. cbn [orb].
  rewrite (max_step_neg_infinity_l _ (min_step_not_nan x hi Hx Hh)).
  reflexivity.
Qed.

Lemma clamp_nan_bound (v lo hi : Value) :
  is_nullish v || strict_equal v (VString "") = false ->
  Num.is_nan (to_number v) = true
  \/ Num.is_nan (to_number (effective (VNumber Num.NegInfinity) lo)) = true
  \/ Num.is_nan (to_number (effective (VNumber Num.Infinity) hi)) = true ->
  clamp v lo hi = VNumber Num.NaN.
Proof.
  intros Hv H. unfold clamp. rewrite Hv. fold (effective (VNumber Num.Infinity) hi).
  fold (effective (VNumber Num.NegInfinity) lo).
  unfold math_min, math_max. cbn [map existsb to_number].
  destruct (Num.is_nan (to_number v)) eqn:Hx; [reflexivity|].
  destruct (Num.is_nan (to_number (effective (VNumber Num.Infinity) hi))) eqn:Hh;
    [reflexivity|].
  cbn [orb fold_left].
  destruct H as [H|[H|H]]; try discriminate. rewrite H.
  rewrite orb_true_r. reflexivity.
Qed.

Ltac order_facts :=
  repeat match goal with
  | H : before ?a ?b = true |- _ =>
      apply before_spec in H; [|assumption|assumption]
  | H : before ?a ?b = false |- _ =>
      apply not_true_iff_false in H;
      rewrite before_spec in H by assumption
  | H : Num.ltb ?a ?b = true |- _ =>
      apply num_ltb_spec in H; [|assumption|assumption]
  | H : Num.ltb ?a ?b = false |- _ =>
      apply not_true_iff_false in H;
      rewrite num_ltb_spec in H by assumption
  end;
  unfold placed_before in *.

Lemma num_le_spec (x y : spec_float) :
  num_le x y = true
  <-> Num.is_nan x = false /\ Num.is_nan y = false /\ Num.ltb y x = false.
Proof.
  unfold num_le.
  destruct (Num.is_nan x), (Num.is_nan y), (Num.ltb y x); cbn;
    intuition congruence.
Qed.

Ltac shapes :=
  repeat match goal with
  | x : spec_float |- _ =>
      destruct x as [[|]|[|]| |[|] ? ?]; try discriminate
  end;
  cbn [class_of exponent_of mantissa_of] in *.

(** X1. For a value that is a number other than NaN and bounds [lo <= hi],
    [clamp] returns a number between the two bounds, and that number is the
    value itself or one of the bounds. *)
Theorem clamp_in_range (x lo hi : spec_float) :
  Num.is_nan x = false -> num_le lo hi = true ->
  exists z,
    clamp (VNumber x) (VNumber lo) (VNumber hi) = VNumber z
    /\ num_le lo z = true /\ num_le z hi = true
    /\ (z = x \/ z = lo \/ z = hi).
Proof.
  intros Hx H. apply num_le_spec in H. destruct H as (Hl & Hh & H).
  rewrite (clamp_numbers x lo hi Hx Hl Hh).
  exists (max_step (min_step x hi) lo). split; [reflexivity|].
  rewrite !num_le_spec.
  pose proof (min_step_not_nan x hi Hx Hh) as Hm.
  pose proof (max_step_not_nan _ lo Hm Hl) as Hr.
  rewrite max_step_before in *. rewrite min_step_before in *.
  destruct (before hi x) eqn:B1;
    [destruct (before hi lo) eqn:B2 | destruct (before x lo) eqn:B2];
    (repeat split; try assumption; try tauto);
    apply not_true_iff_false; intros C; order_facts; lia.
Qed.

(** X2. For bounds [lo <= hi], [clamp] hands a number back unchanged (as
    [===] compares the two) exactly when the number lies between the
    bounds. *)
Theorem clamp_keeps_what_is_in_range (x lo hi : spec_float) :
  Num.is_nan x = false -> num_le lo hi = true ->
  strict_equal (clamp (VNumber x) (VNumber lo) (VNumber hi)) (VNumber x)
  = num_le lo x && num_le x hi.
Proof.
  intros Hx H. apply num_le_spec in H. destruct H as (Hl & Hh & H).
  rewrite (clamp_numbers x lo hi Hx Hl Hh). cbn [strict_equal].
  pose proof (min_step_not_nan x hi Hx Hh) as Hm.
  pose proof (max_step_not_nan _ lo Hm Hl) as Hr.
  apply eq_true_iff_eq. rewrite andb_true_iff, !num_le_spec.
  rewrite (num_eqb_spec _ x Hr Hx).
  rewrite max_step_before in *. rewrite min_step_before in *.
  destruct (before hi x) eqn:B1;
    [destruct (before hi lo) eqn:B2 | destruct (before x lo) eqn:B2];
    destruct (Num.ltb x lo) eqn:L1; destruct (Num.ltb hi x) eqn:L2;
    order_facts; clear Hm Hr;
    (split;
     [ intros E; repeat split; try assumption; exfalso; shapes;
       destruct E as [E|E]; try discriminate E; try injection E as ? ?;
       lia
     | intros ((_ & _ & C1) & (_ & _ & C2)); try discriminate;
       shapes; try (left; reflexivity); try (right; lia);
       try (left; f_equal; lia); exfalso; lia ]).
Qed.

Lemma before_irrefl (x : spec_float) : before x x = false.
Proof.
  destruct (Num.is_nan x) eqn:Hx; [destruct x; try discriminate; reflexivity|].
  apply not_true_iff_false. intros C. order_facts. lia.
Qed.

Lemma clamp_numbers_twice (x lo hi : spec_float) :
  Num.is_nan x = false -> Num.is_nan lo = false -> Num.is_nan hi = false ->
  max_step (min_step (max_step (min_step x hi) lo) hi) lo
  = max_step (min_step x hi) lo.
Proof.
  intros Hx Hl Hh. rewrite !max_step_before, !min_step_before.
  destruct (before hi x) eqn:B1; destruct (before hi lo) eqn:B2;
    rewrite ?B1, ?B2, ?before_irrefl, ?B2; try reflexivity.
  - destruct (before x lo) eqn:B3; rewrite ?B2, ?B1, ?B3; reflexivity.
  - destruct (before x lo) eqn:B3;
      rewrite ?B2, ?B1, ?B3, ?before_irrefl; reflexivity.
Qed.

Lemma clamp_clamp (value min max : Value) :
  clamp (clamp value min max) min max = clamp value min max.
Proof.
  destruct (is_nullish value || strict_equal value (VString "")) eqn:Hv.
  - assert (E : clamp value min max = VNull)
      by (unfold clamp; rewrite Hv; reflexivity).
    rewrite E. reflexivity.
  - set (lo := effective (VNumber Num.NegInfinity) min).
    set (hi := effective (VNumber Num.Infinity) max).
    destruct (Num.is_nan (to_number value)) eqn:Hx;
      [rewrite (clamp_nan_bound value min max Hv) by (left; exact Hx);
       apply clamp_nan|].
    destruct (Num.is_nan (to_number lo)) eqn:Hl;
      [rewrite (clamp_nan_bound value min max Hv)
         by (right; left; exact Hl); apply clamp_nan|].
    destruct (Num.is_nan (to_number hi)) eqn:Hh;
      [rewrite (clamp_nan_bound value min max Hv)
         by (right; right; exact Hh); apply clamp_nan|].
    assert (E : forall v,
              is_nullish v || strict_equal v (VString "") = false ->
              Num.is_nan (to_number v) = false ->
              clamp v min max
              = VNumber
                  (max_step (min_step (to_number v) (to_number hi))
                     (to_number lo))).
    { intros v Hv' Hx'. unfold clamp. rewrite Hv'.
      change (if is_nullish max then VNumber Num.Infinity else max) with hi.
      change (if is_nullish min then VNumber Num.NegInfinity else min)
        with lo.
      unfold math_min, math_max. cbn [map to_number existsb fold_left].
      rewrite Hx', Hh. cbn [orb]. rewrite (min_step_infinity_l _ Hx').
      rewrite (min_step_not_nan _ _ Hx' Hh), Hl. cbn [orb].
      rewrite (max_step_neg_infinity_l _ (min_step_not_nan _ _ Hx' Hh)).
      reflexivity. }
    rewrite (E value Hv Hx). rewrite E.
    + cbn [to_number]. rewrite clamp_numbers_twice by assumption.
      reflexivity.
    + reflexivity.
    + cbn [to_number]. apply max_step_not_nan; [|exact Hl].
      apply min_step_not_nan; assumption.
Qed.

Lemma min_step_mono (x y a : spec_float) :
  Num.is_nan x = false -> Num.is_nan y = false -> Num.is_nan a = false ->
  before y x = false -> before (min_step y a) (min_step x a) = false.
Proof.
  intros Hx Hy Ha H. rewrite !min_step_before.
  destruct (before a x) eqn:B1; destruct (before a y) eqn:B2;
    rewrite ?before_irrefl; try reflexivity; try assumption;
    apply not_true_iff_false; intros C; order_facts; shapes; lia.
Qed.

Lemma max_step_mono (x y b : spec_float) :
  Num.is_nan x = false -> Num.is_nan y = false -> Num.is_nan b = false ->
  before y x = false -> before (max_step y b) (max_step x b) = false.
Proof.
  intros Hx Hy Hb H. rewrite !max_step_before.
  destruct (before x b) eqn:B1; destruct (before y b) eqn:B2;
    rewrite ?before_irrefl; try reflexivity; try assumption;
    apply not_true_iff_false; intros C; order_facts; shapes; lia.
Qed.

Lemma ltb_before (x y : spec_float) :
  Num.ltb x y = true -> before x y = true.
Proof. intros H. unfold before. rewrite H. apply orb_true_r. Qed.

Lemma before_not_ltb (x y : spec_float) :
  before x y = true -> Num.ltb x y = false ->
  x = S754_zero true /\ y = S754_zero false.
Proof.
  unfold before. intros H L. rewrite L, orb_false_r in H.
  destruct x as [[|]|[|]| |[|] m e]; try discriminate;
    destruct y as [[|]|[|]| |[|] m' e']; try discriminate.
  split; reflexivity.
Qed.

(** X3. [clamp] is idempotent, whatever the value and the bounds are
    (numbers, NaN, strings, null, undefined, crossed bounds): clamping its
    result again with the same bounds gives the same result, and a number it
    returned is returned as it is. *)
Theorem clamp_idempotent (value min max : Value) :
  clamp (clamp value min max) min max = clamp value min max
  /\ (forall x, clamp value min max = VNumber x ->
      clamp (VNumber x) min max = VNumber x).
Proof.
  split; [apply clamp_clamp|].
  intros x E. rewrite <- E at 1. rewrite clamp_clamp. exact E.
Qed.

(** X4. [clamp] is monotone in the value: for numbers [x <= y] and bounds
    that are numbers (in any order), the clamp of [x] is at most the clamp
    of [y]. *)
Theorem clamp_monotone (x y lo hi : spec_float) :
  num_le x y = true -> Num.is_nan lo = false -> Num.is_nan hi = false ->
  exists x' y',
    clamp (VNumber x) (VNumber lo) (VNumber hi) = VNumber x'
    /\ clamp (VNumber y) (VNumber lo) (VNumber hi) = VNumber y'
    /\ num_le x' y' = true.
Proof.
  intros H Hl Hh. apply num_le_spec in H. destruct H as (Hx & Hy & H).
  rewrite (clamp_numbers x lo hi Hx Hl Hh), (clamp_numbers y lo hi Hy Hl Hh).
  eexists; eexists. split; [reflexivity|]. split; [reflexivity|].
  apply num_le_spec.
  split; [apply max_step_not_nan; [apply min_step_not_nan|]; assumption|].
  split; [apply max_step_not_nan; [apply min_step_not_nan|]; assumption|].
  destruct (before y x) eqn:B.
  - destruct (before_not_ltb y x B H) as [-> ->].
    rewrite !max_step_before, !min_step_before.
    apply not_true_iff_false. intros C.
    repeat match type of C with
           | context [before ?a ?b] =>
               lazymatch a with
               | context [before _ _] => fail
               | _ => idtac
               end;
               destruct (before a b) eqn:?
           end;
      order_facts; shapes; lia.
  - apply not_true_iff_false. intros C. apply ltb_before in C.
    rewrite max_step_mono in C; try assumption; try discriminate;
      try (apply min_step_not_nan; assumption).
    apply min_step_mono; assumption.
Qed.

(** X5. When the bounds are crossed, [max < min], the lower bound wins:
    [clamp] returns [min] for every value that is a number other than
    NaN. *)
Theorem clamp_crossed_bounds (x lo hi : spec_float) :
  Num.is_nan x = false -> Num.ltb hi lo = true ->
  clamp (VNumber x) (VNumber lo) (VNumber hi) = VNumber lo.
Proof.
  intros Hx H.
  assert (Hl : Num.is_nan lo = false) by (destruct lo, hi; try reflexivity; discriminate).
  assert (Hh : Num.is_nan hi = false) by (destruct hi; try reflexivity; discriminate).
  rewrite (clamp_numbers x lo hi Hx Hl Hh). f_equal.
  rewrite max_step_before, min_step_before.
  destruct (before hi x) eqn:B1.
  - replace (before hi lo) with true; [reflexivity|].
    symmetry. apply before_spec; try assumption. order_facts. tauto.
  - replace (before x lo) with true; [reflexivity|].
    symmetry. apply before_spec; try assumption. order_facts. shapes; lia.
Qed.

(** ** Integers: order and addition *)

Lemma iter_pos_nat {A : Type} (f : A -> A) (p : positive) :
  forall x, iter_pos f p x = Nat.iter (Pos.to_nat p) f x.
Proof.
  induction p as [p IH|p IH|]; intros x; cbn [iter_pos].
  - rewrite !IH, Pos2Nat.inj_xI.
    replace (Datatypes.S (2 * Pos.to_nat p))
      with (Pos.to_nat p + Datatypes.S (Pos.to_nat p))%nat by lia.
    rewrite Nat.iter_add. f_equal. rewrite Nat.iter_succ_r. reflexivity.
  - rewrite !IH, Pos2Nat.inj_xO.
    replace (2 * Pos.to_nat p)%nat with (Pos.to_nat p + Pos.to_nat p)%nat
      by lia.
    rewrite Nat.iter_add. reflexivity.
  - reflexivity.
Qed.

Lemma iter_shr_exact (n : nat) :
  forall c : Z,
    0 < c ->
    Nat.iter n shr_1 (shr_record_of_loc (c * 2 ^ Z.of_nat n) loc_Exact)
    = shr_record_of_loc c loc_Exact.
Proof.
  induction n as [|n IH]; intros c Hc.
  - cbn [Z.of_nat]. rewrite Z.pow_0_r, Z.mul_1_r. reflexivity.
  - rewrite Nat.iter_succ.
    replace (c * 2 ^ Z.of_nat (Datatypes.S n)) with (2 * c * 2 ^ Z.of_nat n)
      by (rewrite Nat2Z.inj_succ, Z.pow_succ_r by lia; lia).
    rewrite IH by lia. destruct c as [|p|p]; try lia. reflexivity.
Qed.

Lemma shl_align_left (m : positive) (e e' : Z) :
  e' <= e ->
  Zpos (fst (shl_align m e e')) = Zpos m * 2 ^ (e - e').
Proof.
  intros H. unfold shl_align.
  destruct (e' - e) as [|d|d] eqn:E; try lia.
  - replace (e - e') with 0 by lia. cbn [fst]. lia.
  - cbn [fst]. change (Pos.iter xO m d) with (shift_pos d m).
    rewrite shift_pos_correct.
    replace (e - e') with (Zpos d) by lia.
    rewrite Z.mul_comm. reflexivity.
Qed.

Lemma shl_align_spec (m : positive) (e e' : Z) :
  (e' < e ->
   exists m', shl_align m e e' = (m', e')
              /\ Zpos m' = Zpos m * 2 ^ (e - e'))
  /\ (e <= e' -> shl_align m e e' = (m, e)).
Proof.
  unfold shl_align. split; intros H.
  - destruct (e' - e) as [|d|d] eqn:E; try lia.
    exists (Pos.iter xO m d). split; [reflexivity|].
    change (Pos.iter xO m d) with (shift_pos d m).
    rewrite shift_pos_correct. replace (e - e') with (Zpos d) by lia.
    rewrite Z.mul_comm. reflexivity.
  - destruct (e' - e) as [|d|d] eqn:E; try lia; reflexivity.
Qed.

Lemma binary_round_aux_integer (s : bool) (m : positive) (a k M : Z) :
  2 ^ 52 <= Zpos m < 2 ^ 53 -> 0 <= a <= 1074 -> a <= k ->
  M = Zpos m * 2 ^ (k - a) ->
  binary_round_aux Num.prec Num.emax s M (- k) loc_Exact
  = S754_finite s m (- a).
Proof.
  intros Hm Ha Hk HM.
  assert (P : 0 < 2 ^ (k - a)) by (apply Z.pow_pos_nonneg; lia).
  assert (Hd : Zdigits2 M = 53 + (k - a)).
  { apply Zdigits2_unique; [|nia].
    replace (53 + (k - a) - 1) with (52 + (k - a)) by lia.
    rewrite !Z.pow_add_r by lia. nia. }
  assert (Hd' : Zdigits2 (Zpos m) = 53) by (apply Zdigits2_unique; lia).
  assert (E : shr_fexp Num.prec Num.emax M (- k) loc_Exact
              = (shr_record_of_loc (Zpos m) loc_Exact, - a)).
  { unfold shr_fexp. rewrite Hd, fexp_normal by lia.
    replace (53 + (k - a) + - k - 53 - - k) with (k - a) by lia.
    unfold shr. destruct (k - a) as [|p|p] eqn:Ep; try lia.
    - rewrite HM. change (2 ^ 0) with 1. rewrite Z.mul_1_r.
      f_equal. lia.
    - rewrite iter_pos_nat, HM.
      rewrite <- (positive_nat_Z p), iter_shr_exact by lia.
      f_equal. lia. }
  assert (E' : shr_fexp Num.prec Num.emax (Zpos m) (- a) loc_Exact
               = (shr_record_of_loc (Zpos m) loc_Exact, - a)).
  { unfold shr_fexp. rewrite Hd', fexp_normal by lia.
    replace (53 + - a - 53 - - a) with 0 by lia. reflexivity. }
  transitivity (binary_round_aux Num.prec Num.emax s (Zpos m) (- a) loc_Exact).
  - unfold binary_round_aux. rewrite E, E'. reflexivity.
  - rewrite binary_round_aux_53 by lia. cbn [round_nearest_even].
    replace (Zpos m <? 2 ^ 53) with true by (symmetry; apply Z.ltb_lt; lia).
    reflexivity.
Qed.

Lemma binary_round_integer (s : bool) (R k : Z) (M : positive) :
  0 < R < 2 ^ 52 -> 0 <= k -> Zpos M = R * 2 ^ k ->
  binary_round Num.prec Num.emax s M (- k) = Num.of_ratio s R 1.
Proof.
  intros HR Hk HM.
  destruct (of_ratio_integer s R HR) as (m & a & -> & Ha & Em & Hm).
  assert (Pa : 0 < 2 ^ a) by (apply Z.pow_pos_nonneg; lia).
  assert (Pk : 0 < 2 ^ k) by (apply Z.pow_pos_nonneg; lia).
  assert (Ha52 : a <= 52).
  { destruct (Z_lt_le_dec 52 a) as [C|]; [exfalso|lia].
    assert (2 ^ 53 <= 2 ^ a) by (apply Z.pow_le_mono_r; lia). nia. }
  assert (Hd : Zpos (digits2_pos M) = 53 - a + k).
  { change (Zpos (digits2_pos M)) with (Zdigits2 (Zpos M)).
    apply Zdigits2_unique; [|lia].
    assert (E1 : 2 ^ (53 - a + k - 1) * 2 ^ a = 2 ^ 52 * 2 ^ k)
      by (rewrite <- !Z.pow_add_r by lia; f_equal; lia).
    assert (E2 : 2 ^ (53 - a + k) * 2 ^ a = 2 ^ 53 * 2 ^ k)
      by (rewrite <- !Z.pow_add_r by lia; f_equal; lia).
    nia. }
  unfold binary_round. rewrite Hd, fexp_normal by lia.
  replace (53 - a + k + - k - 53) with (- a) by lia.
  destruct (shl_align_spec M (- k) (- a)) as [S1 S2].
  destruct (Z_lt_le_dec k a) as [Hlt|Hge].
  - destruct S1 as (m' & -> & Em'); [lia|].
    apply (binary_round_aux_integer s m a a); try lia.
    rewrite Em', HM. replace (a - a) with 0 by lia.
    change (2 ^ 0) with 1.
    replace (- k - - a) with (a - k) by lia.
    replace (2 ^ a) with (2 ^ k * 2 ^ (a - k)) in Em
      by (rewrite <- Z.pow_add_r by lia; f_equal; lia).
    lia.
  - rewrite S2 by lia.
    apply (binary_round_aux_integer s m a k); try lia.
    rewrite HM.
    replace (2 ^ k) with (2 ^ a * 2 ^ (k - a))
      by (rewrite <- Z.pow_add_r by lia; f_equal; lia).
    lia.
Qed.

Lemma of_Z_zero : Num.of_Z 0 = S754_zero false.
Proof. reflexivity. Qed.

Lemma of_Z_shape (z : Z) :
  z <> 0 -> Z.abs z < 2 ^ 52 ->
  exists m a,
    Num.of_Z z = S754_finite (z <? 0) m (- a)
    /\ 1 <= a <= 52 /\ Zpos m = Z.abs z * 2 ^ a /\ 2 ^ 52 <= Zpos m < 2 ^ 53.
Proof.
  intros Hz Hb. unfold Num.of_Z.
  destruct (of_ratio_integer (z <? 0) (Z.abs z)) as (m & a & E & Ha & Em & Hm);
    [lia|].
  exists m, a. split; [exact E|]. split; [|split; assumption].
  split; [exact Ha|].
  destruct (Z_lt_le_dec 52 a) as [C|]; [exfalso|lia].
  assert (2 ^ 53 <= 2 ^ a) by (apply Z.pow_le_mono_r; lia). nia.
Qed.

Lemma of_Z_not_nan (z : Z) : Z.abs z < 2 ^ 52 -> Num.is_nan (Num.of_Z z) = false.
Proof.
  intros Hb. destruct (Z.eq_dec z 0) as [->|Hz]; [reflexivity|].
  destruct (of_Z_shape z Hz Hb) as (m & a & -> & _). reflexivity.
Qed.

(** Two integers in binary64 form compare as their exponents and mantissas
    do. *)
Lemma integer_order (R1 R2 a1 a2 m1 m2 : Z) :
  0 <= a1 -> 0 <= a2 ->
  m1 = R1 * 2 ^ a1 -> m2 = R2 * 2 ^ a2 ->
  2 ^ 52 <= m1 < 2 ^ 53 -> 2 ^ 52 <= m2 < 2 ^ 53 ->
  (R1 < R2 <-> (a2 < a1 \/ (a1 = a2 /\ m1 < m2))).
Proof.
  intros Ha1 Ha2 E1 E2 H1 H2.
  assert (P1 : 0 < 2 ^ a1) by (apply Z.pow_pos_nonneg; lia).
  assert (P2 : 0 < 2 ^ a2) by (apply Z.pow_pos_nonneg; lia).
  destruct (Z.lt_trichotomy a1 a2) as [L|[L|L]].
  - assert (E : 2 ^ a2 = 2 ^ a1 * 2 ^ (a2 - a1))
      by (rewrite <- Z.pow_add_r by lia; f_equal; lia).
    assert (2 ^ 1 <= 2 ^ (a2 - a1)) by (apply Z.pow_le_mono_r; lia).
    change (2 ^ 1) with 2 in *. split; [|lia]. intros C. exfalso. nia.
  - subst a2. split; [intros C; right; split; [reflexivity|nia]|].
    intros [C|[_ C]]; [lia|nia].
  - assert (E : 2 ^ a1 = 2 ^ a2 * 2 ^ (a1 - a2))
      by (rewrite <- Z.pow_add_r by lia; f_equal; lia).
    assert (2 ^ 1 <= 2 ^ (a1 - a2)) by (apply Z.pow_le_mono_r; lia).
    change (2 ^ 1) with 2 in *. split; [|intros _; nia]. intros _. left. lia.
Qed.

Lemma before_of_Z (x y : Z) :
  Z.abs x < 2 ^ 52 -> Z.abs y < 2 ^ 52 ->
  before (Num.of_Z x) (Num.of_Z y) = (x <? y).
Proof.
  intros Hx Hy. apply eq_true_iff_eq.
  rewrite (before_spec _ _ (of_Z_not_nan x Hx) (of_Z_not_nan y Hy)).
  rewrite Z.ltb_lt. unfold placed_before.
  destruct (Z.eq_dec x 0) as [->|Nx]; destruct (Z.eq_dec y 0) as [->|Ny].
  - cbn. lia.
  - destruct (of_Z_shape y Ny Hy) as (m & a & -> & Ha & Em & Hm).
    rewrite of_Z_zero. destruct (Z.ltb_spec y 0); cbn; lia.
  - destruct (of_Z_shape x Nx Hx) as (m & a & -> & Ha & Em & Hm).
    rewrite of_Z_zero. destruct (Z.ltb_spec x 0); cbn; lia.
  - destruct (of_Z_shape x Nx Hx) as (m & a & -> & Ha & Em & Hm).
    destruct (of_Z_shape y Ny Hy) as (m' & a' & -> & Ha' & Em' & Hm').
    destruct (Z.ltb_spec x 0); destruct (Z.ltb_spec y 0);
      cbn [class_of exponent_of mantissa_of]; try lia.
    + pose proof (integer_order (Z.abs y) (Z.abs x) a' a (Zpos m') (Zpos m)
                    ltac:(lia) ltac:(lia) Em' Em Hm' Hm). lia.
    + pose proof (integer_order (Z.abs x) (Z.abs y) a a' (Zpos m) (Zpos m')
                    ltac:(lia) ltac:(lia) Em Em' Hm Hm'). lia.
Qed.

Lemma of_Z_no_neg_zero (z : Z) :
  Z.abs z < 2 ^ 52 -> Num.is_neg_zero (Num.of_Z z) = false.
Proof.
  intros Hb. destruct (Z.eq_dec z 0) as [->|Hz]; [reflexivity|].
  destruct (of_Z_shape z Hz Hb) as (m & a & -> & _). reflexivity.
Qed.

Lemma of_Z_inj (x y : Z) :
  Z.abs x < 2 ^ 52 -> Z.abs y < 2 ^ 52 ->
  Num.of_Z x = Num.of_Z y -> x = y.
Proof.
  intros Hx Hy E.
  pose proof (before_of_Z x y Hx Hy) as B1.
  pose proof (before_of_Z y x Hy Hx) as B2.
  rewrite E, before_irrefl in B1. rewrite E, before_irrefl in B2.
  symmetry in B1, B2. apply Z.ltb_ge in B1, B2. lia.
Qed.

Lemma eqb_of_Z (x y : Z) :
  Z.abs x < 2 ^ 52 -> Z.abs y < 2 ^ 52 ->
  Num.eqb (Num.of_Z x) (Num.of_Z y) = (x =? y).
Proof.
  intros Hx Hy. apply eq_true_iff_eq.
  rewrite (num_eqb_spec _ _ (of_Z_not_nan x Hx) (of_Z_not_nan y Hy)), Z.eqb_eq.
  split.
  - intros [E|[E1 E2]]; [apply (of_Z_inj x y Hx Hy E)|].
    destruct (Z.eq_dec x 0) as [->|Nx]; destruct (Z.eq_dec y 0) as [->|Ny];
      try reflexivity; exfalso.
    + destruct (of_Z_shape y Ny Hy) as (m & a & E & _). rewrite E in E2.
      destruct (y <? 0); cbn in E2; lia.
    + destruct (of_Z_shape x Nx Hx) as (m & a & E & _). rewrite E in E1.
      destruct (x <? 0); cbn in E1; lia.
    + destruct (of_Z_shape x Nx Hx) as (m & a & E & _). rewrite E in E1.
      destruct (x <? 0); cbn in E1; lia.
  - intros ->. left. reflexivity.
Qed.

Lemma sign_of_scaled (c p : Z) :
  0 < p ->
  (c * p = 0 -> c = 0) /\ (0 < c * p -> 0 < c) /\ (c * p < 0 -> c < 0).
Proof. intros H. repeat split; intros; nia. Qed.

Lemma add_of_Z (x y : Z) :
  Z.abs x < 2 ^ 52 -> Z.abs y < 2 ^ 52 -> Z.abs (x + y) < 2 ^ 52 ->
  Num.add (Num.of_Z x) (Num.of_Z y) = Num.of_Z (x + y).
Proof.
  intros Hx Hy Hxy.
  destruct (Z.eq_dec x 0) as [->|Nx].
  { rewrite of_Z_zero. cbn [Z.add].
    destruct (Z.eq_dec y 0) as [->|Ny]; [reflexivity|].
    destruct (of_Z_shape y Ny Hy) as (m & a & -> & _). reflexivity. }
  destruct (Z.eq_dec y 0) as [->|Ny].
  { rewrite of_Z_zero, Z.add_0_r.
    destruct (of_Z_shape x Nx Hx) as (m & a & -> & _). reflexivity. }
  destruct (of_Z_shape x Nx Hx) as (mx & ax & Ex & Hax & Emx & Hmx).
  destruct (of_Z_shape y Ny Hy) as (my & ay & Ey & Hay & Emy & Hmy).
  rewrite Ex, Ey. unfold Num.add, SFadd.
  set (k := Z.max ax ay).
  replace (Z.min (- ax) (- ay)) with (- k) by (subst k; lia).
  pose proof (shl_align_left mx (- ax) (- k) ltac:(subst k; lia)) as Sx.
  pose proof (shl_align_left my (- ay) (- k) ltac:(subst k; lia)) as Sy.
  rewrite Sx, Sy.
  replace (- ax - - k) with (k - ax) by lia.
  replace (- ay - - k) with (k - ay) by lia.
  assert (Pk : 0 < 2 ^ k) by (apply Z.pow_pos_nonneg; subst k; lia).
  assert (Tx : cond_Zopp (x <? 0) (Zpos mx * 2 ^ (k - ax)) = x * 2 ^ k).
  { replace (2 ^ k) with (2 ^ ax * 2 ^ (k - ax))
      by (rewrite <- Z.pow_add_r by (subst k; lia); f_equal; lia).
    rewrite Emx. destruct (Z.ltb_spec x 0); cbn [cond_Zopp]; lia. }
  assert (Ty : cond_Zopp (y <? 0) (Zpos my * 2 ^ (k - ay)) = y * 2 ^ k).
  { replace (2 ^ k) with (2 ^ ay * 2 ^ (k - ay))
      by (rewrite <- Z.pow_add_r by (subst k; lia); f_equal; lia).
    rewrite Emy. destruct (Z.ltb_spec y 0); cbn [cond_Zopp]; lia. }
  rewrite Tx, Ty. rewrite <- Z.mul_add_distr_r.
  unfold binary_normalize, Num.of_Z.
  destruct (sign_of_scaled (x + y) (2 ^ k) Pk) as (S0 & S1 & S2).
  destruct ((x + y) * 2 ^ k) as [|M|M] eqn:EM.
  - rewrite (S0 eq_refl). reflexivity.
  - pose proof (S1 ltac:(lia)) as Hp.
    replace (x + y <? 0) with false by (symmetry; apply Z.ltb_ge; lia).
    apply binary_round_integer; [lia|subst k; lia|].
    rewrite Z.abs_eq by lia. lia.
  - pose proof (S2 ltac:(lia)) as Hp.
    replace (x + y <? 0) with true by (symmetry; apply Z.ltb_lt; lia).
    apply binary_round_integer; [lia|subst k; lia|].
    rewrite Z.abs_neq by lia. lia.
Qed.

Lemma neg_of_Z (z : Z) :
  z <> 0 -> Z.abs z < 2 ^ 52 -> Num.neg (Num.of_Z z) = Num.of_Z (- z).
Proof.
  intros Nz Hz.
  destruct (of_Z_shape z Nz Hz) as (m & a & E & Ha & Em & Hm).
  destruct (of_Z_shape (- z) ltac:(lia) ltac:(lia))
    as (m' & a' & E' & Ha' & Em' & Hm').
  rewrite E, E'. cbn [Num.neg SFopp].
  assert (a = a').
  { apply (binade_unique (Z.abs z) a a'); lia. }
  subst a'. f_equal.
  - destruct (Z.ltb_spec z 0); destruct (Z.ltb_spec (- z) 0); try lia;
      reflexivity.
  - assert (Zpos m = Zpos m') by (rewrite Em, Em'; f_equal; lia). lia.
Qed.

Lemma sub_of_Z (x y : Z) :
  Z.abs x < 2 ^ 52 -> Z.abs y < 2 ^ 52 -> Z.abs (x - y) < 2 ^ 52 ->
  Num.add (Num.of_Z x) (Num.neg (Num.of_Z y)) = Num.of_Z (x - y).
Proof.
  intros Hx Hy Hxy. destruct (Z.eq_dec y 0) as [->|Ny].
  - rewrite of_Z_zero, Z.sub_0_r. cbn [Num.neg SFopp negb].
    destruct (Z.eq_dec x 0) as [->|Nx]; [reflexivity|].
    destruct (of_Z_shape x Nx Hx) as (m & a & -> & _). reflexivity.
  - rewrite (neg_of_Z y Ny Hy). apply add_of_Z; try lia.
Qed.

Lemma clamp_integers (x lo hi : Z) :
  Z.abs x < 2 ^ 52 -> Z.abs lo < 2 ^ 52 -> Z.abs hi < 2 ^ 52 ->
  clamp (number x) (number lo) (number hi) = number (Z.max (Z.min x hi) lo).
Proof.
  intros Hx Hl Hh. unfold number.
  rewrite clamp_numbers by (apply of_Z_not_nan; assumption).
  f_equal. rewrite min_step_before, (before_of_Z hi x Hh Hx).
  assert (E : (if hi <? x then Num.of_Z hi else Num.of_Z x)
              = Num.of_Z (Z.min x hi)).
  { destruct (Z.ltb_spec hi x); f_equal; lia. }
  rewrite E, max_step_before, before_of_Z by lia.
  destruct (Z.ltb_spec (Z.min x hi) lo); f_equal; lia.
Qed.

Section IntegerSteps.

Variable format_precision : Props.t -> Value.

Lemma or_else_integer (v : Z) :
  Z.abs v < 2 ^ 52 -> or_else (number v) (VNumber Num.zero) = number v.
Proof.
  intros Hv. unfold or_else, number.
  destruct (Z.eq_dec v 0) as [->|Nv]; [reflexivity|].
  destruct (of_Z_shape v Nv Hv) as (m & a & -> & _). reflexivity.
Qed.

Lemma handleChange_integers (r v lo hi : Z) (event : option Event)
  (w : NumberPicker) :
  Props.value (this_props w) = number v ->
  Props.min (this_props w) = number lo ->
  Props.max (this_props w) = number hi ->
  Z.abs r < 2 ^ 52 -> Z.abs v < 2 ^ 52 ->
  Z.abs lo < 2 ^ 52 -> Z.abs hi < 2 ^ 52 ->
  handleChange (number r) event w =
  (Returned tt,
   if Z.max (Z.min r hi) lo =? v then w
   else log (OnChange (number (Z.max (Z.min r hi) lo)) (number r) (number v)
               event) w).
Proof.
  intros Ev El Eh Hr Hv Hl Hh. unfold handleChange.
  rewrite Ev, El, Eh, (clamp_integers r lo hi Hr Hl Hh).
  unfold number at 1 2. cbn [strict_equal].
  rewrite eqb_of_Z by lia. rewrite Z.eqb_sym.
  destruct (Z.max (Z.min r hi) lo =? v); reflexivity.
Qed.

Lemma step_plain_sum (amount : Value) (v r lo hi : Z)
  (event : option Event) (w : NumberPicker) :
  Props.value (this_props w) = number v ->
  Props.min (this_props w) = number lo ->
  Props.max (this_props w) = number hi ->
  is_nullish (Props.precision (this_props w)) = true ->
  is_nullish (format_precision (this_props w)) = true ->
  plus (number v) amount = number r ->
  Z.abs v < 2 ^ 52 -> Z.abs r < 2 ^ 52 ->
  Z.abs lo < 2 ^ 52 -> Z.abs hi < 2 ^ 52 ->
  step format_precision amount event w =
  (Returned (number r),
   if Z.max (Z.min r hi) lo =? v then w
   else log (OnChange (number (Z.max (Z.min r hi) lo)) (number r) (number v)
               event) w).
Proof.
  intros Ev El Eh Hp Hf Esum Hv Hr Hl Hh.
  rewrite (step_without_precision format_precision _ _ _ Hp Hf).
  rewrite Ev, (or_else_integer v Hv), Esum. unfold bind.
  rewrite (handleChange_integers r v lo hi event w) by assumption.
  reflexivity.
Qed.

Lemma plus_integers (v s : Z) :
  Z.abs v < 2 ^ 52 -> Z.abs s < 2 ^ 52 ->
  (Z.abs (v + s) < 2 ^ 52 -> plus (number v) (number s) = number (v + s))
  /\ (Z.abs (v - s) < 2 ^ 52 ->
      plus (number v) (negate (number s)) = number (v - s)).
Proof.
  intros Hv Hs. split; intros H.
  - unfold number. cbn [plus to_number]. rewrite add_of_Z by assumption.
    reflexivity.
  - unfold number, negate. cbn [plus to_number].
    rewrite sub_of_Z by assumption. reflexivity.
Qed.

(** X6. With an integer value, step and bounds, all below [2^52] in
    magnitude, and no precision, [increment] returns [value + step] and
    [decrement] returns [value - step], exactly.  Each reports one
    [onChange] with the sum clamped to the bounds, the sum as raw value and
    the current value as last value, unless the clamped sum is the current
    value: then nothing is reported. *)
Theorem step_integers (v s lo hi : Z) (event : option Event)
  (w : NumberPicker) :
  Props.value (this_props w) = number v ->
  Props.step (this_props w) = number s ->
  Props.min (this_props w) = number lo ->
  Props.max (this_props w) = number hi ->
  is_nullish (Props.precision (this_props w)) = true ->
  is_nullish (format_precision (this_props w)) = true ->
  Z.abs v < 2 ^ 52 -> Z.abs s < 2 ^ 52 ->
  Z.abs lo < 2 ^ 52 -> Z.abs hi < 2 ^ 52 ->
  (Z.abs (v + s) < 2 ^ 52 ->
   increment format_precision event w =
   (Returned (number (v + s)),
    if Z.max (Z.min (v + s) hi) lo =? v then w
    else log (OnChange (number (Z.max (Z.min (v + s) hi) lo))
                (number (v + s)) (number v) event) w))
  /\ (Z.abs (v - s) < 2 ^ 52 ->
      decrement format_precision event w =
      (Returned (number (v - s)),
       if Z.max (Z.min (v - s) hi) lo =? v then w
       else log (OnChange (number (Z.max (Z.min (v - s) hi) lo))
                   (number (v - s)) (number v) event) w)).
Proof.
  intros Ev Es El Eh Hp Hf Hv Hs Hl Hh.
  destruct (plus_integers v s Hv Hs) as [P1 P2].
  unfold increment, decrement. rewrite Es.
  split; intros H; apply step_plain_sum; auto.
Qed.

End IntegerSteps.

(** ** The contract of [step] *)

Lemma truthy_false (v : Value) :
  truthy v = false
  <-> v = VUndefined \/ v = VNull \/ v = VNumber Num.NaN
      \/ (exists s, v = VNumber (S754_zero s)) \/ v = VString "".
Proof.
  destruct v as [| |[s|s| |s m e]|[|c r]]; cbn [truthy]; split; intros H;
    try discriminate; try reflexivity; try tauto;
    try (right; right; right; left; exists s; reflexivity);
    destruct H as [H|[H|[H|[[s' H]|H]]]]; discriminate.
Qed.

(** C4, as stated, fails for a value that is there but counts as false:
    with the [value] prop NaN, [step] by [1] returns [1], where
    [NaN + 1] is NaN; with the empty string it returns [1], where
    ['' + 1] is ['1']. *)
Lemma step_counts_nan_as_zero :
  is_nullish (VNumber Num.NaN) = false
  /\ plus (VNumber Num.NaN) (number 1) = VNumber Num.NaN
  /\ fst (step no_precision (number 1) None
            (mount (Props.default (VNumber Num.NaN)))) = Returned (number 1)
  /\ is_nullish (VString "") = false
  /\ plus (VString "") (number 1) = VString "1"
  /\ fst (step no_precision (number 1) None
            (mount (Props.default (VString "")))) = Returned (number 1).
Proof. repeat split; vm_compute; reflexivity. Qed.

Section StepContract.

Variable format_precision : Props.t -> Value.

(** C4, amended.  [step] works on [(value || 0) + amount]: the [value]
    prop as it is when it counts as true, and [0] in its place when it is
    null or undefined and also when it is NaN, a zero or the empty string.
    That sum is what [step] returns whenever it returns; on integers below
    [2^52] in magnitude it is the exact sum; with no precision among the
    props and none from the format, the sum itself, unrounded, goes to
    [handleChange].  [increment] and [decrement] are [step] with the [step]
    prop and with its negation.  With value [5], step [1] and no precision,
    [increment] returns and reports [6] and [decrement] returns and reports
    [4]. *)
Theorem step_contract
  (amount : Value) (event : option Event) (w : NumberPicker) :
  let value := Props.value (this_props w) in
  let current := if truthy value then value else VNumber Num.zero in
  let sum := plus current amount in
  (truthy value = false
   <-> value = VUndefined \/ value = VNull \/ value = VNumber Num.NaN
       \/ (exists s, value = VNumber (S754_zero s)) \/ value = VString "")
  /\ (forall v,
        fst (step format_precision amount event w) = Returned v -> v = sum)
  /\ (forall x a,
        value = number x -> amount = number a ->
        Z.abs x < 2 ^ 52 -> Z.abs a < 2 ^ 52 -> Z.abs (x + a) < 2 ^ 52 ->
        sum = number (x + a))
  /\ (is_nullish (Props.precision (this_props w)) = true ->
      is_nullish (format_precision (this_props w)) = true ->
      step format_precision amount event w =
      (Returned sum, snd (handleChange sum event w)))
  /\ increment format_precision event w =
     step format_precision (Props.step (this_props w)) event w
  /\ decrement format_precision event w =
     step format_precision (negate (Props.step (this_props w))) event w
  /\ (is_nullish (format_precision (Props.default (number 5))) = true ->
      increment format_precision None (mount (Props.default (number 5)))
      = (Returned (number 6),
         log (OnChange (number 6) (number 6) (number 5) None)
           (mount (Props.default (number 5))))
      /\ decrement format_precision None (mount (Props.default (number 5)))
         = (Returned (number 4),
            log (OnChange (number 4) (number 4) (number 5) None)
              (mount (Props.default (number 5))))).
Proof.
  cbv zeta.
  change (if truthy (Props.value (this_props w))
          then Props.value (this_props w) else VNumber Num.zero)
    with (or_else (Props.value (this_props w)) (VNumber Num.zero)).
  split; [apply truthy_false|].
  split; [apply step_returns_sum|].
  split.
  { intros x a Ev Ea Hx Ha Hs. rewrite Ev, Ea, or_else_integer by exact Hx.
    apply (plus_integers x a Hx Ha). exact Hs. }
  split.
  { intros Hp Hf. rewrite (step_without_precision _ _ _ _ Hp Hf).
    unfold bind.
    pose proof (handleChange_returns
                  (plus (or_else (Props.value (this_props w))
                           (VNumber Num.zero)) amount) event w) as H.
    destruct (handleChange _ event w) as [[[]|e] w']; cbn in H |- *;
      [reflexivity|discriminate]. }
  split; [reflexivity|]. split; [reflexivity|].
  intros H. split.
  - unfold increment.
    rewrite step_without_precision; [|reflexivity|exact H].
    vm_compute. reflexivity.
  - unfold decrement.
    rewrite step_without_precision; [|reflexivity|exact H].
    vm_compute. reflexivity.
Qed.

End StepContract.

Lemma step_contract_witness :
  fst (step no_precision (number 1) None (mount (Props.default VNull)))
  = Returned (number 1)
  /\ fst (step no_precision (number 3) None
            (mount (Props.default (number 4)))) = Returned (number (4 + 3))
  /\ fst (increment no_precision None (mount (Props.default (number 5))))
     = Returned (number 6)
  /\ fst (decrement no_precision None (mount (Props.default (number 5))))
     = Returned (number 4).
Proof.
  split; [|split].
  - pose proof (step_contract no_precision (number 1) None
                  (mount (Props.default VNull))) as H.
    cbv zeta in H. destruct H as (_ & _ & _ & H & _).
    rewrite H; reflexivity.
  - pose proof (step_contract no_precision (number 3) None
                  (mount (Props.default (number 4)))) as H.
    cbv zeta in H. destruct H as (_ & _ & H3 & H & _).
    rewrite H; [|reflexivity|reflexivity]. cbn [fst].
    rewrite (H3 4 3 eq_refl eq_refl) by (vm_compute; reflexivity).
    reflexivity.
  - pose proof (step_contract no_precision (number 1) None
                  (mount (Props.default (number 5)))) as H.
    cbv zeta in H. destruct H as (_ & _ & _ & _ & _ & _ & H).
    destruct (H eq_refl) as [H5 H6]. rewrite H5, H6. split; reflexivity.
Defined.

(** ** More on the rounding routine *)

Lemma round_back (value precision : Value) :
  round value precision =
  back
    (math_round
       (to_number
          (plus
             (plus (index (split "e" (to_string (plus (VString "") value))) 0)
                (VString "e"))
             (if truthy
                   (index (split "e" (to_string (plus (VString "") value))) 1)
              then
                plus
                  (VNumber
                     (to_number
                        (index
                           (split "e" (to_string (plus (VString "") value)))
                           1)))
                  (or_else precision (VNumber Num.zero))
              else or_else precision (VNumber Num.zero)))))
    (or_else precision (VNumber Num.zero)).
Proof. reflexivity. Qed.

(** X7. [round] returns a string when the precision, as a number, has an
    integer part from 0 to 100 (null and undefined count as 0), and throws a
    RangeError for every other precision, whatever the value is. *)
Theorem round_exceptions (value precision : Value) :
  (accepted_digits precision ->
   exists s, round value precision = Normal (VString s))
  /\ (~ accepted_digits precision ->
      round value precision = Throw RangeError).
Proof.
  split; [apply round_accepted|].
  intros H. unfold round.
  match goal with
  | |- context [to_fixed ?x ?d] => generalize x; intros y
  end.
  destruct (to_integer_or_infinity
              (to_number (or_else precision (VNumber Num.zero)))) as [f|] eqn:E.
  - rewrite (to_fixed_rejected y _ f E); [reflexivity|].
    destruct (Z_lt_le_dec f 0) as [|H0]; [left; assumption|].
    destruct (Z_lt_le_dec 100 f) as [|H1]; [right; assumption|].
    exfalso. apply H. exists f. split; [exact E|lia].
  - unfold to_fixed. rewrite E. reflexivity.
Qed.

Lemma trim_right_cons (c : ascii) (r : string) :
  is_space c = false -> trim_right (String c r) = String c (trim_right r).
Proof.
  intros H. cbn [trim_right]. rewrite H. destruct (trim_right r); reflexivity.
Qed.

Lemma trim_left_cons (c : ascii) (r : string) :
  is_space c = false -> trim_left (String c r) = String c r.
Proof. intros H. cbn [trim_left]. rewrite H. reflexivity. Qed.

Lemma string_to_number_infinity_e (neg : bool) (X : string) :
  string_to_number ((if neg then "-Infinitye" else "Infinitye") ++ X)
  = Num.NaN.
Proof.
  unfold string_to_number, trim.
  destruct neg; cbn [String.append];
    rewrite trim_left_cons by reflexivity;
    repeat rewrite trim_right_cons by reflexivity; reflexivity.
Qed.

Lemma back_nan (p : Value) :
  (exists f, to_integer_or_infinity (to_number p) = Some f /\ 0 <= f <= 100) ->
  back Num.NaN p = Normal (VString "NaN").
Proof.
  intros (f & Hf & Hr). unfold back.
  change (split "e" (to_string (plus (VString "") (VNumber Num.NaN))))
    with ["NaN"%string].
  cbn [index nth_error truthy].
  assert (H2 : to_number
                 (plus (plus (VString "NaN") (VString "e")) (negate p))
               = Num.NaN).
  { change (plus (VString "NaN") (VString "e")) with (VString "NaNe").
    cbn [plus to_number]. apply string_to_number_N. }
  rewrite H2. unfold to_fixed. rewrite Hf.
  replace ((f <? 0) || (100 <? f)) with false
    by (symmetry; apply orb_false_iff; split;
        [apply Z.ltb_ge | apply Z.ltb_ge]; lia).
  reflexivity.
Qed.

(** X8. [round] of [Infinity], [-Infinity] or [NaN] is the string ["NaN"]
    for every accepted precision: the exponent text it builds for an
    infinite value does not read as a number. *)
Theorem round_not_finite (x : spec_float) (precision : Value) :
  Num.is_finite x = false -> accepted_digits precision ->
  round (VNumber x) precision = Normal (VString "NaN").
Proof.
  intros Hx Ha. destruct x as [s|s| |s m e]; try discriminate.
  - rewrite round_back.
    assert (E : split "e" (to_string (plus (VString "")
                                        (VNumber (S754_infinity s))))
                = [if s then "-Infinity" else "Infinity"]).
    { destruct s; reflexivity. }
    rewrite E. cbn [index nth_error truthy].
    assert (E2 : forall q,
              to_number
                (plus (plus (VString (if s then "-Infinity" else "Infinity"))
                         (VString "e")) q) = Num.NaN).
    { intros q.
      replace (plus (VString (if s then "-Infinity" else "Infinity"))
                 (VString "e"))
        with (VString (if s then "-Infinitye" else "Infinitye"))
        by (destruct s; reflexivity).
      cbn [plus to_number]. apply string_to_number_infinity_e. }
    rewrite E2. cbn [math_round Num.NaN]. apply back_nan. exact Ha.
  - apply round_nan. exact Ha.
Qed.

Lemma integer_nearest_integer (s : bool) (m : positive) (a R : Z) :
  0 <= a -> 0 < R -> Zpos m = R * 2 ^ a ->
  integer_nearest (S754_finite s m (- a)) = if s then - R else R.
Proof.
  intros Ha HR Em. unfold integer_nearest, Num.ratio_of, nearest_integer_up.
  assert (P : 0 < 2 ^ a) by (apply Z.pow_pos_nonneg; lia).
  destruct (Z.leb_spec 0 (- a)) as [H0|H0].
  - assert (a = 0) by lia. subst a. change (2 ^ (- 0)) with 1.
    change (2 ^ 0) with 1 in Em. rewrite Em, !Z.mul_1_r. destruct s.
    + symmetry. apply (Z.div_unique _ _ _ 1); lia.
    + symmetry. apply (Z.div_unique _ _ _ 1); lia.
  - replace (- - a) with a by lia. rewrite Em. destruct s.
    + symmetry. apply (Z.div_unique _ _ _ (2 ^ a)); lia.
    + symmetry. apply (Z.div_unique _ _ _ (2 ^ a)); lia.
Qed.

Lemma math_round_of_Z (r : Z) :
  Z.abs r < 2 ^ 52 -> math_round (Num.of_Z r) = Num.of_Z r.
Proof.
  intros Hr. destruct (Z.eq_dec r 0) as [->|Nr]; [reflexivity|].
  destruct (of_Z_shape r Nr Hr) as (m & a & E & Ha & Em & Hm).
  rewrite E, math_round_fraction by lia.
  rewrite (integer_nearest_integer (r <? 0) m a (Z.abs r)) by lia.
  rewrite <- E.
  assert (Er : (if r <? 0 then - Z.abs r else Z.abs r) = r)
    by (destruct (Z.ltb_spec r 0); lia).
  rewrite Er. destruct (Z.eqb_spec r 0); [contradiction|reflexivity].
Qed.

Lemma of_decimal_integer (r : Z) :
  Num.of_decimal (r <? 0) (Z.abs r) 0 = Num.of_Z r.
Proof.
  unfold Num.of_decimal, Num.of_Z. cbn [Z.leb Z.compare].
  change (10 ^ 0) with 1. rewrite Z.mul_1_r. reflexivity.
Qed.

Lemma back_of_Z (r p : Z) :
  Z.abs r < 2 ^ 51 -> 0 <= p <= 100 ->
  back (Num.of_Z r) (number p) = Normal (VString (decimal_text r p)).
Proof.
  intros Hr Hp. destruct (Z.eq_dec r 0) as [->|Nr].
  - apply (back_zero false p Hp).
  - apply back_integer; assumption.
Qed.

Lemma no_e_sign (s : bool) : no_e (if s then "-" else "") = true.
Proof. destruct s; reflexivity. Qed.

Lemma numeric_sign_digits_e (s : bool) (t : string) :
  no_e t = true -> no_e ((if s then "-" else "") ++ t) = true.
Proof. intros H. rewrite no_e_app, no_e_sign, H. reflexivity. Qed.

(** X9. Rounding is idempotent on its own texts: the decimal text of
    [r / 10^p] with [p] fractional digits, for [|r| < 2^51] and [p] from 0 to
    100, rounds to itself at precision [p]. *)
Theorem round_idempotent (r p : Z) :
  Z.abs r < 2 ^ 51 -> 0 <= p <= 100 ->
  round (VString (decimal_text r p)) (number p)
  = Normal (VString (decimal_text r p)).
Proof.
  intros Hr Hp.
  destruct (exponent_texts p ltac:(lia)) as (Ho & Hi & (X & EX & NX & PX) & _).
  pose proof (render_spec (Z.abs r) ltac:(lia)) as (Hd & _ & Hl & _).
  pose proof (value_render (Z.abs r) ltac:(lia)) as Hv.
  rewrite round_back, Ho.
  cbn [plus to_string String.append].
  assert (Hread :
            no_e (decimal_text r p) = true
            /\ string_to_number ((decimal_text r p ++ "e") ++ X)
               = Num.of_decimal (r <? 0) (Z.abs r) 0).
  { destruct (Z.eq_dec p 0) as [->|Np].
    - unfold decimal_text, point. cbn [Z.eqb].
      split; [apply numeric_sign_digits_e, no_e_digits, Hd|].
      rewrite !append_assoc. change ("e" ++ X) with (String "e" X).
      rewrite (read_plain (r <? 0) _ X 0 Hd Hl NX PX), Hv. reflexivity.
    - destruct (decimal_text_shape r p ltac:(lia))
        as (a & b & E & Ha & La & Hb & Lb & V).
      rewrite E. split.
      + apply numeric_sign_digits_e. rewrite no_e_app.
        rewrite (no_e_digits a Ha). cbn [no_e andb Ascii.eqb Bool.eqb negb].
        apply no_e_digits, Hb.
      + rewrite !append_assoc. cbn [String.append].
        rewrite (read_pointed (r <? 0) a b X p Ha La Hb NX PX), V, Lb.
        replace (p - p) with 0 by lia. reflexivity. }
  destruct Hread as [Hne Hread].
  rewrite (split_no_e _ Hne). cbn [index nth_error truthy].
  cbn [plus to_string to_number]. rewrite EX, Hread, of_decimal_integer.
  rewrite math_round_of_Z by lia. apply back_of_Z; assumption.
Qed.

(** ** Digit strings, again *)

Lemma digit_val_range (c : ascii) :
  Digits.is_digit c = true -> 0 <= Digits.digit_val c <= 9.
Proof.
  unfold Digits.is_digit, Digits.digit_val. intros H.
  apply andb_true_iff in H. destruct H as [H1 H2].
  apply Nat.leb_le in H1, H2. lia.
Qed.

Lemma digit_val_inj (c c' : ascii) :
  Digits.digit_val c = Digits.digit_val c' -> c = c'.
Proof.
  unfold Digits.digit_val. intros H.
  rewrite <- (ascii_nat_embedding c), <- (ascii_nat_embedding c').
  f_equal. lia.
Qed.

Lemma value_acc_linear (s : string) :
  forall v, Digits.value_acc s v = v * 10 ^ len s + Digits.value s.
Proof.
  unfold Digits.value.
  induction s as [|c s IH]; intros v.
  - cbn. lia.
  - cbn [Digits.value_acc]. rewrite IH, (IH (10 * 0 + Digits.digit_val c)).
    unfold len. cbn [String.length]. rewrite Nat2Z.inj_succ.
    rewrite Z.pow_succ_r by lia. lia.
Qed.

Lemma value_bound (s : string) :
  all_digits s = true -> 0 <= Digits.value s < 10 ^ len s.
Proof.
  induction s as [|c s IH]; intros H.
  - cbn. lia.
  - cbn [all_digits] in H. apply andb_true_iff in H. destruct H as [Hc Hs].
    pose proof (digit_val_range c Hc) as Hd. specialize (IH Hs).
    unfold Digits.value. cbn [Digits.value_acc]. rewrite value_acc_linear.
    unfold len in *. cbn [String.length]. rewrite Nat2Z.inj_succ.
    rewrite Z.pow_succ_r by lia.
    assert (0 < 10 ^ Z.of_nat (String.length s))
      by (apply Z.pow_pos_nonneg; lia).
    nia.
Qed.

Lemma digits_unique (s : string) :
  forall t,
    all_digits s = true -> all_digits t = true ->
    String.length s = String.length t ->
    Digits.value s = Digits.value t -> s = t.
Proof.
  induction s as [|c s IH]; intros [|c' t] Hs Ht Hl Hv; try discriminate.
  - reflexivity.
  - cbn [all_digits] in Hs, Ht.
    apply andb_true_iff in Hs, Ht. destruct Hs as [Hc Hs], Ht as [Hc' Ht].
    injection Hl as Hl.
    unfold Digits.value in Hv. cbn [Digits.value_acc] in Hv.
    rewrite !value_acc_linear in Hv. unfold len in Hv. rewrite Hl in Hv.
    pose proof (value_bound s Hs) as Bs. pose proof (value_bound t Ht) as Bt.
    unfold len in Bs, Bt. rewrite Hl in Bs.
    pose proof (digit_val_range c Hc) as Dc.
    pose proof (digit_val_range c' Hc') as Dc'.
    set (P := 10 ^ Z.of_nat (String.length t)) in *.
    assert (E : Digits.digit_val c = Digits.digit_val c') by nia.
    rewrite (digit_val_inj c c' E). f_equal.
    apply IH; try assumption. rewrite E in Hv. lia.
Qed.

Lemma render_scaled (n p : Z) :
  0 < n -> 0 <= p ->
  Digits.render (n * 10 ^ p) = Digits.render n ++ Digits.zeros (Z.to_nat p).
Proof.
  intros Hn Hp.
  assert (P : 0 < 10 ^ p) by (apply Z.pow_pos_nonneg; lia).
  pose proof (render_spec n ltac:(lia)) as (D1 & _ & L1 & U1 & Lo1 & _).
  pose proof (render_spec (n * 10 ^ p) ltac:(nia))
    as (D2 & _ & L2 & U2 & Lo2 & _).
  specialize (Lo1 Hn). specialize (Lo2 ltac:(nia)).
  apply digits_unique.
  - exact D2.
  - rewrite all_digits_app, D1, all_digits_zeros. reflexivity.
  - assert (E : len (Digits.render (n * 10 ^ p))
                = len (Digits.render n ++ Digits.zeros (Z.to_nat p))).
    { rewrite len_append, len_zeros, Z2Nat.id by lia.
      apply (pow10_unique (n * 10 ^ p)); try lia.
      - replace (len (Digits.render n) + p - 1)
          with (len (Digits.render n) - 1 + p) by lia.
        rewrite !Z.pow_add_r by lia. nia. }
    unfold len in E. lia.
  - rewrite value_render by nia. unfold Digits.value.
    rewrite value_acc_app, value_acc_zeros, Z2Nat.id by lia.
    fold (Digits.value (Digits.render n)). rewrite value_render by lia.
    reflexivity.
Qed.

Lemma append_inj_length (a a' b b' : string) :
  String.length a = String.length a' -> a ++ b = a' ++ b' ->
  a = a' /\ b = b'.
Proof.
  revert a'. induction a as [|c a IH]; intros [|c' a'] Hl E;
    try discriminate.
  - split; [reflexivity|exact E].
  - cbn in E. injection E as -> E. injection Hl as Hl.
    destruct (IH a' Hl E) as [-> ->]. split; reflexivity.
Qed.

Lemma point_app (a b : string) :
  1 <= len a -> 1 <= len b ->
  point (a ++ b) (len b) = a ++ String "." b.
Proof.
  intros La Lb. unfold point.
  replace (len b =? 0) with false by (symmetry; apply Z.eqb_neq; lia).
  fold (len (a ++ b)). rewrite len_append.
  replace (len a + len b <=? len b) with false
    by (symmetry; apply Z.leb_gt; lia).
  replace (len a + len b - len b) with (len a) by lia.
  destruct (prefix_drop (a ++ b) (Z.to_nat (len a))) as (E1 & E2 & E3).
  { pose proof (len_append a b) as H. unfold len in *. lia. }
  destruct (append_inj_length (Digits.prefix_len (Z.to_nat (len a)) (a ++ b))
              a (Digits.drop_len (Z.to_nat (len a)) (a ++ b)) b)
    as [-> ->]; [|exact E1|reflexivity].
  unfold len in *. lia.
Qed.

Lemma zeros_snoc (k : nat) :
  Digits.zeros k ++ "0" = String "0" (Digits.zeros k).
Proof.
  induction k as [|k IH]; [reflexivity|].
  cbn [Digits.zeros String.append]. rewrite IH. reflexivity.
Qed.

(** The text of an integer with [p] zeros after the point. *)
Lemma decimal_text_scaled (R p : Z) :
  0 <= p ->
  decimal_text (R * 10 ^ p) p
  = (if R <? 0 then "-" else "") ++ Digits.render (Z.abs R)
    ++ (if p =? 0 then "" else String "." (Digits.zeros (Z.to_nat p))).
Proof.
  intros Hp. unfold decimal_text.
  assert (P : 0 < 10 ^ p) by (apply Z.pow_pos_nonneg; lia).
  replace (R * 10 ^ p <? 0) with (R <? 0)
    by (destruct (Z.ltb_spec R 0); symmetry;
        [apply Z.ltb_lt|apply Z.ltb_ge]; nia).
  f_equal.
  destruct (Z.eqb_spec p 0) as [->|Np].
  - change (10 ^ 0) with 1. rewrite Z.mul_1_r, append_nil_r. reflexivity.
  - replace (Z.abs (R * 10 ^ p)) with (Z.abs R * 10 ^ p) by nia.
    destruct (Z.eq_dec R 0) as [->|NR].
    + cbn [Z.abs Z.mul]. change (Digits.render 0) with "0".
      unfold point.
      replace (p =? 0) with false by (symmetry; apply Z.eqb_neq; lia).
      cbn [String.length Z.of_nat Pos.of_succ_nat].
      replace (1 <=? p) with true by (symmetry; apply Z.leb_le; lia).
      replace (p + 1 - 1) with p by lia.
      replace (p + 1 - p) with 1 by lia.
      rewrite zeros_snoc.
      change (Z.to_nat 1) with 1%nat.
      unfold Digits.prefix_len, Digits.drop_len.
      cbn [substring String.length String.append Nat.sub].
      rewrite Nat.sub_0_r, substring_whole.
      destruct (Digits.zeros (Z.to_nat p)); reflexivity.
    + rewrite render_scaled by lia.
      pose proof (render_spec (Z.abs R) ltac:(lia)) as (_ & _ & L & _).
      assert (Lz : len (Digits.zeros (Z.to_nat p)) = p)
        by (rewrite len_zeros; lia).
      rewrite <- Lz at 2. apply point_app; lia.
Qed.

Lemma round_integer (R p : Z) :
  Z.abs (R * 10 ^ p) < 2 ^ 51 -> 0 <= p <= 100 ->
  round (number R) (number p)
  = Normal (VString (integer_text_with_zeros R p)).
Proof.
  intros HR Hp. unfold integer_text_with_zeros.
  assert (P : 0 < 10 ^ p) by (apply Z.pow_pos_nonneg; lia).
  rewrite <- decimal_text_scaled by lia.
  destruct (exponent_texts p ltac:(lia)) as (Ho & Hi & (X & EX & NX & PX) & _).
  rewrite round_back, Ho. unfold number at 1 2 3 4.
  assert (Htext : exists T,
            to_string (plus (VString "") (VNumber (Num.of_Z R)))
            = (if R <? 0 then "-" else "") ++ T
            /\ all_digits T = true /\ Digits.value T = Z.abs R
            /\ 1 <= len T).
  { destruct (Z.eq_dec R 0) as [->|NR].
    - exists "0". repeat split. cbn. lia.
    - destruct (integer_text (R <? 0) (Z.abs R) ltac:(nia))
        as (T & ET & HT & VT & LT).
      exists T. split; [exact ET|]. repeat split; assumption. }
  destruct Htext as (T & ET & HT & VT & LT). rewrite ET.
  rewrite (split_no_e _ (numeric_sign_digits_e _ _ (no_e_digits T HT))).
  cbn [index nth_error truthy]. cbn [plus to_string to_number].
  rewrite EX, !append_assoc. change ("e" ++ X) with (String "e" X).
  rewrite (read_plain (R <? 0) T X p HT LT NX PX), VT.
  assert (E : Num.of_decimal (R <? 0) (Z.abs R) p = Num.of_Z (R * 10 ^ p)).
  { unfold Num.of_decimal, Num.of_Z.
    replace (0 <=? p) with true by (symmetry; apply Z.leb_le; lia).
    replace (R * 10 ^ p <? 0) with (R <? 0)
      by (destruct (Z.ltb_spec R 0); symmetry;
          [apply Z.ltb_lt|apply Z.ltb_ge]; nia).
    f_equal. nia. }
  rewrite E, math_round_of_Z by lia. apply back_of_Z; assumption.
Qed.

(** ** Reading the rounded text back *)

Lemma take_all (ds : string) :
  all_digits ds = true -> Digits.take ds = (ds, "").
Proof.
  intros H. rewrite <- (append_nil_r ds) at 1. apply take_app; [exact H|].
  exact I.
Qed.

Lemma parse_without_exponent (ip fp : string) :
  all_digits ip = true -> 1 <= len ip -> all_digits fp = true ->
  parse_unsigned_decimal ip = Some (Digits.value ip, 0)
  /\ parse_unsigned_decimal (ip ++ String "." fp)
     = Some (Digits.value (ip ++ fp), - len fp).
Proof.
  intros Hi Li Hf. unfold parse_unsigned_decimal. split.
  - rewrite (take_all ip Hi). rewrite append_nil_r.
    destruct ip as [|c t]; [cbn in Li; lia|]. reflexivity.
  - rewrite (take_app ip (String "." fp) Hi eq_refl).
    change (Ascii.eqb "." ".") with true. cbn iota.
    rewrite (take_all fp Hf).
    destruct ip as [|c t]; [cbn in Li; lia|].
    cbn [String.append parse_exponent]. reflexivity.
Qed.

Lemma numeric_point (a b : string) :
  all_digits a = true -> all_digits b = true ->
  numeric (a ++ String "." b) = true.
Proof.
  intros Ha Hb. rewrite numeric_app, (numeric_digits a Ha).
  cbn [numeric andb]. rewrite (numeric_digits b Hb). reflexivity.
Qed.

Lemma decimal_text_read_back (r p : Z) :
  0 <= p ->
  string_to_number (decimal_text r p)
  = Num.of_decimal (r <? 0) (Z.abs r) (- p).
Proof.
  intros Hp.
  pose proof (render_spec (Z.abs r) ltac:(lia)) as (Hd & _ & Hl & _).
  pose proof (value_render (Z.abs r) ltac:(lia)) as Hv.
  destruct (Z.eq_dec p 0) as [->|Np].
  - unfold decimal_text, point. cbn [Z.eqb Z.opp].
    rewrite string_to_number_body.
    + destruct (parse_without_exponent _ "" Hd Hl eq_refl) as [-> _].
      rewrite Hv. reflexivity.
    + rewrite <- (append_nil_r (Digits.render (Z.abs r))).
      apply starts_digit_app; assumption.
    + apply numeric_digits, Hd.
  - destruct (decimal_text_shape r p ltac:(lia))
      as (a & b & E & Ha & La & Hb & Lb & V).
    rewrite E, string_to_number_body.
    + destruct (parse_without_exponent a b Ha La Hb) as [_ ->].
      rewrite V, Lb. reflexivity.
    + apply starts_digit_app; assumption.
    + apply numeric_point; assumption.
Qed.

Lemma of_ratio_scaled (s : bool) (R c : Z) :
  0 < R < 2 ^ 52 -> 0 < c <= 2 ^ 1000 ->
  Num.of_ratio s (R * c) c = Num.of_ratio s R 1.
Proof.
  intros HR Hc.
  destruct (of_ratio_spec s (R * c) c) as (m & a & E & Ha & Hm & Herr & _);
    try nia.
  destruct (of_ratio_integer s R HR) as (m' & a' & E' & Ha' & Em' & Hm').
  rewrite E, E'.
  assert (Pa : 0 < 2 ^ a) by (apply Z.pow_pos_nonneg; lia).
  assert (Em : Zpos m = R * 2 ^ a).
  { assert (H : Z.abs (2 * (Zpos m - R * 2 ^ a)) <= 1).
    { apply (mul_cancel_abs c); [lia|].
      replace (c * (2 * (Zpos m - R * 2 ^ a)))
        with (2 * (Zpos m * c - R * c * 2 ^ a)) by ring. lia. }
    lia. }
  assert (a = a') by (apply (binade_unique R a a'); lia).
  subst a'. f_equal. lia.
Qed.

Lemma decimal_text_not_empty (r p : Z) :
  0 <= p -> String.eqb (decimal_text r p) "" = false.
Proof.
  intros Hp. pose proof (render_spec (Z.abs r) ltac:(lia)) as (_ & _ & Hl & _).
  destruct (Z.eq_dec p 0) as [->|Np].
  - unfold decimal_text, point. cbn [Z.eqb].
    destruct (r <? 0); [reflexivity|].
    destruct (Digits.render (Z.abs r)); [cbn in Hl; lia|reflexivity].
  - destruct (decimal_text_shape r p ltac:(lia)) as (a & b & E & _ & La & _).
    rewrite E. destruct (r <? 0); [reflexivity|].
    destruct a; [cbn in La; lia|reflexivity].
Qed.

(** [clamp] of the text of an integer with [p] zeros after the point. *)
Lemma integer_text_read_back (R p : Z) :
  Z.abs R < 2 ^ 52 -> 0 <= p <= 100 ->
  string_to_number (decimal_text (R * 10 ^ p) p) = Num.of_Z R.
Proof.
  intros HR Hp.
  assert (P : 0 < 10 ^ p) by (apply Z.pow_pos_nonneg; lia).
  rewrite decimal_text_read_back by lia.
  replace (R * 10 ^ p <? 0) with (R <? 0)
    by (destruct (Z.ltb_spec R 0); symmetry;
        [apply Z.ltb_lt|apply Z.ltb_ge]; nia).
  replace (Z.abs (R * 10 ^ p)) with (Z.abs R * 10 ^ p) by nia.
  destruct (Z.eq_dec R 0) as [->|NR]; [apply of_decimal_zero|].
  unfold Num.of_decimal, Num.of_Z.
  destruct (Z.leb_spec 0 (- p)).
  - assert (p = 0) by lia. subst p. change (10 ^ (- 0)) with 1.
    change (10 ^ 0) with 1. rewrite !Z.mul_1_r. reflexivity.
  - replace (- - p) with p by lia. apply of_ratio_scaled; [lia|].
    split; [lia|apply pow10_le_pow2; lia].
Qed.

Lemma clamp_integer_text (R p : Z) (min max : Value) :
  Z.abs R < 2 ^ 52 -> 0 <= p <= 100 ->
  clamp (VString (decimal_text (R * 10 ^ p) p)) min max
  = clamp (number R) min max.
Proof.
  intros HR Hp.
  unfold clamp. cbn [is_nullish orb strict_equal].
  rewrite (decimal_text_not_empty _ p) by lia.
  unfold math_min. cbn [map to_number].
  rewrite (integer_text_read_back R p HR Hp). reflexivity.
Qed.

Section RoundedSteps.

Variable format_precision : Props.t -> Value.

(** The text of the integer [r] with [p] zeros after the point. *)
Lemma step_rounded_sum (amount : Value) (v r lo hi p : Z)
  (event : option Event) (w : NumberPicker) :
  Props.value (this_props w) = number v ->
  Props.min (this_props w) = number lo ->
  Props.max (this_props w) = number hi ->
  Props.precision (this_props w) = number p ->
  plus (number v) amount = number r ->
  Z.abs v < 2 ^ 52 -> Z.abs (r * 10 ^ p) < 2 ^ 51 -> 0 <= p <= 100 ->
  Z.abs lo < 2 ^ 52 -> Z.abs hi < 2 ^ 52 ->
  step format_precision amount event w =
  (Returned (number r),
   if Z.max (Z.min r hi) lo =? v then w
   else log (OnChange (number (Z.max (Z.min r hi) lo))
               (VString (integer_text_with_zeros r p)) (number v) event) w).
Proof.
  intros Ev El Eh Ep Esum Hv Hr Hp Hl Hh.
  assert (P : 0 < 10 ^ p) by (apply Z.pow_pos_nonneg; lia).
  assert (Hr' : Z.abs r < 2 ^ 51) by nia.
  rewrite step_unfold. unfold decimals. rewrite Ep, Ev.
  cbn [number is_nullish negb]. fold (number p). fold (number v).
  rewrite (or_else_integer v Hv), Esum, (round_integer r p Hr Hp).
  unfold bind, handleChange. rewrite Ev, El, Eh.
  unfold integer_text_with_zeros at 1 2.
  rewrite <- (decimal_text_scaled r p) by lia.
  rewrite (clamp_integer_text r p) by lia.
  rewrite (clamp_integers r lo hi) by lia.
  unfold number at 1 2. cbn [strict_equal]. rewrite eqb_of_Z by lia.
  rewrite Z.eqb_sym.
  destruct (Z.max (Z.min r hi) lo =? v); reflexivity.
Qed.

(** X10. With an integer value, step and bounds below [2^52] in magnitude
    and a precision [p] from 0 to 100 for which the sum times [10^p] stays
    below [2^51] in magnitude (so [p] is at most 15 unless the sum is [0]),
    [increment] and [decrement] return the exact sum as a number, and the
    [onChange] they report carries the clamped sum as a number and, as raw
    value, the text of the sum with [p] zeros after the point; nothing is
    reported when the clamped sum is the current value. *)
Theorem step_integers_rounded (v s lo hi p : Z) (event : option Event)
  (w : NumberPicker) :
  Props.value (this_props w) = number v ->
  Props.step (this_props w) = number s ->
  Props.min (this_props w) = number lo ->
  Props.max (this_props w) = number hi ->
  Props.precision (this_props w) = number p ->
  0 <= p <= 100 ->
  Z.abs v < 2 ^ 52 -> Z.abs s < 2 ^ 52 ->
  Z.abs lo < 2 ^ 52 -> Z.abs hi < 2 ^ 52 ->
  (Z.abs ((v + s) * 10 ^ p) < 2 ^ 51 ->
   increment format_precision event w =
   (Returned (number (v + s)),
    if Z.max (Z.min (v + s) hi) lo =? v then w
    else log (OnChange (number (Z.max (Z.min (v + s) hi) lo))
                (VString (integer_text_with_zeros (v + s) p)) (number v)
                event) w))
  /\ (Z.abs ((v - s) * 10 ^ p) < 2 ^ 51 ->
      decrement format_precision event w =
      (Returned (number (v - s)),
       if Z.max (Z.min (v - s) hi) lo =? v then w
       else log (OnChange (number (Z.max (Z.min (v - s) hi) lo))
                   (VString (integer_text_with_zeros (v - s) p)) (number v)
                   event) w)).
Proof.
  intros Ev Es El Eh Ep Hp Hv Hs Hl Hh.
  assert (P : 0 < 10 ^ p) by (apply Z.pow_pos_nonneg; lia).
  destruct (plus_integers v s Hv Hs) as [P1 P2].
  unfold increment, decrement. rewrite Es.
  split; intros H; apply step_rounded_sum; try assumption;
    [apply P1|apply P2]; nia.
Qed.

End RoundedSteps.

(** ** What the handlers report *)

Section NoticeFacts.

Variable format_precision : Props.t -> Value.
Variable editable : Props.t -> bool.

Lemma reports_refl (w : NumberPicker) : reports w w [].
Proof. split; [reflexivity|]. rewrite app_nil_r. reflexivity. Qed.

Lemma reports_trans (w1 w2 w3 : NumberPicker) (l1 l2 : list Notice) :
  reports w1 w2 l1 -> reports w2 w3 l2 -> reports w1 w3 (l1 ++ l2)%list.
Proof.
  intros [P1 N1] [P2 N2]. split; [congruence|].
  rewrite N2, N1, app_assoc. reflexivity.
Qed.

Lemma reports_log (n : Notice) (w : NumberPicker) : reports w (log n w) [n].
Proof. split; reflexivity. Qed.

(** What [handleChange] adds. *)
Lemma handleChange_reports
  (raw : Value) (event : option Event) (w : NumberPicker) :
  exists l,
    reports w (snd (handleChange raw event w)) l
    /\ Forall (sound (this_props w)) l /\ (List.length l <= 1)%nat.
Proof.
  unfold handleChange.
  destruct (strict_equal _ _) eqn:E; cbn [negb].
  - exists []. split; [apply reports_refl|]. split; [constructor|cbn; lia].
  - eexists. split; [apply reports_log|]. split; [|cbn; lia].
    constructor; [|constructor]. cbn. repeat split. exact E.
Qed.

Lemma step_reports
  (amount : Value) (event : option Event) (w : NumberPicker) :
  exists l,
    reports w (snd (step format_precision amount event w)) l
    /\ Forall (sound (this_props w)) l /\ (List.length l <= 1)%nat.
Proof.
  unfold step.
  destruct (if negb (is_nullish _) then round _ _ else Normal _)
    as [raw|e].
  - unfold bind.
    destruct (handleChange_reports raw event w) as (l & H).
    destruct (handleChange raw event w) as [[[]|e] w']; exists l; exact H.
  - exists []. split; [apply reports_refl|]. split; [constructor|cbn; lia].
Qed.

Lemma method_reports (d : Direction) (event : option Event)
  (w : NumberPicker) :
  exists l,
    reports w
      (snd ((if is_up d then increment format_precision
             else decrement format_precision) event w)) l
    /\ Forall (sound (this_props w)) l /\ (List.length l <= 1)%nat.
Proof.
  destruct (is_up d); [unfold increment|unfold decrement]; apply step_reports.
Qed.

Lemma handleMouseUp_reports (w : NumberPicker) :
  reports w (snd (handleMouseUp editable w)) [].
Proof.
  destruct (editable (this_props w)) eqn:He.
  - rewrite (handleMouseUp_editable editable w He). cbn [snd].
    split; cbn; [|rewrite app_nil_r];
      destruct (_cancelRepeater (state w)) as [k|]; try reflexivity;
      destruct (cancel_frame k w) as (-> & _); reflexivity.
  - rewrite (handleMouseUp_blocked editable w He). apply reports_refl.
Qed.

Lemma after_method_reports (d : Direction) (event : option Event)
  (min max value : Value) (w : NumberPicker) :
  reports w (snd (after_method editable d event min max value w)) [].
Proof.
  unfold after_method.
  destruct ((is_up d && strict_equal value max)
            || (negb (is_up d) && strict_equal value min)).
  - apply handleMouseUp_reports.
  - destruct (_cancelRepeater (state w)); [apply reports_refl|].
    split; cbn; [reflexivity|rewrite app_nil_r; reflexivity].
Qed.

Lemma handleMouseDown_reports (d : Direction) (event : option Event)
  (w : NumberPicker) :
  exists l,
    reports w (snd (handleMouseDown format_precision editable d event w)) l
    /\ Forall (sound (this_props w)) l /\ (List.length l <= 1)%nat.
Proof.
  rewrite handleMouseDown_unfold.
  destruct (editable (this_props w)).
  - destruct (method_reports d event w) as (l & R & F & L).
    destruct ((if is_up d then increment format_precision
               else decrement format_precision) event w) as [[value|e] w'];
      cbn [snd] in R |- *; exists l; (split; [|split; assumption]).
    + rewrite <- (app_nil_r l).
      apply (reports_trans w w' _ l [] R). apply after_method_reports.
    + exact R.
  - exists []. split; [apply reports_refl|]. split; [constructor|cbn; lia].
Qed.

Lemma handleKeyDown_reports (event : Event) (w : NumberPicker) :
  exists l,
    reports w (snd (handleKeyDown format_precision editable event w)) l
    /\ Forall (sound (this_props w)) l /\ (List.length l <= 2)%nat.
Proof.
  unfold handleKeyDown, widgetEditable.
  destruct (editable (this_props w));
    [|exists []; split; [apply reports_refl|]; split; [constructor|cbn; lia]].
  unfold bind at 1. cbn [notify modify].
  set (w1 := log (OnKeyDown event) w).
  assert (G : forall (c : @Action Component (Direction * option Event) unit),
            (exists l,
               reports w1 (snd (c w1)) l /\ Forall (sound (this_props w1)) l
               /\ (List.length l <= 1)%nat) ->
            exists l,
              reports w (snd (c w1)) l /\ Forall (sound (this_props w)) l
              /\ (List.length l <= 2)%nat).
  { intros c (l & R & F & L). exists (OnKeyDown event :: l).
    split; [apply (reports_trans w w1 _ [OnKeyDown event] l);
            [apply reports_log|exact R]|].
    split; [constructor; [exact I|exact F]|cbn; lia]. }
  destruct (defaultPrevented event).
  { apply (G (fun w => ret tt w)). exists [].
    split; [apply reports_refl|]. split; [constructor|cbn; lia]. }
  destruct (String.eqb (key event) "End" && isFinite (Props.max (this_props w))).
  { apply (G (handleChange _ _)). apply handleChange_reports. }
  destruct (String.eqb (key event) "Home" && isFinite (Props.min (this_props w))).
  { apply (G (handleChange _ _)). apply handleChange_reports. }
  destruct (String.eqb (key event) "ArrowDown").
  { apply (G (bind (decrement format_precision (Some event))
                (fun _ => ret tt))).
    unfold bind, decrement.
    destruct (step_reports (negate (Props.step (this_props w1)))
                (Some event) w1) as (l & H).
    destruct (step format_precision _ (Some event) w1) as [[v|e] w'];
      exists l; exact H. }
  destruct (String.eqb (key event) "ArrowUp").
  { apply (G (bind (increment format_precision (Some event))
                (fun _ => ret tt))).
    unfold bind, increment.
    destruct (step_reports (Props.step (this_props w1))
                (Some event) w1) as (l & H).
    destruct (step format_precision _ (Some event) w1) as [[v|e] w'];
      exists l; exact H. }
  apply (G (fun w => ret tt w)). exists [].
  split; [apply reports_refl|]. split; [constructor|cbn; lia].
Qed.

Lemma fire_next_reports (w w' : NumberPicker) :
  fire_next (repeat format_precision editable) w = Some w' ->
  exists l,
    reports w w' l /\ Forall (sound (this_props w)) l
    /\ (List.length l <= 1)%nat.
Proof.
  unfold fire_next. destruct (earliest (queue w)) as [t|]; [|discriminate].
  intros H. injection H as <-. unfold tick.
  set (w0 := clearTimeout (tid t) (with_now (Z.max (now w) (due t)) w)).
  assert (S0 : state w0 = state w) by reflexivity.
  destruct (nth_error (intervals w0) (fn t)) as [iv|].
  - cbn [setTimeout]. unfold repeat.
    match goal with
    | |- context [handleMouseDown _ _ ?d ?e ?x] =>
        destruct (handleMouseDown_reports d e x) as (l & R & F & L);
        exists l; split; [|split; [exact F|exact L]]
    end.
    exact R.
  - exists []. split; [|split; [constructor|cbn; lia]].
    split; [rewrite S0; reflexivity|rewrite S0, app_nil_r; reflexivity].
Qed.

(** X11. Whatever happens to the component (a press or release of a
    button, a key, a change of the input, new props, a firing of the timer),
    the notices given so far stay as they are and at most two are added;
    every [onChange] added carries the clamp of its raw value, the current
    value prop as last value, and a value that differs from it; and the
    props change only when the parent hands new ones. *)
Theorem react_reports (i : Input) (w : NumberPicker) :
  exists l,
    notified (state (react format_precision editable i w))
    = (notified (state w) ++ l)%list
    /\ Forall (sound (this_props w)) l
    /\ (List.length l <= 2)%nat
    /\ props (state (react format_precision editable i w))
       = match i with Receive p => p | _ => this_props w end.
Proof.
  assert (G : forall w' k,
            (exists l, reports w w' l /\ Forall (sound (this_props w)) l
                       /\ (List.length l <= k)%nat) ->
            (k <= 2)%nat ->
            exists l,
              notified (state w') = (notified (state w) ++ l)%list
              /\ Forall (sound (this_props w)) l
              /\ (List.length l <= 2)%nat
              /\ props (state w') = this_props w).
  { intros w' k (l & [P N] & F & L) Hk. exists l.
    repeat split; try assumption. lia. }
  destruct i as [d e| | |e|raw|p|]; cbn [react].
  - apply (G _ 1%nat); [apply handleMouseDown_reports|lia].
  - apply (G _ 0%nat); [|lia]. exists [].
    split; [apply handleMouseUp_reports|]. split; [constructor|cbn; lia].
  - apply (G _ 0%nat); [|lia]. exists [].
    split; [apply handleMouseUp_reports|]. split; [constructor|cbn; lia].
  - apply (G _ 2%nat); [apply handleKeyDown_reports|lia].
  - apply (G _ 1%nat); [apply handleChange_reports|lia].
  - exists []. cbn. rewrite app_nil_r. repeat split; [constructor|lia].
  - destruct (fire_next _ w) as [w'|] eqn:E.
    + apply (G _ 1%nat); [apply (fire_next_reports w w' E)|lia].
    + apply (G _ 0%nat); [|lia]. exists [].
      split; [apply reports_refl|]. split; [constructor|cbn; lia].
Qed.

(** ** Home and End *)

Lemma handleKeyDown_unfold (event : Event) (w : NumberPicker) :
  editable (this_props w) = true ->
  handleKeyDown format_precision editable event w =
  (if defaultPrevented event then ret tt
   else if String.eqb (key event) "End" && isFinite (Props.max (this_props w))
   then handleChange (Props.max (this_props w)) (Some event)
   else if String.eqb (key event) "Home"
           && isFinite (Props.min (this_props w))
   then handleChange (Props.min (this_props w)) (Some event)
   else if String.eqb (key event) "ArrowDown"
   then bind (decrement format_precision (Some event)) (fun _ => ret tt)
   else if String.eqb (key event) "ArrowUp"
   then bind (increment format_precision (Some event)) (fun _ => ret tt)
   else ret tt) (log (OnKeyDown event) w).
Proof.
  intros He. unfold handleKeyDown, widgetEditable. rewrite He. reflexivity.
Qed.

Lemma clamp_bound (lo hi : spec_float) :
  num_le lo hi = true ->
  clamp (VNumber hi) (VNumber lo) (VNumber hi)
  = VNumber (if Num.is_neg_zero hi && Num.is_pos_zero lo then lo else hi)
  /\ clamp (VNumber lo) (VNumber lo) (VNumber hi) = VNumber lo.
Proof.
  intros H. apply num_le_spec in H. destruct H as (Hl & Hh & H).
  rewrite !clamp_numbers by assumption.
  rewrite !max_step_before, !min_step_before, !before_irrefl.
  split; f_equal.
  - unfold before at 1. replace (Num.ltb hi lo) with false.
    rewrite orb_false_r. reflexivity.
  - destruct (before hi lo) eqn:B.
    + destruct (before_not_ltb hi lo B H) as [-> ->]. reflexivity.
    + rewrite before_irrefl. reflexivity.
Qed.

(** X12. With bounds [min <= max] that are numbers, on an editable
    component and an event that is not prevented: the [End] key reports
    [max] when [max] is finite and is not the current value, and the [Home]
    key reports [min] when [min] is finite and is not the current value; in
    every other case the key only passes through [onKeyDown]. *)
Theorem home_and_end (event : Event) (w : NumberPicker) (lo hi : spec_float) :
  editable (this_props w) = true ->
  defaultPrevented event = false ->
  Props.min (this_props w) = VNumber lo ->
  Props.max (this_props w) = VNumber hi ->
  num_le lo hi = true ->
  Num.is_neg_zero hi && Num.is_pos_zero lo = false ->
  let v := Props.value (this_props w) in
  let w1 := log (OnKeyDown event) w in
  (key event = "End" ->
   snd (handleKeyDown format_precision editable event w) =
   if Num.is_finite hi && negb (strict_equal v (VNumber hi))
   then log (OnChange (VNumber hi) (VNumber hi) v (Some event)) w1
   else w1)
  /\ (key event = "Home" ->
      snd (handleKeyDown format_precision editable event w) =
      if Num.is_finite lo && negb (strict_equal v (VNumber lo))
      then log (OnChange (VNumber lo) (VNumber lo) v (Some event)) w1
      else w1).
Proof.
  intros He Hd El Eh Hle Hz. cbv zeta.
  destruct (clamp_bound lo hi Hle) as [Ch Cl]. rewrite Hz in Ch.
  rewrite (handleKeyDown_unfold event w He), Hd.
  assert (P : this_props (log (OnKeyDown event) w) = this_props w)
    by reflexivity.
  split; intros Ek; rewrite Ek; cbn [String.eqb Ascii.eqb Bool.eqb andb];
    rewrite ?El, ?Eh; unfold isFinite; cbn [to_number].
  - destruct (Num.is_finite hi); cbn [andb]; [|reflexivity].
    unfold handleChange. rewrite P, El, Eh, Ch.
    destruct (strict_equal _ _); reflexivity.
  - destruct (Num.is_finite lo); cbn [andb]; [|reflexivity].
    unfold handleChange. rewrite P, El, Eh, Cl.
    destruct (strict_equal _ _); reflexivity.
Qed.

End NoticeFacts.

(** ** What is rendered *)

(** X13. With a value that is a number and bounds [min < max], [render]
    disables the increment button exactly when the value is at or above
    [max] or the widget is disabled, and the decrement button exactly when
    the value is at or below [min] or the widget is disabled. *)
Theorem render_buttons (w : NumberPicker) (x lo hi : spec_float) :
  Props.value (this_props w) = VNumber x ->
  Props.min (this_props w) = VNumber lo ->
  Props.max (this_props w) = VNumber hi ->
  Num.is_nan x = false -> Num.ltb lo hi = true ->
  increment_disabled (render w)
  = num_le hi x || Props.disabled (this_props w)
  /\ decrement_disabled (render w)
     = num_le x lo || Props.disabled (this_props w).
Proof.
  intros Ev El Eh Hx Hlt. unfold render. rewrite Ev, El, Eh.
  cbn [input_value increment_disabled decrement_disabled].
  assert (Hl : Num.is_nan lo = false)
    by (destruct lo; try reflexivity; discriminate).
  assert (Hh : Num.is_nan hi = false)
    by (destruct lo, hi; try reflexivity; discriminate).
  assert (Hle : num_le lo hi = true).
  { apply num_le_spec. repeat split; try assumption.
    apply not_true_iff_false. intros C. order_facts. shapes; lia. }
  rewrite (clamp_numbers x lo hi Hx Hl Hh). cbn [strict_equal].
  pose proof (min_step_not_nan x hi Hx Hh) as Hm.
  pose proof (max_step_not_nan _ lo Hm Hl) as Hr.
  split; f_equal; apply eq_true_iff_eq;
    rewrite num_le_spec, (num_eqb_spec _ _ Hr) by assumption;
    rewrite max_step_before in *; rewrite min_step_before in *;
    (destruct (before hi x) eqn:B1;
     [destruct (before hi lo) eqn:B2 | destruct (before x lo) eqn:B2]);
    match goal with
    | |- _ <-> _ /\ _ /\ Num.ltb ?a ?b = false =>
        destruct (Num.ltb a b) eqn:L
    end;
    order_facts; clear Hm Hr;
    (split;
     [ intros E; repeat split; try assumption; exfalso; shapes;
       destruct E as [E|E]; try discriminate E; try injection E as ? ?;
       lia
     | intros (_ & _ & C); try discriminate;
       shapes; try (left; reflexivity); try (right; lia);
       try (left; f_equal; lia); exfalso; lia ]).
Qed.

(** ** The loop with a parent that hands the value back *)

Lemma strict_equal_refl (v : Value) :
  v <> VNumber Num.NaN -> strict_equal v v = true.
Proof.
  destruct v as [| |x|s]; intros H; try reflexivity.
  - cbn. apply num_eqb_spec; try (destruct x; try reflexivity; contradiction).
    left. reflexivity.
  - cbn. apply String.eqb_refl.
Qed.

(** X14. Once the parent has handed back the value of an [onChange] as the
    value prop, handing [handleChange] the same raw value, or the reported
    value, again reports nothing.  The one exception is a reported NaN: it
    never equals itself, so it is reported again. *)
Theorem handleChange_settles
  (raw : Value) (event event' : option Event) (w : NumberPicker) :
  let next :=
    clamp raw (Props.min (this_props w)) (Props.max (this_props w)) in
  let w' :=
    receive (with_value next (this_props w))
      (snd (handleChange raw event w)) in
  (next <> VNumber Num.NaN ->
   handleChange raw event' w' = (Returned tt, w')
   /\ handleChange next event' w' = (Returned tt, w'))
  /\ (next = VNumber Num.NaN ->
      handleChange raw event' w'
      = (Returned tt,
         log (OnChange (VNumber Num.NaN) raw (VNumber Num.NaN) event') w')).
Proof.
  cbv zeta. set (next := clamp raw _ _).
  set (w' := receive _ _).
  assert (P : this_props w' = with_value next (this_props w)) by reflexivity.
  unfold handleChange. rewrite !P.
  cbn [with_value Props.value Props.min Props.max].
  fold next. split; intros H.
  - assert (E : clamp next (Props.min (this_props w))
                 (Props.max (this_props w)) = next)
      by apply clamp_clamp.
    rewrite E, (strict_equal_refl next H). split; reflexivity.
  - rewrite H. reflexivity.
Qed.

(** ** A step reports a number *)

Lemma render_decimal_len (ds : string) (n : Z) :
  1 <= len ds -> 1 <= len (render_decimal ds n).
Proof.
  intros H. unfold render_decimal. fold (len ds).
  pose proof len_nonneg as N.
  destruct ((len ds <=? n) && (n <=? 21)); [rewrite len_append; specialize (N (Digits.zeros (Z.to_nat (n - len ds)))); lia|].
  destruct ((0 <? n) && (n <=? 21)).
  { rewrite !len_append.
    pose proof (N (Digits.prefix_len (Z.to_nat n) ds)).
    pose proof (N (Digits.drop_len (Z.to_nat n) ds)).
    change (len ".") with 1. lia. }
  destruct ((-6 <? n) && (n <=? 0)).
  { rewrite !len_append. change (len "0.") with 2.
    pose proof (N (Digits.zeros (Z.to_nat (- n)))). lia. }
  destruct (len ds =? 1).
  { rewrite len_append. pose proof (N (exponent_suffix n)). lia. }
  rewrite !len_append.
  pose proof (N (Digits.prefix_len 1 ds)).
  pose proof (N (Digits.drop_len 1 ds)).
  pose proof (N (exponent_suffix n)).
  change (len ".") with 1. lia.
Qed.

Lemma number_to_string_len (x : spec_float) : 1 <= len (number_to_string x).
Proof.
  destruct x as [s|s| |s m e]; cbn [number_to_string].
  - cbn. lia.
  - destruct s; cbn; lia.
  - cbn. lia.
  - pose proof (shortest_decimal_digits m e) as [_ H].
    destruct (shortest_decimal m e) as [ds n]. cbn [fst] in H.
    rewrite len_append. pose proof (render_decimal_len ds n H).
    pose proof (len_nonneg (if s then "-" else "")). lia.
Qed.

Lemma point_len (m : string) (f : Z) : 1 <= len m -> 1 <= len (point m f).
Proof.
  intros H. unfold point. destruct (f =? 0); [exact H|].
  rewrite !len_append. change (len ".") with 1.
  pose proof len_nonneg as N.
  match goal with
  | |- 1 <= len ?a + (1 + len ?b) =>
      pose proof (N a); pose proof (N b); lia
  end.
Qed.

Lemma normal_inj {A : Type} (a b : A) : Normal a = Normal b -> a = b.
Proof. intros H. injection H as ->. reflexivity. Qed.

Lemma to_fixed_len (x : spec_float) (d : Value) (s : string) :
  to_fixed x d = Normal s -> 1 <= len s.
Proof.
  unfold to_fixed.
  destruct (to_integer_or_infinity (to_number d)) as [f|]; [|discriminate].
  destruct ((f <? 0) || (100 <? f)); [discriminate|].
  assert (F : forall N D, 1 <= len (fixed_digits N D f)).
  { intros N D. unfold fixed_digits. apply point_len.
    destruct (Z_le_gt_dec 0 ((2 * N * 10 ^ f + D) / (2 * D))) as [H|H].
    - apply (render_spec _ H).
    - destruct ((2 * N * 10 ^ f + D) / (2 * D)) as [|q|q]; try lia.
      cbn. lia. }
  destruct x as [sx|sx| |sx m e].
  - intros E. apply normal_inj in E. subst s. apply F.
  - intros E. apply normal_inj in E. subst s.
    apply (number_to_string_len (S754_infinity sx)).
  - intros E. apply normal_inj in E. subst s.
    apply (number_to_string_len S754_nan).
  - destruct (Num.ratio_of m e) as [N D]. intros E.
    apply normal_inj in E. subst s.
    rewrite len_append.
    pose proof (len_nonneg (if sx then "-" else "")) as H.
    destruct (10 ^ 21 * D <=? N);
      [pose proof (number_to_string_len (S754_finite false m e)) as G
      |pose proof (F N D) as G]; revert G H;
      generalize (len (if sx then "-" else "")); intros a;
      match goal with |- 1 <= ?b -> _ => generalize b end; intros; lia.
Qed.

Lemma round_len (value precision : Value) (r : Value) :
  round value precision = Normal r -> exists s, r = VString s /\ 1 <= len s.
Proof.
  unfold round.
  match goal with
  | |- context [to_fixed ?x ?d] =>
      destruct (to_fixed x d) as [s|e] eqn:E; [|discriminate];
      apply to_fixed_len in E
  end.
  intros H. apply normal_inj in H. subst r. exists s.
  split; [reflexivity|exact E].
Qed.

Lemma plus_present (v amount : Value) :
  (exists x, plus (or_else v (VNumber Num.zero)) amount = VNumber x)
  \/ (exists s, plus (or_else v (VNumber Num.zero)) amount = VString s
                /\ 1 <= len s).
Proof.
  assert (A : (exists x, or_else v (VNumber Num.zero) = VNumber x)
              \/ (exists c r, or_else v (VNumber Num.zero)
                              = VString (String c r))).
  { unfold or_else. destruct v as [| |x|[|c r]]; cbn [truthy];
      try (left; eexists; reflexivity).
    - destruct (match x with S754_zero _ | S754_nan => false | _ => true end);
        left; eexists; reflexivity.
    - right. exists c, r. reflexivity. }
  pose proof len_nonneg as N.
  destruct A as [[x ->]|(c & r & ->)].
  - destruct amount as [| |y|t]; try (left; eexists; reflexivity).
    right. eexists. split; [reflexivity|]. cbn [to_string].
    rewrite len_append. pose proof (number_to_string_len x).
    pose proof (N t). lia.
  - right. eexists. split; [reflexivity|]. cbn [to_string].
    rewrite len_append. pose proof (N (to_string amount)).
    unfold len at 1. cbn [String.length]. lia.
Qed.

Lemma clamp_present (raw min max : Value) :
  (exists x, raw = VNumber x) \/ (exists s, raw = VString s /\ 1 <= len s) ->
  exists z, clamp raw min max = VNumber z.
Proof.
  intros [[x ->]|(s & -> & H)]; unfold clamp.
  - eexists. reflexivity.
  - destruct s as [|c r]; [cbn in H; lia|]. eexists. reflexivity.
Qed.

Section StepReports.

Variable format_precision : Props.t -> Value.

(** X15. Whatever the props and the amount are, [step] leaves the
    component as it is or adds exactly one [onChange], whose value is a
    number (never null, undefined or a string) and whose last value is the
    current value prop. *)
Theorem step_reports_a_number
  (amount : Value) (event : option Event) (w : NumberPicker) :
  snd (step format_precision amount event w) = w
  \/ exists z raw,
       snd (step format_precision amount event w)
       = log (OnChange (VNumber z) raw (Props.value (this_props w)) event) w.
Proof.
  rewrite step_unfold.
  set (sum := plus (or_else (Props.value (this_props w)) (VNumber Num.zero))
                amount).
  assert (R : forall raw,
            (exists x, raw = VNumber x)
            \/ (exists s, raw = VString s /\ 1 <= len s) ->
            snd (bind (handleChange raw event) (fun _ => ret sum) w) = w
            \/ exists z raw',
                 snd (bind (handleChange raw event) (fun _ => ret sum) w)
                 = log (OnChange (VNumber z) raw'
                          (Props.value (this_props w)) event) w).
  { intros raw Hraw. unfold bind, handleChange.
    destruct (clamp_present raw (Props.min (this_props w))
                (Props.max (this_props w)) Hraw) as [z ->].
    destruct (strict_equal _ _); cbn; [left; reflexivity|].
    right. exists z, raw. reflexivity. }
  destruct (negb (is_nullish (decimals format_precision (this_props w)))).
  - destruct (round sum _) as [r|e] eqn:E; [|left; reflexivity].
    apply R. right. destruct (round_len _ _ _ E) as (s & -> & H).
    exists s. split; [reflexivity|exact H].
  - apply R. destruct (plus_present (Props.value (this_props w)) amount)
      as [[x H]|(s & H & L)]; [left; exists x|right; exists s; split];
      assumption.
Qed.

End StepReports.

(** ** More on the timers *)

Section ElapseFacts.

Context {S Callback : Type}.
Variable run : Callback -> @Action S Callback unit.

Lemma elapse_armed (k : nat) (cb : Callback) :
  leaves_timers (run cb) ->
  forall n fuel t T (w : World S Callback),
    armed k cb t w -> (n < fuel)%nat ->
    (n = O -> T < t) ->
    (n <> O -> t + 35 * (Z.of_nat n - 1) <= T < t + 35 * Z.of_nat n) ->
    exists wn,
      fire_n run n w = Some wn
      /\ elapse run fuel T w = with_now (Z.max (now wn) T) wn.
Proof.
  intros Hrun. induction n as [|n IH]; intros fuel t T w Ha Hf H0 H1.
  - exists w. split; [reflexivity|].
    destruct fuel as [|fuel]; [lia|].
    destruct Ha as (i & Hq & Hi & Hn). cbn [elapse]. rewrite Hq.
    cbn [earliest due].
    replace (t <=? T) with false
      by (symmetry; apply Z.leb_gt; apply H0; reflexivity).
    reflexivity.
  - destruct fuel as [|fuel]; [lia|].
    destruct (fire_armed run k cb t w Ha) as [Hfire Ha'].
    destruct (Hrun (rearmed k t w)) as (E1 & E2 & E3 & E4).
    assert (Ha'' : armed k cb (t + 35) (snd (run cb (rearmed k t w)))).
    { apply (armed_transport _ _ _ _ _ Ha'); assumption. }
    destruct (IH fuel (t + 35) T _ Ha'' ltac:(lia)) as (wn & Hn & He).
    + intros ->. specialize (H1 ltac:(discriminate)). lia.
    + intros Hne. specialize (H1 ltac:(discriminate)). lia.
    + exists wn. split; [cbn [fire_n]; rewrite Hfire; exact Hn|].
      destruct Ha as (i & Hq & Hi & Hnow). cbn [elapse]. rewrite Hq.
      cbn [earliest due].
      replace (t <=? T) with true
        by (symmetry; apply Z.leb_le; specialize (H1 ltac:(discriminate));
            lia).
      rewrite Hfire. exact He.
Qed.

Lemma calls_due_spec (t T : Z) :
  (calls_due t T = O -> T < t)
  /\ (calls_due t T <> O ->
      t + 35 * (Z.of_nat (calls_due t T) - 1) <= T
      < t + 35 * Z.of_nat (calls_due t T)).
Proof.
  unfold calls_due. destruct (Z.ltb_spec T t) as [H|H].
  - split; [intros _; exact H|]. intros C. exfalso. apply C. reflexivity.
  - pose proof (Z.div_mod (T - t) 35 ltac:(lia)) as D.
    pose proof (Z.mod_pos_bound (T - t) 35 ltac:(lia)) as B.
    assert (0 <= (T - t) / 35) by (apply Z.div_pos; lia).
    split; [lia|]. intros _. rewrite Z2Nat.id by lia. lia.
Qed.

End ElapseFacts.

(** X16. On a host with no other timer, an interval created at time [t0]
    whose callback leaves the timers alone has run the callback, by any
    time [T >= t0], once for each of the times [t0 + 500],
    [t0 + 535], [t0 + 570], ... up to [T], and its next call is queued. *)
Theorem createInterval_calls_by_time {S Callback : Type}
  (run : Callback -> @Action S Callback unit) (cb : Callback)
  (w : World S Callback) (T : Z) (fuel : nat) :
  queue w = [] -> leaves_timers (run cb) -> now w <= T ->
  (calls_due (now w + 500) T < fuel)%nat ->
  exists wn,
    fire_n run (calls_due (now w + 500) T) (snd (createInterval cb w))
    = Some wn
    /\ elapse run fuel T (snd (createInterval cb w)) = with_now T wn
    /\ armed (fst (createInterval cb w)) cb
         (now w + 500 + 35 * Z.of_nat (calls_due (now w + 500) T)) wn.
Proof.
  intros Hq Hrun HT Hf.
  destruct (createInterval_armed cb w Hq) as (Hk & Ha & Hs & Hn).
  rewrite Hk.
  destruct (calls_due_spec (now w + 500) T) as [C0 C1].
  destruct (elapse_armed run _ cb Hrun _ fuel _ T _ Ha Hf C0 C1)
    as (wn & Hfire & He).
  destruct (fire_n_armed run _ cb Hrun (calls_due (now w + 500) T) _ _ Ha)
    as (wn' & Hfire' & Ha' & Hnow).
  rewrite Hfire in Hfire'. injection Hfire' as <-.
  exists wn. split; [exact Hfire|]. split; [|exact Ha'].
  rewrite He. f_equal.
  destruct (Nat.eq_dec (calls_due (now w + 500) T) O) as [E|E].
  - assert (Ew : wn = snd (createInterval cb w)).
    { rewrite E in Hfire. cbn [fire_n] in Hfire. congruence. }
    rewrite Ew, Hn. lia.
  - rewrite (Hnow E). specialize (C1 E). lia.
Qed.

Section FreshFacts.

Context {S Callback : Type}.

Lemma filter_keeps_all (i : Z) (q : list Timer) :
  (forall t, In t q -> tid t <> i) ->
  filter (fun t => negb (tid t =? i)) q = q.
Proof.
  induction q as [|t q IH]; intros H; [reflexivity|].
  cbn [filter].
  replace (tid t =? i) with false
    by (symmetry; apply Z.eqb_neq; apply H; left; reflexivity).
  cbn [negb]. f_equal. apply IH. intros u Hu. apply H. right. exact Hu.
Qed.

End FreshFacts.

(** X17. A new interval does not disturb the timers there are: it adds one
    timer, with an identifier no timer and no interval has yet, behind the
    queued ones; its cancel handle removes that timer and no other, and the
    handles of older intervals leave it queued. *)
Theorem createInterval_independent {S Callback : Type}
  (cb : Callback) (w : World S Callback) :
  fresh w ->
  let k := fst (createInterval cb w) in
  let w1 := snd (createInterval cb w) in
  let timer := {| tid := next_id w; due := now w + 500; fn := k |} in
  fresh w1
  /\ queue w1 = (queue w ++ [timer])%list
  /\ queue (cancel k w1) = queue w
  /\ (forall k' iv,
        nth_error (intervals w) k' = Some iv ->
        queue (cancel k' w1) = (queue (cancel k' w) ++ [timer])%list).
Proof.
  intros [Fq Fi]. cbv zeta. unfold createInterval. cbn [setTimeout fst snd].
  cbn [queue intervals next_id now].
  split; [|split; [reflexivity|split]].
  - split; cbn [queue intervals next_id].
    + intros t Ht. apply in_app_or in Ht. destruct Ht as [Ht|[<-|[]]].
      * specialize (Fq t Ht). lia.
      * cbn. lia.
    + intros iv Hiv. apply in_app_or in Hiv. destruct Hiv as [Hiv|[<-|[]]].
      * specialize (Fi iv Hiv). lia.
      * cbn. lia.
  - unfold cancel. cbn [intervals].
    rewrite nth_error_app2 by lia. rewrite Nat.sub_diag. cbn [nth_error id].
    unfold clearTimeout. cbn [queue with_queue].
    rewrite filter_app. cbn [filter tid]. rewrite Z.eqb_refl. cbn [negb].
    rewrite app_nil_r. apply filter_keeps_all.
    intros t Ht. specialize (Fq t Ht). lia.
  - intros k' iv Hk'. unfold cancel. cbn [intervals].
    rewrite nth_error_app1 by (apply nth_error_Some; congruence).
    rewrite Hk'. unfold clearTimeout. cbn [queue with_queue].
    rewrite filter_app. cbn [filter tid].
    replace (next_id w =? id iv) with false; [reflexivity|].
    symmetry. apply Z.eqb_neq.
    specialize (Fi iv (nth_error_In _ _ Hk')). lia.
Qed.

(** ** Holding a button *)

Lemma last_change_app (l : list Notice) (v raw last : Value)
  (e : option Event) :
  last_change (l ++ [OnChange v raw last e])%list = Some v.
Proof.
  induction l as [|n l IH]; [reflexivity|].
  cbn [Datatypes.app last_change]. rewrite IH. reflexivity.
Qed.

Section HoldFacts.

Variable format_precision : Props.t -> Value.
Variable editable : Props.t -> bool.
Variable p : Props.t.
Variable e : option Event.
Variables v s lo hi : Z.

Hypothesis Estep : Props.step p = number s.
Hypothesis Emin : Props.min p = number lo.
Hypothesis Emax : Props.max p = number hi.
Hypothesis Eprec : is_nullish (Props.precision p) = true.
Hypothesis Eformat :
  forall x, is_nullish (format_precision (with_value x p)) = true.
Hypothesis Eeditable : forall x, editable (with_value x p) = true.
Hypothesis Hs : 0 < s < 2 ^ 52.
Hypothesis Hv : lo <= v < hi.
Hypothesis Hlo : Z.abs lo < 2 ^ 52.
Hypothesis Hhi : Z.abs hi < 2 ^ 52.
Hypothesis Hsum : hi + s < 2 ^ 52.

(** One call of [handleMouseDown] for the up button at value [x]. *)
Lemma increment_at (x : Z) (w : NumberPicker) :
  this_props w = with_value (number x) p -> lo <= x <= hi ->
  increment format_precision e w =
  (Returned (number (x + s)),
   if x <? hi
   then log (OnChange (number (Z.min (x + s) hi)) (number (x + s))
               (number x) e) w
   else w).
Proof.
  intros Ep Hx. unfold increment. rewrite Ep.
  cbn [with_value Props.step]. rewrite Estep.
  rewrite (step_plain_sum format_precision (number s) x (x + s) lo hi e w);
    try (rewrite Ep; cbn [with_value Props.value Props.min Props.max
                            Props.precision]; auto); try lia.
  - replace (Z.max (Z.min (x + s) hi) lo) with (Z.min (x + s) hi) by lia.
    destruct (Z.ltb_spec x hi); destruct (Z.eqb_spec (Z.min (x + s) hi) x);
      try lia; reflexivity.
  - apply (proj1 (plus_integers x s ltac:(lia) ltac:(lia))). lia.
Qed.

Lemma at_top (x : Z) :
  lo <= x <= hi ->
  strict_equal (number (x + s)) (number hi) = (x + s =? hi).
Proof.
  intros Hx. unfold number. cbn [strict_equal]. apply eqb_of_Z; lia.
Qed.

Ltac world_cbn :=
  cbn [snd fst with_state with_queue with_now state notified log this_props
         props _cancelRepeater ret receive with_value last_change
         Datatypes.app mount
         queue intervals now next_id cancel nth_error clearTimeout filter
         tid due fn id callback negb createInterval setTimeout
         set_cancelRepeater modify List.length rearmed holding set_id
         Props.value Props.min Props.max Props.step Props.precision
         Props.disabled Props.readOnly].

(** The press of the button. *)
Lemma press_up :
  let n :=
    OnChange (number (Z.min (v + s) hi)) (number (v + s)) (number v) e in
  let w := held format_precision editable UP e O
             (mount (with_value (number v) p)) in
  if v + s =? hi then released p hi [n] w
  else w = holding p e O (Z.min (v + s) hi) [n].
Proof.
  cbv zeta. cbn [held react]. rewrite handleMouseDown_unfold.
  assert (Ep : this_props (mount (with_value (number v) p))
               = with_value (number v) p) by reflexivity.
  rewrite Ep, Eeditable. cbn [is_up].
  rewrite (increment_at v _ Ep ltac:(lia)).
  replace (v <? hi) with true by (symmetry; apply Z.ltb_lt; lia).
  unfold after_method. cbn [with_value Props.max Props.min is_up andb negb orb].
  rewrite Emax, (at_top v ltac:(lia)).
  destruct (Z.eqb_spec (v + s) hi) as [E|E]; cbn [orb].
  - rewrite handleMouseUp_editable by apply Eeditable.
    unfold echo, released. world_cbn. rewrite E, Z.min_id.
    split; reflexivity.
  - unfold echo. world_cbn. reflexivity.
Qed.

(** One firing of the timer while the button is held. *)
Lemma tick_up (k : nat) (x : Z) (L : list Notice) :
  lo <= x <= hi -> last_change L = Some (number x) ->
  let L' :=
    (L ++ (if x <? hi
           then [OnChange (number (Z.min (x + s) hi)) (number (x + s))
                   (number x) e]
           else []))%list in
  let w := echo (react format_precision editable TimerFires
                   (holding p e k x L)) in
  if x + s =? hi then released p hi L' w
  else w = holding p e (Datatypes.S k) (Z.min (x + s) hi) L'.
Proof.
  intros Hx HL. cbv zeta. cbn [react].
  rewrite (fire_single (repeat format_precision editable) O (UP, e)
             (Z.of_nat k + 1) (500 + 35 * Z.of_nat k) (holding p e k x L)
             eq_refl eq_refl).
  unfold repeat. cbn [fst snd]. rewrite handleMouseDown_unfold.
  assert (Enow : Z.max (now (holding p e k x L)) (500 + 35 * Z.of_nat k)
                 = 500 + 35 * Z.of_nat k).
  { cbn [now holding]. destruct (k =? 0)%nat eqn:E0; [|lia].
    apply Nat.eqb_eq in E0. subst k. reflexivity. }
  rewrite Enow.
  set (w1 := rearmed O _ (holding p e k x L)).
  assert (Ep : this_props w1 = with_value (number x) p) by reflexivity.
  rewrite Ep, Eeditable. cbn [is_up].
  rewrite (increment_at x _ Ep Hx).
  unfold after_method. cbn [with_value Props.max Props.min is_up andb negb orb].
  rewrite Emax, (at_top x Hx).
  destruct (Z.eqb_spec (x + s) hi) as [E|E]; cbn [orb].
  - replace (x <? hi) with true by (symmetry; apply Z.ltb_lt; lia).
    rewrite handleMouseUp_editable by apply Eeditable.
    unfold echo, released. subst w1. world_cbn.
    rewrite last_change_app. world_cbn. rewrite Z.eqb_refl. world_cbn.
    rewrite E, Z.min_id. split; reflexivity.
  - destruct (Z.ltb_spec x hi) as [Hlt|Hge].
    + unfold echo. subst w1. world_cbn.
      rewrite last_change_app. unfold holding, receive. world_cbn.
      replace (Datatypes.S k =? 0)%nat with false by reflexivity.
      replace (Z.of_nat (Datatypes.S k) - 1) with (Z.of_nat k) by lia.
      replace (Z.of_nat (Datatypes.S k) + 2) with (Z.of_nat k + 2 + 1) by lia.
      replace (Z.of_nat (Datatypes.S k) + 1) with (Z.of_nat k + 2) by lia.
      replace (500 + 35 * Z.of_nat (Datatypes.S k))
        with (500 + 35 * Z.of_nat k + 35) by lia.
      reflexivity.
    + assert (x = hi) by lia. subst x.
      unfold echo. subst w1. world_cbn.
      rewrite app_nil_r, HL. unfold holding, receive. world_cbn.
      rewrite Z.min_r by lia.
      replace (Datatypes.S k =? 0)%nat with false by reflexivity.
      replace (Z.of_nat (Datatypes.S k) - 1) with (Z.of_nat k) by lia.
      replace (Z.of_nat (Datatypes.S k) + 2) with (Z.of_nat k + 2 + 1) by lia.
      replace (Z.of_nat (Datatypes.S k) + 1) with (Z.of_nat k + 2) by lia.
      replace (500 + 35 * Z.of_nat (Datatypes.S k))
        with (500 + 35 * Z.of_nat k + 35) by lia.
      reflexivity.
Qed.

Lemma released_stays (x : Z) (L : list Notice) (w : NumberPicker) :
  released p x L w -> last_change L = Some (number x) ->
  echo (react format_precision editable TimerFires w) = w.
Proof.
  intros [Hq Hst] HL. cbn [react].
  rewrite (fire_next_idle _ w Hq). unfold echo. rewrite Hst.
  cbn [notified]. rewrite HL.
  destruct w as [n i q l st]. cbn in Hq, Hst. subst q st. reflexivity.
Qed.

Lemma landed_spec (n : nat) :
  landed v s hi n = true -> hi <= v + Z.of_nat n * s.
Proof.
  induction n as [|n IH]; [discriminate|]. cbn [landed]. intros H.
  apply orb_true_iff in H. destruct H as [H|H].
  - specialize (IH H). nia.
  - apply Z.eqb_eq in H. lia.
Qed.

Lemma last_change_counted (k : nat) :
  last_change (counted v s hi e (Datatypes.S k))
  = Some (number (Z.min (v + Z.of_nat (Datatypes.S k) * s) hi)).
Proof.
  induction k as [|k IH].
  - cbn [counted Datatypes.app]. change (Z.of_nat 0) with 0.
    replace (v + 0 * s <? hi) with true by (symmetry; apply Z.ltb_lt; lia).
    reflexivity.
  - remember (Datatypes.S k) as k1 eqn:Ek1. cbn [counted].
    destruct (Z.ltb_spec (v + Z.of_nat k1 * s) hi) as [H|H].
    + apply last_change_app.
    + rewrite app_nil_r, IH. f_equal. f_equal.
      rewrite !Z.min_r; [reflexivity| |lia].
      rewrite Nat2Z.inj_succ. nia.
Qed.

Lemma hold_invariant (k : nat) :
  let w := held format_precision editable UP e k
             (mount (with_value (number v) p)) in
  if landed v s hi (Datatypes.S k)
  then released p hi (counted v s hi e (Datatypes.S k)) w
  else w = holding p e k (Z.min (v + Z.of_nat (Datatypes.S k) * s) hi)
             (counted v s hi e (Datatypes.S k)).
Proof.
  cbv zeta. induction k as [|k IH].
  - pose proof press_up as H. cbv zeta in H.
    cbn [landed counted Datatypes.app orb]. change (Z.of_nat 0) with 0.
    change (Z.of_nat 1) with 1.
    replace (v + 0 * s) with v by lia.
    replace (v + 1 * s) with (v + s) by lia.
    replace (v <? hi) with true by (symmetry; apply Z.ltb_lt; lia).
    exact H.
  - cbn [held]. remember (Datatypes.S k) as k1 eqn:Ek1 in *.
    cbn [landed counted].
    set (a := v + Z.of_nat k1 * s) in *.
    set (b := v + Z.of_nat (Datatypes.S k1) * s).
    assert (Eb : b = a + s) by (subst a b; rewrite Nat2Z.inj_succ; lia).
    destruct (landed v s hi k1) eqn:Hl.
    + pose proof (landed_spec k1 Hl) as Hge. fold a in Hge.
      cbn [orb].
      replace (a <? hi) with false by (symmetry; apply Z.ltb_ge; lia).
      rewrite app_nil_r.
      rewrite (released_stays hi _ _ IH); [exact IH|].
      rewrite Ek1, last_change_counted, <- Ek1. fold a.
      rewrite Z.min_r by lia. reflexivity.
    + cbn [orb]. rewrite IH.
      assert (HL : last_change (counted v s hi e k1)
                   = Some (number (Z.min a hi))).
      { rewrite Ek1, last_change_counted, <- Ek1. reflexivity. }
      pose proof (tick_up k (Z.min a hi) (counted v s hi e k1)
                    ltac:(subst a; nia) HL) as T.
      cbv zeta in T.
      assert (E1 : (Z.min a hi <? hi) = (a <? hi)).
      { destruct (Z.ltb_spec a hi); [apply Z.ltb_lt|apply Z.ltb_ge]; lia. }
      assert (E2 : (Z.min a hi + s =? hi) = (b =? hi)).
      { destruct (Z.eqb_spec b hi); [apply Z.eqb_eq|apply Z.eqb_neq]; lia. }
      assert (E3 : Z.min (Z.min a hi + s) hi = Z.min b hi) by lia.
      rewrite E1, E2, E3 in T. rewrite <- Ek1 in T.
      destruct (Z.ltb_spec a hi) as [Hlt|Hge].
      * replace (Z.min a hi) with a in T |- * by lia.
        replace (a + s) with b in T by lia. exact T.
      * exact T.
Qed.

End HoldFacts.

(** X18. Holding the increment button, with a parent that hands every
    reported value back as the value prop: for integers [min <= value < max]
    and a step [0 < step], after the press and [k] firings of the timer the
    value is [min (value + (k + 1) * step) max], one [onChange] has been
    given per step until the value is [max], and the timer stays queued
    until a step lands on [max] exactly, when the repeater is stopped. *)
Theorem hold_counts_up
  (format_precision : Props.t -> Value) (editable : Props.t -> bool)
  (p : Props.t) (e : option Event) (v s lo hi : Z) (k : nat) :
  Props.step p = number s ->
  Props.min p = number lo ->
  Props.max p = number hi ->
  is_nullish (Props.precision p) = true ->
  (forall x, is_nullish (format_precision (with_value x p)) = true) ->
  (forall x, editable (with_value x p) = true) ->
  0 < s < 2 ^ 52 -> lo <= v < hi ->
  Z.abs lo < 2 ^ 52 -> Z.abs hi < 2 ^ 52 -> hi + s < 2 ^ 52 ->
  let w := held format_precision editable UP e k
             (mount (with_value (number v) p)) in
  Props.value (this_props w)
  = number (Z.min (v + Z.of_nat (Datatypes.S k) * s) hi)
  /\ notified (state w) = counted v s hi e (Datatypes.S k)
  /\ queue w
     = (if landed v s hi (Datatypes.S k) then []
        else [{| tid := Z.of_nat k + 1;
                 due := 500 + 35 * Z.of_nat k;
                 fn := O |}])
  /\ _cancelRepeater (state w)
     = (if landed v s hi (Datatypes.S k) then None else Some O).
Proof.
  intros Es El Eh Ep Ef Ee Hs Hv Hl Hh Hsum. cbv zeta.
  pose proof (hold_invariant format_precision editable p e v s lo hi
                Es El Eh Ep Ef Ee Hs Hv Hl Hh Hsum k) as H.
  cbv zeta in H.
  destruct (landed v s hi (Datatypes.S k)) eqn:L.
  - destruct H as [Hq Hst]. unfold this_props. rewrite Hq, Hst.
    cbn [props _cancelRepeater notified with_value Props.value].
    pose proof L as L'. eapply landed_spec in L'; eauto.
    rewrite Z.min_r by lia. repeat split; reflexivity.
  - rewrite H. repeat split; reflexivity.
Qed.

(** ** Integers and rounded texts through [clamp] *)

(** X19. On integers below [2^52] in magnitude [clamp] is
    [max (min x hi) lo] of the integers, and it is the same number for the
    decimal text of [x] with [p] zeros after the point, as [round] hands it
    to [handleChange]. *)
Theorem clamp_on_integers (x lo hi p : Z) :
  Z.abs x < 2 ^ 52 -> Z.abs lo < 2 ^ 52 -> Z.abs hi < 2 ^ 52 ->
  0 <= p <= 100 ->
  clamp (number x) (number lo) (number hi) = number (Z.max (Z.min x hi) lo)
  /\ clamp (VString (integer_text_with_zeros x p)) (number lo) (number hi)
     = number (Z.max (Z.min x hi) lo).
Proof.
  intros Hx Hlo Hhi Hp. split; [apply clamp_integers; assumption|].
  unfold integer_text_with_zeros.
  rewrite <- decimal_text_scaled by lia.
  rewrite clamp_integer_text by assumption.
  apply clamp_integers; assumption.
Qed.

(** X20. [round] of an integer [R] to [p] digits, for [p] from 0 to 100 and
    [|R * 10^p| < 2^51], is the decimal text of [R] followed, when [0 < p],
    by a point and [p] zeros; and that text reads back as the number
    [R]. *)
Theorem round_of_integer (R p : Z) :
  Z.abs (R * 10 ^ p) < 2 ^ 51 -> 0 <= p <= 100 ->
  round (number R) (number p)
  = Normal (VString (integer_text_with_zeros R p))
  /\ string_to_number (integer_text_with_zeros R p) = Num.of_Z R.
Proof.
  intros HR Hp. split; [apply round_integer; assumption|].
  unfold integer_text_with_zeros.
  rewrite <- decimal_text_scaled by lia.
  apply integer_text_read_back; [|assumption].
  assert (P : 0 < 10 ^ p) by (apply Z.pow_pos_nonneg; lia).
  nia.
Qed.

(** X21. For a number [round] is characterised on, the text [round]
    returns reads back, with [ToNumber], as the nearest number to the
    rounded decimal, and [clamp] treats the text as it treats that
    number. *)
Theorem rounded_text_reads_back (x : spec_float) (p : Z) (min max : Value) :
  roundable x p = true ->
  let r := integer_nearest (shifted x p) in
  exists text,
    round (VNumber x) (number p) = Normal (VString text)
    /\ string_to_number text = Num.of_decimal (r <? 0) (Z.abs r) (- p)
    /\ clamp (VString text) min max
       = clamp (VNumber (Num.of_decimal (r <? 0) (Z.abs r) (- p))) min max.
Proof.
  intros H. cbv zeta.
  assert (Hp : 0 <= p).
  { unfold roundable in H. destruct x as [s|s| |s m e]; try discriminate.
    rewrite !andb_true_iff in H. destruct H as [[[[_ _] H] _] _].
    apply Z.leb_le. exact H. }
  exists (decimal_text (integer_nearest (shifted x p)) p).
  split; [apply round_characterised; exact H|].
  split; [apply decimal_text_read_back; exact Hp|].
  unfold clamp. cbn [is_nullish orb strict_equal].
  rewrite (decimal_text_not_empty _ p Hp).
  unfold math_min. cbn [map to_number].
  rewrite (decimal_text_read_back _ p Hp).
  destruct (Num.of_decimal _ _ _); reflexivity.
Qed.

(** ** The properties at concrete inputs *)

Lemma clamp_in_range_witness :
  exists z,
    clamp (VNumber (Num.of_Z 11)) (VNumber (Num.of_Z 0)) (VNumber (Num.of_Z 10))
    = VNumber z
    /\ num_le (Num.of_Z 0) z = true /\ num_le z (Num.of_Z 10) = true
    /\ (z = Num.of_Z 11 \/ z = Num.of_Z 0 \/ z = Num.of_Z 10).
Proof.
  apply (clamp_in_range (Num.of_Z 11) (Num.of_Z 0) (Num.of_Z 10));
    vm_compute; reflexivity.
Defined.

Lemma clamp_keeps_what_is_in_range_witness :
  strict_equal
    (clamp (VNumber (Num.of_Z 5)) (VNumber (Num.of_Z 0)) (VNumber (Num.of_Z 10)))
    (VNumber (Num.of_Z 5))
  = num_le (Num.of_Z 0) (Num.of_Z 5) && num_le (Num.of_Z 5) (Num.of_Z 10).
Proof.
  apply (clamp_keeps_what_is_in_range (Num.of_Z 5) (Num.of_Z 0) (Num.of_Z 10));
    vm_compute; reflexivity.
Defined.

Lemma clamp_monotone_witness :
  exists x' y',
    clamp (VNumber (Num.of_Z (-3))) (VNumber (Num.of_Z 0)) (VNumber (Num.of_Z 10))
    = VNumber x'
    /\ clamp (VNumber (Num.of_Z 4)) (VNumber (Num.of_Z 0)) (VNumber (Num.of_Z 10))
       = VNumber y'
    /\ num_le x' y' = true.
Proof.
  apply (clamp_monotone (Num.of_Z (-3)) (Num.of_Z 4) (Num.of_Z 0) (Num.of_Z 10));
    vm_compute; reflexivity.
Defined.

Lemma clamp_crossed_bounds_witness :
  clamp (VNumber (Num.of_Z 5)) (VNumber (Num.of_Z 10)) (VNumber (Num.of_Z 0))
  = VNumber (Num.of_Z 10).
Proof.
  apply (clamp_crossed_bounds (Num.of_Z 5) (Num.of_Z 10) (Num.of_Z 0));
    vm_compute; reflexivity.
Defined.

Lemma clamp_on_integers_witness :
  clamp (number 11) (number 0) (number 10) = number (Z.max (Z.min 11 10) 0)
  /\ clamp (VString (integer_text_with_zeros 11 2)) (number 0) (number 10)
     = number (Z.max (Z.min 11 10) 0).
Proof.
  apply (clamp_on_integers 11 0 10 2); try lia; vm_compute; reflexivity.
Defined.

Lemma round_not_finite_witness :
  round (VNumber Num.Infinity) (number 2) = Normal (VString "NaN").
Proof.
  apply (round_not_finite Num.Infinity (number 2)); [reflexivity|].
  exists 2. split; [vm_compute; reflexivity|lia].
Defined.

Lemma round_idempotent_witness :
  round (VString (decimal_text 101 2)) (number 2)
  = Normal (VString (decimal_text 101 2)).
Proof. apply (round_idempotent 101 2); [vm_compute; reflexivity|lia]. Defined.

Lemma round_of_integer_witness :
  round (number 5) (number 2) = Normal (VString (integer_text_with_zeros 5 2))
  /\ string_to_number (integer_text_with_zeros 5 2) = Num.of_Z 5.
Proof. apply (round_of_integer 5 2); [vm_compute; reflexivity|lia]. Defined.

Lemma rounded_text_reads_back_witness :
  exists text,
    round (VNumber (string_to_number "1.005")) (number 2)
    = Normal (VString text)
    /\ string_to_number text
       = Num.of_decimal
           (integer_nearest (shifted (string_to_number "1.005") 2) <? 0)
           (Z.abs (integer_nearest (shifted (string_to_number "1.005") 2)))
           (- 2)
    /\ clamp (VString text) (number 0) (number 10)
       = clamp
           (VNumber
              (Num.of_decimal
                 (integer_nearest (shifted (string_to_number "1.005") 2) <? 0)
                 (Z.abs
                    (integer_nearest (shifted (string_to_number "1.005") 2)))
                 (- 2))) (number 0) (number 10).
Proof.
  apply (rounded_text_reads_back (string_to_number "1.005") 2 (number 0)
           (number 10)).
  vm_compute. reflexivity.
Defined.

Lemma step_integers_witness :
  increment no_precision None (mount (ranged (number 9) VUndefined))
  = (Returned (number (9 + 1)),
     if Z.max (Z.min (9 + 1) 10) 0 =? 9
     then mount (ranged (number 9) VUndefined)
     else log (OnChange (number (Z.max (Z.min (9 + 1) 10) 0))
                 (number (9 + 1)) (number 9) None)
            (mount (ranged (number 9) VUndefined))).
Proof.
  refine (proj1 (step_integers no_precision 9 1 0 10 None
                   (mount (ranged (number 9) VUndefined))
                   _ _ _ _ _ _ _ _ _ _) _);
    try reflexivity; vm_compute; reflexivity.
Defined.

Lemma step_integers_rounded_witness :
  decrement no_precision None (mount (ranged (number 9) (number 2)))
  = (Returned (number (9 - 1)),
     if Z.max (Z.min (9 - 1) 10) 0 =? 9
     then mount (ranged (number 9) (number 2))
     else log (OnChange (number (Z.max (Z.min (9 - 1) 10) 0))
                 (VString (integer_text_with_zeros (9 - 1) 2)) (number 9)
                 None)
            (mount (ranged (number 9) (number 2)))).
Proof.
  refine (proj2 (step_integers_rounded no_precision 9 1 0 10 2 None
                   (mount (ranged (number 9) (number 2)))
                   _ _ _ _ _ _ _ _ _ _) _);
    try reflexivity; try lia; vm_compute; reflexivity.
Defined.

Lemma home_and_end_witness :
  snd (handleKeyDown no_precision enabled
         {| key := "End"; defaultPrevented := false |}
         (mount (ranged (number 9) VUndefined)))
  = if Num.is_finite (Num.of_Z 10)
       && negb (strict_equal (number 9) (VNumber (Num.of_Z 10)))
    then log (OnChange (VNumber (Num.of_Z 10)) (VNumber (Num.of_Z 10))
                (number 9)
                (Some {| key := "End"; defaultPrevented := false |}))
           (log (OnKeyDown {| key := "End"; defaultPrevented := false |})
              (mount (ranged (number 9) VUndefined)))
    else log (OnKeyDown {| key := "End"; defaultPrevented := false |})
           (mount (ranged (number 9) VUndefined)).
Proof.
  refine (proj1 (home_and_end no_precision enabled
                   {| key := "End"; defaultPrevented := false |}
                   (mount (ranged (number 9) VUndefined))
                   (Num.of_Z 0) (Num.of_Z 10) _ _ _ _ _ _) _);
    try reflexivity; vm_compute; reflexivity.
Defined.

Lemma render_buttons_witness :
  increment_disabled (render (mount (ranged (number 10) VUndefined)))
  = num_le (Num.of_Z 10) (Num.of_Z 10)
    || Props.disabled (this_props (mount (ranged (number 10) VUndefined))).
Proof.
  refine (proj1 (render_buttons (mount (ranged (number 10) VUndefined))
                   (Num.of_Z 10) (Num.of_Z 0) (Num.of_Z 10) _ _ _ _ _));
    try reflexivity; vm_compute; reflexivity.
Defined.

Lemma createInterval_calls_by_time_witness :
  exists wn,
    fire_n counting (calls_due (now idle_host + 500) 1000)
      (snd (createInterval tt idle_host)) = Some wn
    /\ elapse counting 20 1000 (snd (createInterval tt idle_host))
       = with_now 1000 wn
    /\ armed (fst (createInterval tt idle_host)) tt
         (now idle_host + 500
          + 35 * Z.of_nat (calls_due (now idle_host + 500) 1000)) wn.
Proof.
  apply (createInterval_calls_by_time counting tt idle_host 1000 20).
  - reflexivity.
  - intros w. repeat split.
  - vm_compute. discriminate.
  - vm_compute. lia.
Defined.

Lemma createInterval_independent_witness :
  let w := snd (createInterval tt idle_host) in
  let k := fst (createInterval tt w) in
  let w1 := snd (createInterval tt w) in
  fresh w
  /\ queue w = [{| tid := 1; due := 500; fn := O |}]
  /\ fresh w1
  /\ queue w1
     = [{| tid := 1; due := 500; fn := O |};
        {| tid := 2; due := 500; fn := 1%nat |}]
  /\ queue (cancel k w1) = queue w
  /\ queue (cancel O w1) = [{| tid := 2; due := 500; fn := 1%nat |}].
Proof.
  cbv zeta.
  assert (F : fresh (snd (createInterval tt idle_host))).
  { split.
    - intros t [<-|[]]. cbn. lia.
    - intros iv [<-|[]]. cbn. lia. }
  destruct (createInterval_independent tt (snd (createInterval tt idle_host))
              F) as (F1 & Q & C & Old).
  cbv zeta in F1, Q, C, Old.
  split; [exact F|]. split; [reflexivity|]. split; [exact F1|].
  split; [rewrite Q; reflexivity|]. split; [exact C|].
  rewrite (Old O {| id := 1; callback := tt |} eq_refl). reflexivity.
Defined.

Lemma hold_counts_up_witness :
  let w := held no_precision enabled UP None 2
             (mount (with_value (number 7) (ranged (number 7) VUndefined))) in
  Props.value (this_props w) = number (Z.min (7 + Z.of_nat 3 * 1) 10)
  /\ notified (state w) = counted 7 1 10 None 3
  /\ queue w
     = (if landed 7 1 10 3 then []
        else [{| tid := Z.of_nat 2 + 1; due := 500 + 35 * Z.of_nat 2;
                 fn := O |}])
  /\ _cancelRepeater (state w) = (if landed 7 1 10 3 then None else Some O).
Proof.
  apply (hold_counts_up no_precision enabled (ranged (number 7) VUndefined)
           None 7 1 0 10 2); try reflexivity; try lia;
    vm_compute; try reflexivity; split; discriminate.
Defined.

(** * The rounding routine on every number *)

(** ** The range of the numbers that are computed *)

Lemma shr_1_m (mrs : shr_record) :
  0 <= shr_m mrs -> shr_m (shr_1 mrs) = shr_m mrs / 2.
Proof.
  destruct mrs as [m r s]. cbn [shr_m]. intros Hm.
  destruct m as [|[p|p|]|p]; try lia; cbn [shr_1 shr_m].
  - reflexivity.
  - apply (Z.div_unique _ _ _ 1); lia.
  - apply (Z.div_unique _ _ _ 0); lia.
  - reflexivity.
Qed.

Lemma iter_shr_m (n : nat) (mrs : shr_record) :
  0 <= shr_m mrs ->
  shr_m (Nat.iter n shr_1 mrs) = shr_m mrs / 2 ^ Z.of_nat n.
Proof.
  intros Hm. induction n as [|n IH].
  - cbn [Nat.iter Z.of_nat]. rewrite Z.pow_0_r, Z.div_1_r. reflexivity.
  - rewrite Nat.iter_succ.
    assert (P : 0 < 2 ^ Z.of_nat n) by (apply Z.pow_pos_nonneg; lia).
    rewrite shr_1_m by (rewrite IH; apply Z.div_pos; lia).
    rewrite IH, Z.div_div by lia.
    rewrite Nat2Z.inj_succ, Z.pow_succ_r by lia. f_equal. lia.
Qed.

Lemma fexp_unfold (z : Z) :
  fexp Num.prec Num.emax z = Z.max (z - 53) (-1074).
Proof. reflexivity. Qed.

Lemma shr_fexp_range (m e : Z) (l : location) :
  0 <= m -> -1074 <= e ->
  0 <= shr_m (fst (shr_fexp Num.prec Num.emax m e l)) < 2 ^ 53
  /\ -1074 <= snd (shr_fexp Num.prec Num.emax m e l).
Proof.
  intros Hm He. unfold shr_fexp, shr. rewrite fexp_unfold.
  assert (Hd : m < 2 ^ Zdigits2 m /\ 0 <= Zdigits2 m).
  { destruct (Z.eq_dec m 0) as [->|Hne]; [cbn; lia|].
    pose proof (Zdigits2_bounds m ltac:(lia)) as B.
    split; [lia|]. destruct m; cbn; lia. }
  destruct Hd as [Hd Hd0]. set (d := Zdigits2 m) in *.
  destruct (Z.max (d + e - 53) (-1074) - e) as [|p|p] eqn:En;
    cbn [fst snd]; rewrite ?shr_m_of_loc.
  - assert (2 ^ d <= 2 ^ 53) by (apply Z.pow_le_mono_r; lia). lia.
  - rewrite iter_pos_nat, iter_shr_m by (rewrite shr_m_of_loc; exact Hm).
    rewrite shr_m_of_loc, positive_nat_Z.
    assert (P : 0 < 2 ^ Zpos p) by (apply Z.pow_pos_nonneg; lia).
    split; [split|lia].
    + apply Z.div_pos; lia.
    + apply Z.div_lt_upper_bound; [lia|].
      rewrite <- Z.pow_add_r by lia.
      assert (2 ^ d <= 2 ^ (Zpos p + 53)) by (apply Z.pow_le_mono_r; lia).
      lia.
  - assert (2 ^ d <= 2 ^ 53) by (apply Z.pow_le_mono_r; lia). lia.
Qed.

Lemma binary_round_aux_range (s : bool) (q e : Z) (l : location) :
  0 <= q -> -1074 <= e ->
  in_range (binary_round_aux Num.prec Num.emax s q e l).
Proof.
  intros Hq He. unfold binary_round_aux.
  pose proof (shr_fexp_range q e l Hq He) as [[H1 _] H2].
  destruct (shr_fexp Num.prec Num.emax q e l) as [mrs1 e1].
  cbn [fst snd] in H1, H2.
  pose proof (round_nearest_even_range (shr_m mrs1) (loc_of_shr_record mrs1))
    as Hr.
  pose proof (shr_fexp_range
                (round_nearest_even (shr_m mrs1) (loc_of_shr_record mrs1))
                e1 loc_Exact ltac:(lia) H2) as [[H3 H4] H5].
  destruct (shr_fexp Num.prec Num.emax
              (round_nearest_even (shr_m mrs1) (loc_of_shr_record mrs1))
              e1 loc_Exact) as [mrs2 e2].
  cbn [fst snd] in H3, H4, H5.
  destruct (shr_m mrs2) as [|m|m]; try exact I.
  destruct (Z.leb_spec e2 (Num.emax - Num.prec)) as [Hle|Hgt]; [|exact I].
  cbn [in_range]. unfold Num.emax, Num.prec in Hle. lia.
Qed.

Lemma of_ratio_range (s : bool) (n d : Z) :
  0 <= n -> 0 < d -> in_range (Num.of_ratio s n d).
Proof.
  intros Hn Hd. unfold Num.of_ratio.
  destruct n as [|p|p]; [exact I| |lia].
  unfold SFdiv_core_binary. rewrite fexp_unfold.
  set (e' := Z.min _ (0 - 0)).
  assert (He : -1074 <= e') by (subst e'; lia).
  set (m' := match 0 - 0 - e' with
             | 0 => Zpos p
             | Zpos _ => Z.shiftl (Zpos p) (0 - 0 - e')
             | Zneg _ => 0
             end).
  assert (Hm : 0 <= m').
  { subst m'. destruct (0 - 0 - e'); try lia.
    apply Z.shiftl_nonneg. lia. }
  pose proof (Z.div_pos m' d Hm Hd) as Hq. unfold Z.div in Hq.
  destruct (Z.div_eucl m' d) as [q r]. cbn [fst] in Hq.
  apply binary_round_aux_range; assumption.
Qed.

Lemma of_decimal_range (s : bool) (n e : Z) :
  0 <= n -> in_range (Num.of_decimal s n e).
Proof.
  intros Hn. unfold Num.of_decimal.
  destruct (0 <=? e) eqn:E.
  - apply of_ratio_range; [|lia].
    apply Z.mul_nonneg_nonneg; [lia|]. apply Z.pow_nonneg. lia.
  - apply of_ratio_range; [lia|]. apply Z.pow_pos_nonneg; lia.
Qed.

Lemma of_Z_range (z : Z) : in_range (Num.of_Z z).
Proof. unfold Num.of_Z. apply of_ratio_range; lia. Qed.

Lemma valid_in_range (x : spec_float) : Num.valid x = true -> in_range x.
Proof.
  destruct x as [s|s| |s m e]; try (intros; exact I).
  unfold Num.valid, valid_binary, bounded, canonical_mantissa.
  rewrite fexp_unfold. intros H. apply andb_true_iff in H as [H1 H2].
  apply Z.eqb_eq in H1. apply Z.leb_le in H2.
  unfold Num.emax, Num.prec in H2.
  pose proof (digits2_pos_bounds m) as [_ B].
  cbn [in_range].
  assert (2 ^ Zpos (digits2_pos m) <= 2 ^ 53)
    by (apply Z.pow_le_mono_r; lia).
  lia.
Qed.

Lemma math_round_range (x : spec_float) :
  in_range x -> in_range (math_round x).
Proof.
  destruct x as [s|s| |s m e]; try (intros; exact I).
  intros H. unfold math_round. destruct (0 <=? e); [exact H|].
  destruct (Num.ratio_of m e) as [N D].
  destruct (nearest_integer_up s N D) eqn:E; [exact I| |];
    apply of_Z_range.
Qed.

(** ** The decimal exponent of a number in range *)

Lemma count_le (n K : Z) :
  0 < n < 10 ^ K -> 0 <= K -> 1 <= Digits.count n <= K.
Proof.
  intros [Hn Hu] HK. destruct (count_spec n Hn) as [H1 [H2 _]].
  split; [exact H1|].
  destruct (Z_lt_le_dec K (Digits.count n)) as [Hc|]; [exfalso|lia].
  assert (10 ^ K <= 10 ^ (Digits.count n - 1))
    by (apply Z.pow_le_mono_r; lia).
  lia.
Qed.

Lemma decimal_exponent_range (N D : Z) :
  0 < N < 10 ^ 330 -> 0 < D < 10 ^ 330 ->
  -330 <= decimal_exponent N D <= 330.
Proof.
  intros HN HD. unfold decimal_exponent.
  destruct (Z.leb_spec D N) as [H|H].
  - assert (0 < N / D) by (apply Z.div_str_pos; lia).
    assert (N / D <= N) by (apply Z.div_le_upper_bound; nia).
    pose proof (count_le (N / D) 330 ltac:(lia) ltac:(lia)). lia.
  - assert (0 < D / N) by (apply Z.div_str_pos; lia).
    assert (D / N <= D) by (apply Z.div_le_upper_bound; nia).
    pose proof (count_le (D / N) 330 ltac:(lia) ltac:(lia)).
    destruct (D <=? N * 10 ^ (Digits.count (D / N) - 1)); lia.
Qed.

Lemma ratio_of_range (s : bool) (m : positive) (e : Z) :
  in_range (S754_finite s m e) ->
  0 < fst (Num.ratio_of m e) < 10 ^ 330
  /\ 0 < snd (Num.ratio_of m e) < 10 ^ 330.
Proof.
  cbn [in_range]. intros [Hm He]. unfold Num.ratio_of.
  assert (B : 2 ^ 1074 < 10 ^ 330) by (apply Z.ltb_lt; vm_compute; reflexivity).
  assert (B1 : 1 < 10 ^ 330) by (apply Z.ltb_lt; vm_compute; reflexivity).
  destruct (Z.leb_spec 0 e) as [H|H]; cbn [fst snd].
  - assert (P : 0 < 2 ^ e) by (apply Z.pow_pos_nonneg; lia).
    assert (2 ^ e <= 2 ^ 971) by (apply Z.pow_le_mono_r; lia).
    assert (2 ^ 53 * 2 ^ 971 <= 2 ^ 1074)
      by (apply Z.leb_le; vm_compute; reflexivity).
    split; [|lia]. split; [lia|]. nia.
  - assert (P : 0 < 2 ^ (- e)) by (apply Z.pow_pos_nonneg; lia).
    assert (2 ^ (- e) <= 2 ^ 1074) by (apply Z.pow_le_mono_r; lia).
    assert (2 ^ 53 <= 2 ^ 1074) by (apply Z.pow_le_mono_r; lia).
    split; lia.
Qed.

Lemma shortest_decimal_range (s : bool) (m : positive) (e : Z) :
  in_range (S754_finite s m e) ->
  -331 <= snd (shortest_decimal m e) <= 331.
Proof.
  intros H. pose proof (ratio_of_range s m e H) as [HN HD].
  unfold shortest_decimal.
  destruct (Num.ratio_of m e) as [N D]. cbn [fst snd] in HN, HD.
  pose proof (decimal_exponent_range N D HN HD) as Hn.
  destruct (shortest 16 1 (S754_finite false m e) N D (decimal_exponent N D))
    as [c k].
  destruct (c =? 10 ^ k); cbn [snd]; lia.
Qed.

(** ** The text of an exponent *)

Lemma integer_exponent_text (z : Z) :
  Z.abs z < 2 ^ 51 ->
  exists X, to_string (number z) = X /\ numeric X = true
            /\ parse_exponent (String "e" X) = Some z.
Proof.
  intros Hz. destruct (Z.lt_trichotomy z 0) as [Hn|[->|Hp]].
  - unfold number, Num.of_Z.
    replace (z <? 0) with true by (symmetry; apply Z.ltb_lt; lia).
    destruct (integer_text true (Z.abs z) ltac:(lia))
      as (T & ET & HT & VT & LT).
    destruct (parse_exponent_digits T HT LT) as [_ P2].
    exists (String "-" T). cbn [to_string]. rewrite ET.
    split; [reflexivity|].
    split; [cbn; apply numeric_digits; exact HT|].
    rewrite P2, VT. f_equal. lia.
  - exists "0". repeat split.
  - destruct (exponent_texts z ltac:(lia)) as (_ & _ & H & _). exact H.
Qed.

(** ** Reading a printed number with another exponent *)

Lemma split_e_once (a b : string) :
  no_e a = true -> no_e b = true ->
  split "e" (a ++ String "e" b) = [a; b].
Proof.
  intros Ha Hb. induction a as [|c a IH].
  - cbn [String.append split]. change (Ascii.eqb "e" "e") with true.
    cbn iota. rewrite (split_no_e b Hb). reflexivity.
  - cbn [no_e] in Ha. apply andb_true_iff in Ha as [Hc Ha].
    cbn [String.append split]. apply negb_true_iff in Hc.
    rewrite Hc, (IH Ha). reflexivity.
Qed.

Lemma plus_string_l (s : string) (v : Value) :
  plus (VString s) v = VString (s ++ to_string v).
Proof. destruct v; reflexivity. Qed.

(** A number that prints without an exponent. *)
Lemma read_printed (sx : bool) (ds : string) (n : Z) (X : string) (z : Z) :
  all_digits ds = true -> 1 <= len ds -> -6 < n <= 21 ->
  numeric X = true -> parse_exponent (String "e" X) = Some z ->
  no_e ((if sx then "-" else "") ++ render_decimal ds n) = true
  /\ string_to_number
       ((((if sx then "-" else "") ++ render_decimal ds n) ++ "e") ++ X)
     = Num.of_decimal sx (fst (printed_decimal ds n))
         (snd (printed_decimal ds n) + z).
Proof.
  intros Hd Hl Hn HX He.
  assert (Hsg : no_e (if sx then "-" else "") = true)
    by (destruct sx; reflexivity).
  rewrite !append_assoc. change ("e" ++ X) with (String "e" X).
  unfold render_decimal, printed_decimal. fold (len ds).
  destruct (Z.leb_spec (len ds) n) as [Hk|Hk];
    [replace (n <=? 21) with true by (symmetry; apply Z.leb_le; lia)|];
    cbn [andb fst snd].
  - (* digits followed by zeros *)
    split.
    + rewrite no_e_app, Hsg, no_e_app, (no_e_digits ds Hd).
      rewrite (no_e_digits _ (all_digits_zeros _)). reflexivity.
    + rewrite append_assoc.
      rewrite <- (append_assoc ds).
      rewrite read_plain with (ev := z); try assumption.
      * unfold Digits.value. rewrite value_acc_app, value_acc_zeros.
        fold (Digits.value ds). rewrite Z2Nat.id by lia. reflexivity.
      * rewrite all_digits_app, Hd, all_digits_zeros. reflexivity.
      * rewrite len_append.
        pose proof (len_nonneg (Digits.zeros (Z.to_nat (n - len ds)))). lia.
  - destruct (Z.ltb_spec 0 n) as [Hpos|Hneg];
      [replace (n <=? 21) with true by (symmetry; apply Z.leb_le; lia)|];
      cbn [andb].
    + (* a point inside the digits *)
      destruct (prefix_drop ds (Z.to_nat n)) as (E1 & E2 & E3).
      { unfold len in Hk. lia. }
      rewrite Z2Nat.id in E2, E3 by lia.
      assert (Hboth : all_digits (Digits.prefix_len (Z.to_nat n) ds) = true
                      /\ all_digits (Digits.drop_len (Z.to_nat n) ds) = true).
      { apply all_digits_split. rewrite E1. exact Hd. }
      destruct Hboth as [Ha Hb].
      split.
      * rewrite no_e_app, Hsg, no_e_app.
        rewrite (no_e_digits _ Ha). cbn. apply no_e_digits. exact Hb.
      * rewrite append_assoc. cbn [String.append].
        rewrite (read_pointed sx (Digits.prefix_len (Z.to_nat n) ds)
                   (Digits.drop_len (Z.to_nat n) ds) X z);
          try assumption; try lia.
        rewrite E1, E3. f_equal. lia.
    + (* zeros between the point and the digits *)
      replace ((-6 <? n) && (n <=? 0)) with true
        by (symmetry; apply andb_true_iff; split;
            [apply Z.ltb_lt|apply Z.leb_le]; lia).
      split.
      * rewrite no_e_app, Hsg. cbn.
        rewrite no_e_app, (no_e_digits _ (all_digits_zeros _)).
        apply no_e_digits. exact Hd.
      * cbn [String.append]. rewrite append_assoc.
        pose proof (read_pointed sx "0" (Digits.zeros (Z.to_nat (- n)) ++ ds)
                      X z eq_refl) as RP.
        cbn [String.append] in RP. rewrite append_assoc in RP.
        rewrite RP; try assumption.
        -- rewrite value_leading_zeros.
           rewrite len_append, len_zeros, Z2Nat.id by lia. f_equal. lia.
        -- cbn. lia.
        -- rewrite all_digits_app, all_digits_zeros. exact Hd.
Qed.

Lemma string_to_number_plus (T : string) :
  all_digits T = true -> 1 <= len T ->
  string_to_number (String "+" T) = Num.of_decimal false (Digits.value T) 0.
Proof.
  intros HT LT. destruct T as [|c t]; [cbn in LT; lia|].
  assert (Hc : Digits.is_digit c = true)
    by (cbn in HT; apply andb_true_iff in HT as [H _]; exact H).
  destruct (digit_char_kind c Hc) as (_ & _ & _ & _ & _ & _ & HI).
  assert (Hs : numeric (String "+" (String c t)) = true).
  { change (numeric (String "+" (String c t)))
      with (numeric (String c t)).
    apply numeric_digits. exact HT. }
  unfold string_to_number.
  rewrite (trim_numeric _ Hs), (parse_non_decimal_numeric _ Hs).
  cbn [strip_sign]. change (Ascii.eqb "+" "-") with false.
  change (Ascii.eqb "+" "+") with true. cbn iota.
  cbn [String.eqb]. rewrite HI.
  destruct (parse_without_exponent (String c t) "" HT LT eq_refl) as [P _].
  rewrite P. reflexivity.
Qed.

Lemma no_e_point (a b : string) :
  all_digits a = true -> all_digits b = true ->
  no_e (a ++ String "." b) = true.
Proof.
  intros Ha Hb. rewrite no_e_app, (no_e_digits a Ha). cbn.
  apply no_e_digits. exact Hb.
Qed.

(** A number that prints with an exponent. *)
Lemma read_exponent_form (sx : bool) (ds : string) (n : Z) :
  all_digits ds = true -> 1 <= len ds -> ~ (-6 < n <= 21) ->
  exists mant expo,
    split "e" ((if sx then "-" else "") ++ render_decimal ds n)
    = [(if sx then "-" else "") ++ mant; expo]
    /\ truthy (VString expo) = true
    /\ string_to_number expo = Num.of_Z (n - 1)
    /\ forall X z,
         numeric X = true -> parse_exponent (String "e" X) = Some z ->
         string_to_number ((((if sx then "-" else "") ++ mant) ++ "e") ++ X)
         = Num.of_decimal sx (Digits.value ds) (z - (len ds - 1)).
Proof.
  intros Hd Hl Hn.
  assert (Hsg : no_e (if sx then "-" else "") = true)
    by (destruct sx; reflexivity).
  unfold render_decimal. fold (len ds).
  replace ((len ds <=? n) && (n <=? 21)) with false
    by (symmetry; apply andb_false_iff;
        destruct (Z.leb_spec (len ds) n); [right; apply Z.leb_gt; lia
                                          |left; reflexivity]).
  replace ((0 <? n) && (n <=? 21)) with false
    by (symmetry; apply andb_false_iff;
        destruct (Z.ltb_spec 0 n); [right; apply Z.leb_gt; lia
                                   |left; reflexivity]).
  replace ((-6 <? n) && (n <=? 0)) with false
    by (symmetry; apply andb_false_iff;
        destruct (Z.ltb_spec (-6) n); [right; apply Z.leb_gt; lia
                                      |left; reflexivity]).
  unfold exponent_suffix.
  set (T := Digits.render (Z.abs (n - 1))).
  destruct (render_spec (Z.abs (n - 1)) ltac:(lia)) as (HT & _ & LT & _).
  fold T in HT, LT.
  pose proof (value_render (Z.abs (n - 1)) ltac:(lia)) as VT. fold T in VT.
  set (expo := (if 0 <? n - 1 then "+" else "-") ++ T).
  assert (Hexpo : no_e expo = true).
  { subst expo. rewrite no_e_app, (no_e_digits T HT).
    destruct (0 <? n - 1); reflexivity. }
  assert (Htruthy : truthy (VString expo) = true).
  { subst expo. destruct (0 <? n - 1); reflexivity. }
  assert (Hval : string_to_number expo = Num.of_Z (n - 1)).
  { subst expo. destruct (Z.ltb_spec 0 (n - 1)) as [H|H].
    - cbn [String.append]. rewrite (string_to_number_plus T HT LT), VT.
      rewrite <- (of_decimal_integer (n - 1)).
      replace (n - 1 <? 0) with false by (symmetry; apply Z.ltb_ge; lia).
      reflexivity.
    - pose proof (string_to_number_body true T) as B.
      cbn [String.append] in B |- *. rewrite B.
      + destruct (parse_without_exponent T "" HT LT eq_refl) as [P _].
        rewrite P, VT. rewrite <- (of_decimal_integer (n - 1)).
        replace (n - 1 <? 0) with true by (symmetry; apply Z.ltb_lt; lia).
        reflexivity.
      + destruct T as [|c t]; [cbn in LT; lia|].
        cbn in HT. apply andb_true_iff in HT as [Hc _]. exact Hc.
      + apply numeric_digits. exact HT. }
  change ((if 0 <? n - 1 then "+" else "-") ++ T) with expo.
  clearbody expo. clear T HT LT VT.
  destruct (Z.eqb_spec (len ds) 1) as [H1|H1].
  - exists ds, expo. split; [|split; [exact Htruthy|split; [exact Hval|]]].
    + replace ((if sx then "-" else "") ++ ds ++ "e" ++ expo)
        with (((if sx then "-" else "") ++ ds) ++ String "e" expo)
        by (rewrite !append_assoc; reflexivity).
      apply split_e_once; [|exact Hexpo].
      rewrite no_e_app, Hsg. apply no_e_digits. exact Hd.
    + intros X z HX He. rewrite !append_assoc.
      change ("e" ++ X) with (String "e" X).
      rewrite (read_plain sx ds X z Hd Hl HX He). f_equal. lia.
  - destruct (prefix_drop ds 1) as (E1 & E2 & E3).
    { unfold len in Hl. lia. }
    assert (Hboth : all_digits (Digits.prefix_len 1 ds) = true
                    /\ all_digits (Digits.drop_len 1 ds) = true).
    { apply all_digits_split. rewrite E1. exact Hd. }
    destruct Hboth as [Ha Hb].
    exists (Digits.prefix_len 1 ds ++ String "." (Digits.drop_len 1 ds)), expo.
    split; [|split; [exact Htruthy|split; [exact Hval|]]].
    + replace ((if sx then "-" else "") ++
               Digits.prefix_len 1 ds ++
               "." ++ Digits.drop_len 1 ds ++ "e" ++ expo)
        with (((if sx then "-" else "") ++
               Digits.prefix_len 1 ds ++ String "." (Digits.drop_len 1 ds))
              ++ String "e" expo)
        by (rewrite !append_assoc; reflexivity).
      apply split_e_once; [|exact Hexpo].
      rewrite no_e_app, Hsg. apply no_e_point; assumption.
    + intros X z HX He. rewrite !append_assoc. cbn [String.append].
      rewrite ?append_assoc. cbn [String.append].
      rewrite (read_pointed sx (Digits.prefix_len 1 ds)
                 (Digits.drop_len 1 ds) X z Ha ltac:(lia) Hb HX He).
      rewrite E1, E3. reflexivity.
Qed.

(** ** Moving the decimal point through the text *)

Lemma moved_range (x : spec_float) (q : Z) : in_range (moved x q).
Proof.
  destruct x as [s|s| |s m e]; try exact I.
  cbn [moved].
  destruct (shortest_decimal_digits m e) as [Hd _].
  destruct (shortest_decimal m e) as [ds n]. cbn [fst] in Hd.
  pose proof (value_bound ds Hd) as [Hv _].
  unfold printed_decimal.
  destruct ((len ds <=? n) && (n <=? 21)) eqn:E.
  - apply of_decimal_range. apply Z.mul_nonneg_nonneg; [exact Hv|].
    apply Z.pow_nonneg. lia.
  - apply of_decimal_range. exact Hv.
Qed.

(** The expression of lines 349 and 353: the text up to the letter e, the
    letter e, and the exponent of the text, if it has one, changed by [G],
    or else [g0]. *)
Lemma shift_text (x : spec_float) (q : Z) (G : Value -> Value) (g0 : Value) :
  in_range x ->
  (forall a, Z.abs a <= 400 ->
     exists X, to_string (G (number a)) = X /\ numeric X = true
               /\ parse_exponent (String "e" X) = Some (a + q)) ->
  (exists X, to_string g0 = X /\ numeric X = true
             /\ parse_exponent (String "e" X) = Some q) ->
  to_number
    (plus
       (plus (index (split "e" (to_string (plus (VString "") (VNumber x)))) 0)
          (VString "e"))
       (if truthy
             (index (split "e" (to_string (plus (VString "") (VNumber x)))) 1)
        then
          G (VNumber
               (to_number
                  (index
                     (split "e" (to_string (plus (VString "") (VNumber x))))
                     1)))
        else g0))
  = moved x q.
Proof.
  intros Hx HG (X0 & EX0 & NX0 & PX0).
  change (to_string (plus (VString "") (VNumber x)))
    with (number_to_string x).
  destruct x as [s|s| |s m e].
  - (* zero *)
    change (split "e" (number_to_string (S754_zero s))) with ["0"%string].
    cbn [index nth_error truthy].
    change (plus (VString "0") (VString "e")) with (VString "0e").
    rewrite plus_string_l, EX0. cbn [to_number moved].
    pose proof (read_plain false "0" X0 q eq_refl ltac:(cbn; lia) NX0 PX0)
      as RP.
    cbn [String.append] in RP |- *. rewrite RP.
    change (Digits.value "0") with 0. apply of_decimal_zero.
  - (* the infinities *)
    assert (E : split "e" (number_to_string (S754_infinity s))
                = [if s then "-Infinity" else "Infinity"])
      by (destruct s; reflexivity).
    rewrite E. cbn [index nth_error truthy].
    replace (plus (VString (if s then "-Infinity" else "Infinity"))
               (VString "e"))
      with (VString (if s then "-Infinitye" else "Infinitye"))
      by (destruct s; reflexivity).
    rewrite plus_string_l. cbn [to_number moved].
    apply string_to_number_infinity_e.
  - (* NaN *)
    change (split "e" (number_to_string S754_nan)) with ["NaN"%string].
    cbn [index nth_error truthy].
    change (plus (VString "NaN") (VString "e")) with (VString "NaNe").
    rewrite plus_string_l. cbn [to_number moved].
    apply string_to_number_N.
  - (* finite *)
    pose proof (shortest_decimal_range s m e Hx) as Hn.
    cbn [number_to_string moved].
    destruct (shortest_decimal_digits m e) as [Hd Hl].
    destruct (shortest_decimal m e) as [ds n]. cbn [fst snd] in *.
    destruct (Z_lt_le_dec (-6) n) as [H1|H1];
      [destruct (Z_le_gt_dec n 21) as [H2|H2]|].
    + (* printed without an exponent *)
      destruct (read_printed s ds n X0 q Hd Hl ltac:(lia) NX0 PX0)
        as [Hne Hread].
      rewrite (split_no_e _ Hne). cbn [index nth_error truthy].
      rewrite !plus_string_l, EX0. cbn [to_string to_number].
      rewrite Hread. destruct (printed_decimal ds n). reflexivity.
    + destruct (read_exponent_form s ds n Hd Hl ltac:(lia))
        as (mant & expo & Hs & Ht & Hv & Hread).
      rewrite Hs. cbn [index nth_error]. rewrite Ht.
      cbn [to_number]. rewrite Hv.
      destruct (HG (n - 1) ltac:(lia)) as (X & EX & NX & PX).
      fold (number (n - 1)).
      rewrite !plus_string_l, EX. cbn [to_string to_number].
      rewrite (Hread X _ NX PX).
      unfold printed_decimal.
      replace ((len ds <=? n) && (n <=? 21)) with false
        by (symmetry; apply andb_false_iff; right; apply Z.leb_gt; lia).
      f_equal. lia.
    + destruct (read_exponent_form s ds n Hd Hl ltac:(lia))
        as (mant & expo & Hs & Ht & Hv & Hread).
      rewrite Hs. cbn [index nth_error]. rewrite Ht.
      cbn [to_number]. rewrite Hv.
      destruct (HG (n - 1) ltac:(lia)) as (X & EX & NX & PX).
      fold (number (n - 1)).
      rewrite !plus_string_l, EX. cbn [to_string to_number].
      rewrite (Hread X _ NX PX).
      unfold printed_decimal.
      replace ((len ds <=? n) && (n <=? 21)) with false
        by (symmetry; apply andb_false_iff; left; apply Z.leb_gt; lia).
      f_equal. lia.
Qed.

Lemma plus_exponent (a p : Z) :
  Z.abs a <= 400 -> 0 <= p <= 100 ->
  exists X, to_string (plus (number a) (number p)) = X /\ numeric X = true
            /\ parse_exponent (String "e" X) = Some (a + p).
Proof.
  intros Ha Hp.
  assert (B : 501 < 2 ^ 51) by (apply Z.ltb_lt; vm_compute; reflexivity).
  destruct (plus_integers a p ltac:(lia) ltac:(lia)) as [E _].
  rewrite E by lia. apply integer_exponent_text. lia.
Qed.

Lemma minus_exponent (a p : Z) :
  Z.abs a <= 400 -> 0 <= p <= 100 ->
  exists X, to_string (minus (number a) (number p)) = X /\ numeric X = true
            /\ parse_exponent (String "e" X) = Some (a + - p).
Proof.
  intros Ha Hp.
  assert (B : 501 < 2 ^ 51) by (apply Z.ltb_lt; vm_compute; reflexivity).
  unfold minus, number. cbn [to_number].
  rewrite sub_of_Z by lia. fold (number (a - p)).
  replace (a + - p) with (a - p) by lia.
  apply integer_exponent_text. lia.
Qed.

(** [round] moves the decimal point [p] places to the right, rounds to an
    integer and moves the point back. *)
Lemma round_moved (x : spec_float) (p : Z) :
  in_range x -> 0 <= p <= 100 ->
  round (VNumber x) (number p) =
  match to_fixed (moved (math_round (moved x p)) (- p)) (number p) with
  | Normal s => Normal (VString s)
  | Throw e => Throw e
  end.
Proof.
  intros Hx Hp. rewrite round_back.
  destruct (exponent_texts p ltac:(lia)) as (Hor & _ & H1 & H2).
  rewrite Hor.
  rewrite (shift_text x p (fun v => plus v (number p)) (number p) Hx).
  - unfold back.
    rewrite (shift_text (math_round (moved x p)) (- p)
               (fun v => minus v (number p)) (negate (number p))).
    + reflexivity.
    + apply math_round_range, moved_range.
    + intros a Ha. apply minus_exponent; assumption.
    + exact H2.
  - intros a Ha. apply plus_exponent; assumption.
  - exact H1.
Qed.

(** ** The contract of [round] *)

Lemma moved_shifted (s : bool) (m : positive) (e p : Z) :
  0 <= p -> moved (S754_finite s m e) p = shifted (S754_finite s m e) p.
Proof.
  intros Hp. cbn [moved shifted]. destruct (shortest_decimal m e) as [ds n].
  unfold printed_decimal.
  destruct (Z.leb_spec (len ds) n) as [H|H]; cbn [andb];
    [destruct (n <=? 21)|]; try reflexivity.
  rewrite of_decimal_scaled by lia. reflexivity.
Qed.

Lemma math_round_cases (s : bool) (m : positive) (e : Z) :
  math_round (S754_finite s m e) =
  if 0 <=? e then S754_finite s m e
  else if integer_nearest (S754_finite s m e) =? 0 then S754_zero s
       else Num.of_Z (integer_nearest (S754_finite s m e)).
Proof.
  destruct (Z.leb_spec 0 e) as [H|H].
  - unfold math_round.
    replace (0 <=? e) with true by (symmetry; apply Z.leb_le; lia).
    reflexivity.
  - apply math_round_fraction. exact H.
Qed.

Lemma round_zero (s : bool) (p : Z) :
  0 <= p <= 100 ->
  round (VNumber (S754_zero s)) (number p)
  = Normal (VString (decimal_text 0 p)).
Proof.
  intros Hp. rewrite round_moved by (try exact I; exact Hp).
  cbn [moved math_round].
  destruct (exponent_texts p ltac:(lia)) as (_ & Hi & _).
  unfold to_fixed. rewrite Hi.
  replace ((p <? 0) || (100 <? p)) with false
    by (symmetry; apply orb_false_iff; split; apply Z.ltb_ge; lia).
  unfold fixed_digits, decimal_text.
  replace ((2 * 0 * 10 ^ p + 1) / (2 * 1)) with 0 by reflexivity.
  reflexivity.
Qed.

(** Where [Math.round] has a fraction to round and the integer is small
    enough to print with all its digits. *)
Lemma round_exact (x : spec_float) (p : Z) (sy : bool) (my : positive)
  (ey : Z) :
  in_range x -> 0 <= p <= 100 ->
  moved x p = S754_finite sy my ey -> ey < 0 ->
  Z.abs (integer_nearest (moved x p)) < 2 ^ 51 ->
  round (VNumber x) (number p)
  = Normal (VString (decimal_text (integer_nearest (moved x p)) p)).
Proof.
  intros Hx Hp Em He HR. rewrite round_back.
  destruct (exponent_texts p ltac:(lia)) as (Hor & _ & H1 & _).
  rewrite Hor.
  rewrite (shift_text x p (fun v => plus v (number p)) (number p) Hx);
    [|intros a Ha; apply plus_exponent; assumption|exact H1].
  rewrite Em in *. rewrite (math_round_fraction sy my ey He).
  destruct (Z.eqb_spec (integer_nearest (S754_finite sy my ey)) 0) as [E0|E0].
  - rewrite E0. apply back_zero. lia.
  - apply back_integer; [exact E0|exact HR|lia].
Qed.

Lemma round_rejected (x d : Value) (f : Z) :
  to_integer_or_infinity (to_number (or_else d (VNumber Num.zero))) = Some f ->
  100 < f -> round x d = Throw RangeError.
Proof.
  intros Hf Hp. unfold round.
  match goal with
  | |- context [to_fixed ?y ?d] =>
      rewrite (to_fixed_rejected y d f Hf ltac:(lia))
  end.
  reflexivity.
Qed.

(** C2, as stated, fails in three ways.  On a negative tie the result
    moves towards zero: [-2.5] to no fractional digit gives ["-2"] and
    [-1.005] to two gives ["-1.00"], where rounding half away from zero
    gives ["-3"] and ["-1.01"].  Off a tie the result need not be the
    nearest: [0.44999999999999996] to one digit gives ["0.5"], because
    [4.4999999999999996] is read as the number [4.5] before [Math.round];
    rounding the value gives ["0.4"].  And a precision above 100 is
    refused with a RangeError. *)
Lemma round_neither_half_away_nor_nearest :
  round (literal "-2.5") (number 0) = Normal (VString "-2")
  /\ round_half_away_from_zero (string_to_number "-2.5") 0 = "-3"
  /\ round (literal "-1.005") (number 2) = Normal (VString "-1.00")
  /\ round_half_away_from_zero (string_to_number "-1.005") 2 = "-1.01"
  /\ round (literal "0.44999999999999996") (number 1) = Normal (VString "0.5")
  /\ round_half_away_from_zero (string_to_number "0.44999999999999996") 1
     = "0.4"
  /\ round (literal "1.005") (number 101) = Throw RangeError.
Proof. repeat split; vm_compute; reflexivity. Qed.

(** C2, amended.  For every binary64 value [x] and every precision [p]
    from 0 to 100, [round(x, p)] is [toFixed(p)] of the number obtained in
    three steps: the decimal point of the text [x] prints as is moved [p]
    places to the right, by appending the exponent [e p] or by adding [p]
    to the exponent the text has, and the result is read as the nearest
    number; [Math.round] takes it to the nearest integer, the larger one on
    a tie; the point of that integer's text is moved [p] places back.  NaN
    and the infinities give ["NaN"], a zero gives [0] with [p] zeros, a
    precision whose integer part is above 100 a RangeError.  Where the
    moved number is below [2^52] and the integer below [2^51] in magnitude,
    the result is the text of [r / 10^p] with exactly [p] fractional
    digits, [r] being the integer nearest to the moved number.  A value
    whose decimal, moved by [p] places, lies exactly halfway between two
    integers therefore goes towards +Infinity: away from zero when
    positive, towards zero when negative.  [round(1.005, 2)] is ["1.01"],
    also when [1.005] is the sum of [1.0] and [0.005] in [increment];
    [round(-1.005, 2)] is ["-1.00"] and [round(-2.5, 0)] is ["-2"].  The
    result rounds the moved number, which is not always the nearest to [x]
    itself: [round(0.44999999999999996, 1)] is ["0.5"]. *)
Theorem round_half_up_contract :
  (forall x p,
     Num.valid x = true -> 0 <= p <= 100 ->
     exists text,
       to_fixed (moved (math_round (moved x p)) (- p)) (number p)
       = Normal text
       /\ round (VNumber x) (number p) = Normal (VString text))
  /\ (forall s m e p,
        0 <= p ->
        moved (S754_finite s m e) p = shifted (S754_finite s m e) p)
  /\ (forall s m e,
        math_round (S754_finite s m e) =
        if 0 <=? e then S754_finite s m e
        else if integer_nearest (S754_finite s m e) =? 0 then S754_zero s
             else Num.of_Z (integer_nearest (S754_finite s m e)))
  /\ (forall s m e,
        let R := integer_nearest (S754_finite s m e) in
        let N := fst (Num.ratio_of m e) in
        let D := snd (Num.ratio_of m e) in
        2 * D * R - D <= (if s then - 2 * N else 2 * N)
        /\ (if s then - 2 * N else 2 * N) < 2 * D * R + D)
  /\ (forall x,
        Num.is_finite x = false ->
        forall p, 0 <= p <= 100 ->
        round (VNumber x) (number p) = Normal (VString "NaN"))
  /\ (forall s p,
        0 <= p <= 100 ->
        round (VNumber (S754_zero s)) (number p)
        = Normal (VString (decimal_text 0 p)))
  /\ (forall x d f,
        to_integer_or_infinity (to_number (or_else d (VNumber Num.zero)))
        = Some f ->
        100 < f -> round x d = Throw RangeError)
  /\ round (literal "1.005") (number 101) = Throw RangeError
  /\ (forall x p sy my ey,
        Num.valid x = true -> 0 <= p <= 100 ->
        moved x p = S754_finite sy my ey -> ey < 0 ->
        Z.abs (integer_nearest (moved x p)) < 2 ^ 51 ->
        round (VNumber x) (number p)
        = Normal (VString (decimal_text (integer_nearest (moved x p)) p)))
  /\ (forall x p,
        roundable x p = true ->
        round (VNumber x) (number p)
        = Normal (VString (decimal_text (integer_nearest (shifted x p)) p)))
  /\ (forall r p,
        0 < p ->
        exists a b,
          decimal_text r p = (if r <? 0 then "-" else "") ++ a ++ String "." b
          /\ all_digits a = true /\ 1 <= len a
          /\ all_digits b = true /\ len b = p
          /\ Digits.value (a ++ b) = Z.abs r)
  /\ (forall sx m e p j,
        -6 < snd (shortest_decimal m e) <= 21 -> 0 <= p <= 100 ->
        0 <= j < 2 ^ 50 ->
        2 * fst (shifted_decimal m e p)
        = (2 * j + 1) * snd (shifted_decimal m e p) ->
        0 < snd (shifted_decimal m e p) ->
        round (VNumber (S754_finite sx m e)) (number p)
        = Normal (VString (decimal_text (if sx then - j else j + 1) p)))
  /\ round (literal "1.005") (number 2) = Normal (VString "1.01")
  /\ round (literal "-1.005") (number 2) = Normal (VString "-1.00")
  /\ round (literal "-2.5") (number 0) = Normal (VString "-2")
  /\ round (literal "0.44999999999999996") (number 1)
     = Normal (VString "0.5")
  /\ increment no_precision None
       (mount (stepping (literal "1.0") (literal "0.005") (number 2)))
     = (Returned (literal "1.005"),
        log (OnChange (literal "1.01") (VString "1.01") (literal "1.0") None)
          (mount (stepping (literal "1.0") (literal "0.005") (number 2)))).
Proof.
  split.
  { intros x p Hx Hp.
    destruct (exponent_texts p ltac:(lia)) as (_ & Hi & _).
    destruct (to_fixed_accepted (moved (math_round (moved x p)) (- p))
                (number p) p Hi Hp) as [text Ht].
    exists text. split; [exact Ht|].
    rewrite (round_moved x p (valid_in_range x Hx) Hp), Ht. reflexivity. }
  split; [exact moved_shifted|].
  split; [exact math_round_cases|].
  split.
  { intros s m e. cbv zeta. unfold integer_nearest.
    pose proof (ratio_of_pos m e) as [HN HD].
    destruct (Num.ratio_of m e) as [N D]. cbn [fst snd] in *.
    apply (nearest_integer_up_sign s N D HN HD). }
  split.
  { intros x Hx p Hp.
    destruct (exponent_texts p ltac:(lia)) as (Hor & Hi & _).
    assert (Ha : accepted_digits (number p)).
    { exists p. rewrite Hor. split; [exact Hi|exact Hp]. }
    destruct x as [s|s| |s m e]; try discriminate.
    - rewrite round_moved by (try exact I; exact Hp).
      cbn [moved math_round]. unfold to_fixed. rewrite Hi.
      replace ((p <? 0) || (100 <? p)) with false
        by (symmetry; apply orb_false_iff; split; apply Z.ltb_ge; lia).
      reflexivity.
    - apply round_nan. exact Ha. }
  split; [exact round_zero|].
  split; [exact round_rejected|].
  split; [vm_compute; reflexivity|].
  split.
  { intros x p sy my ey Hx. apply round_exact, valid_in_range, Hx. }
  split; [exact round_characterised|].
  split; [exact decimal_text_shape|].
  split; [exact round_tie|].
  repeat split; vm_compute; reflexivity.
Qed.

Lemma round_half_up_contract_witness :
  Num.valid (string_to_number "1.2345e-10") = true
  /\ round (literal "2.5e-7") (number 7) = Normal (VString "0.0000003")
  /\ round (literal "1.2345e-10") (number 12)
     = Normal (VString "0.000000000123")
  /\ round (literal "1e21") (number 2) = Normal (VString "1e+21")
  /\ round (VNumber (S754_zero true)) (number 2) = Normal (VString "0.00")
  /\ roundable (string_to_number "8.345") 2 = true
  /\ round (literal "8.345") (number 2) = Normal (VString "8.35")
  /\ round (literal "-0.125") (number 2) = Normal (VString "-0.12").
Proof.
  destruct round_half_up_contract
    as (H1 & _ & _ & _ & _ & H6 & _ & _ & H8 & H7 & _ & H9 & _).
  split; [vm_compute; reflexivity|].
  split; [|split; [|split; [|split; [|split]]]].
  - unfold literal.
    refine (eq_trans
              (H8 (string_to_number "2.5e-7") 7 false
                 5629499534213120%positive (-51) _ _ _ _ _) _);
      try (vm_compute; reflexivity); lia.
  - destruct (H1 (string_to_number "1.2345e-10") 12) as (text & Ht & Hr);
      [vm_compute; reflexivity|lia|].
    unfold literal. rewrite Hr. f_equal. f_equal.
    assert (E : Normal text = Normal "0.000000000123")
      by (rewrite <- Ht; vm_compute; reflexivity).
    congruence.
  - destruct (H1 (string_to_number "1e21") 2) as (text & Ht & Hr);
      [vm_compute; reflexivity|lia|].
    unfold literal. rewrite Hr. f_equal. f_equal.
    assert (E : Normal text = Normal "1e+21")
      by (rewrite <- Ht; vm_compute; reflexivity).
    congruence.
  - refine (eq_trans (H6 true 2 _) _); [lia|vm_compute; reflexivity].
  - vm_compute. reflexivity.
  - split.
    + unfold literal.
      refine (eq_trans (H7 (string_to_number "8.345") 2 _) _);
        vm_compute; reflexivity.
    + refine (eq_trans
                (H9 true 4503599627370496%positive (-55) 2 12 _ _ _ _ _) _);
        try (vm_compute; reflexivity);
        split; vm_compute; try reflexivity; discriminate.
Defined.
